(** * WTask: addressable tasks, data channels and the work queue

    A shallow embedding of [components/WTask] ([Task], [NTask], [RTask],
    [WorkQueue]) together with a sequential model of the FreeRTOS / ESP-IDF
    kernel objects they use (queues, mutexes, no-split ring buffers), and
    of the integer helpers of [components/miscellaneous], the mantissa
    arithmetic of [components/fixedpoint] and the state machine of
    [components/ultrasound].

    Conventions
    - machine integers are [Z]; a [uintN_t] holds values in [0, 2^N);
    - an object pointer is an address [Z], [nullptr] is [0];
    - a [void *] to payload bytes is an [option (list Z)], [None] being
      [nullptr];
    - one call runs at a time: while it runs no other task makes progress, so
      a wait on an unavailable kernel object expires when its timeout is
      finite and never returns when the timeout is [portMAX_DELAY]. *)

From Stdlib Require Import FunInd Recdef.
From stdpp Require Import base gmap list strings.

Local Open Scope Z_scope.

(** ** Constants of FreeRTOS and of the component *)

Definition pdTRUE : Z := 1.
Definition pdFALSE : Z := 0.
Definition errQUEUE_FULL : Z := 0.
Definition portMAX_DELAY : Z := 0xffffffff.
Definition queueSEND_TO_BACK : Z := 0.
Definition queueSEND_TO_FRONT : Z := 1.
Definition tskNO_AFFINITY : Z := 0x7FFFFFFF.
Definition rbHEADER_SIZE : Z := 8.

Definition NTASK_ID_STARTING : Z := 0x01.
Definition NTASK_QUEUE_LENGTH : Z := 8.
Definition NTASK_TYPE_NOTIF_ISR_CONTX : Z := 0xff.
Definition NTASK_TYPE_NOTIF_WORK_QUEU : Z := 0xfe.
Definition NOTIFICATION_WORK_IN_QUEUE : Z := 0x01.

Definition NTASK_LOG_TAG : string := "NTASK".
Definition RTASK_LOG_TAG : string := "RTASK".
Definition WORKQ_LOG_TAG : string := "WORKQ".

(** ** Identifier_t and Notification_t (NTask.hpp)

    Both are unions of a struct of fields and one raw word.  The target
    (ESP32, the platform of [esp_log.h] and [freertos/ringbuf.h]) is
    little-endian: the first field occupies the low-order bits of the word. *)

Record Identifier_t := { type : Z; ID : Z }.

Definition w_id (i : Identifier_t) : Z :=
  Z.lor (Z.land (type i) 0xff) (Z.shiftl (Z.land (ID i) 0xff) 8).

Definition Identifier_of_w_id (w : Z) : Identifier_t :=
  {| type := Z.land w 0xff; ID := Z.land (Z.shiftr w 8) 0xff |}.

Record Notification_t := { Identifier : Identifier_t; value : Z }.

Definition d0 (n : Notification_t) : Z :=
  Z.lor (w_id (Identifier n)) (Z.shiftl (Z.land (value n) 0xffff) 16).

(** [(Notification_t){.d0 = x}] *)
Definition Notification_of_d0 (x : Z) : Notification_t :=
  {| Identifier := Identifier_of_w_id (Z.land x 0xffff);
     value := Z.land (Z.shiftr x 16) 0xffff |}.

(** [NOTIFICATION_FROM_ISR(X)] *)
Definition NOTIFICATION_FROM_ISR (X : Z) : Notification_t :=
  {| Identifier := {| type := NTASK_TYPE_NOTIF_ISR_CONTX; ID := 0 |};
     value := X |}.

#[global] Instance Identifier_t_eq_dec : EqDecision Identifier_t.
Proof. solve_decision. Defined.

#[global] Instance Notification_t_eq_dec : EqDecision Notification_t.
Proof. solve_decision. Defined.

(** ** Kernel objects

    The kernel is an external collaborator; the three objects below carry
    the state the component can observe through the API. *)

Module FreeRTOS.

(** Result of a kernel call that may wait. *)
Inductive Wait (A : Type) : Type :=
| Done (a : A)      (* the call returned *)
| Forever.          (* the wait never ends *)
Arguments Done {A} a.
Arguments Forever {A}.

(** *** Queue of notifications ([xQueueCreate(n, sizeof(Notification_t))]) *)

Record Queue := { q_length : Z; q_items : list Notification_t }.

Definition xQueueCreate (uxQueueLength : Z) : Queue :=
  {| q_length := uxQueueLength; q_items := [] |}.

Definition q_full (q : Queue) : bool :=
  q_length q <=? Z.of_nat (length (q_items q)).

Definition q_insert (q : Queue) (item : Notification_t) (pos : Z) : Queue :=
  {| q_length := q_length q;
     q_items := if pos =? queueSEND_TO_BACK
                then q_items q ++ [item] else item :: q_items q |}.

Definition xQueueGenericSend (q : Queue) (item : Notification_t)
    (xTicksToWait xCopyPosition : Z) : Wait (Z * Queue) :=
  if negb (q_full q) then Done (pdTRUE, q_insert q item xCopyPosition)
  else if xTicksToWait =? portMAX_DELAY then Forever
  else Done (errQUEUE_FULL, q).

(** The interrupt variants never wait.  The out-parameter
    [pxHigherPriorityTaskWoken] is written only when a task waiting on
    the queue is woken, which no single call observes; it is left out. *)
Definition xQueueGenericSendFromISR (q : Queue) (item : Notification_t)
    (xCopyPosition : Z) : Z * Queue :=
  if negb (q_full q) then (pdTRUE, q_insert q item xCopyPosition)
  else (errQUEUE_FULL, q).

Definition xQueueReceive (q : Queue) (xTicksToWait : Z)
    : Wait (option Notification_t * Queue) :=
  match q_items q with
  | item :: rest => Done (Some item, {| q_length := q_length q; q_items := rest |})
  | [] => if xTicksToWait =? portMAX_DELAY then Forever else Done (None, q)
  end.

(** *** Mutex ([xSemaphoreCreateMutex]); [true] when taken *)

Definition Semaphore := bool.

Definition xSemaphoreCreateMutex : Semaphore := false.

Definition xSemaphoreTake (s : Semaphore) (xTicksToWait : Z) : Wait (bool * Semaphore) :=
  if negb s then Done (true, true)
  else if xTicksToWait =? portMAX_DELAY then Forever
  else Done (false, s).

Definition xSemaphoreGive (s : Semaphore) : Semaphore := false.

(** *** Ring buffer of items ([RINGBUF_TYPE_NOSPLIT])

    Placement inside the storage area (wrap-around, dummy items) is
    abstracted to byte accounting: an item costs its header plus its
    size rounded up to a multiple of four, and stays accounted for from
    the send until it is returned.  An item handed out by a receive and
    not yet returned is kept in [rb_borrowed] under the pointer the
    receive gave.  The kernel refuses more than the accounting does (an
    item above half of the buffer less the header, an item for which the
    free bytes are not contiguous): a property of an accepted push takes
    the acceptance as its hypothesis, or an empty buffer and an item of
    no more than half of it. *)

Record Item := { item_ptr : Z; item_data : list Z }.

Record Ringbuf := {
  rb_size : Z;
  rb_items : list Item;
  rb_borrowed : list Item;
  rb_next : Z
}.

Definition xRingbufferCreate (xBufferSize : Z) : Ringbuf :=
  {| rb_size := xBufferSize; rb_items := []; rb_borrowed := []; rb_next := 1 |}.

Definition rbALIGN_SIZE (n : Z) : Z := Z.land (n + 3) (Z.lnot 3).

Definition item_cost (xItemSize : Z) : Z := rbHEADER_SIZE + rbALIGN_SIZE xItemSize.

Definition rb_used (rb : Ringbuf) : Z :=
  foldr (fun it acc => item_cost (Z.of_nat (length (item_data it))) + acc) 0
        (rb_items rb ++ rb_borrowed rb).

Definition rb_free (rb : Ringbuf) : Z := rb_size rb - rb_used rb.

Definition xRingbufferSend (rb : Ringbuf) (data : list Z) (xTicksToWait : Z)
    : Wait (Z * Ringbuf) :=
  let cost := item_cost (Z.of_nat (length data)) in
  if rb_size rb <? cost then Done (pdFALSE, rb)
  else if cost <=? rb_free rb then
    Done (pdTRUE, {| rb_size := rb_size rb;
                     rb_items := rb_items rb ++ [{| item_ptr := rb_next rb; item_data := data |}];
                     rb_borrowed := rb_borrowed rb;
                     rb_next := rb_next rb + 1 |})
  else if xTicksToWait =? portMAX_DELAY then Forever
  else Done (pdFALSE, rb).

Definition xRingbufferReceive (rb : Ringbuf) (xTicksToWait : Z)
    : Wait (option Item * Ringbuf) :=
  match rb_items rb with
  | it :: rest =>
      Done (Some it, {| rb_size := rb_size rb; rb_items := rest;
                        rb_borrowed := rb_borrowed rb ++ [it];
                        rb_next := rb_next rb |})
  | [] => if xTicksToWait =? portMAX_DELAY then Forever else Done (None, rb)
  end.

(** Returning a pointer that is not borrowed trips the kernel's
    assertion: [None]. *)
Definition vRingbufferReturnItem (rb : Ringbuf) (pvItem : Z) : option Ringbuf :=
  if existsb (fun it => item_ptr it =? pvItem) (rb_borrowed rb) then
    Some {| rb_size := rb_size rb; rb_items := rb_items rb;
            rb_borrowed := filter (fun it => item_ptr it ≠ pvItem) (rb_borrowed rb);
            rb_next := rb_next rb |}
  else None.

End FreeRTOS.
Export FreeRTOS.

(** ** Objects, the store and the effect monad *)

(** The part an [RTask] adds to an [NTask]. *)
Record RTaskPart := {
  receiving_buff : Ringbuf;
  mutex_receiving_buff : Semaphore
}.

(** One object of the [Task] / [NTask] / [RTask] / [WorkQueue] hierarchy.
    [rtask] is [None] for an object that is an [NTask] only. *)
Record TaskObject := {
  m_taskName : string;
  m_stackSize : Z;
  m_priority : Z;
  m_coreId : Z;
  m_running : bool;
  identifier : Identifier_t;
  notification_queue : Queue;
  rtask : option RTaskPart
}.

Definition set_coreId (c : Z) (o : TaskObject) : TaskObject :=
  {| m_taskName := m_taskName o; m_stackSize := m_stackSize o;
     m_priority := m_priority o; m_coreId := c; m_running := m_running o;
     identifier := identifier o; notification_queue := notification_queue o;
     rtask := rtask o |}.

Definition set_identifier (i : Identifier_t) (o : TaskObject) : TaskObject :=
  {| m_taskName := m_taskName o; m_stackSize := m_stackSize o;
     m_priority := m_priority o; m_coreId := m_coreId o; m_running := m_running o;
     identifier := i; notification_queue := notification_queue o;
     rtask := rtask o |}.

Definition set_notification_queue (q : Queue) (o : TaskObject) : TaskObject :=
  {| m_taskName := m_taskName o; m_stackSize := m_stackSize o;
     m_priority := m_priority o; m_coreId := m_coreId o; m_running := m_running o;
     identifier := identifier o; notification_queue := q;
     rtask := rtask o |}.

Definition set_rtask (r : option RTaskPart) (o : TaskObject) : TaskObject :=
  {| m_taskName := m_taskName o; m_stackSize := m_stackSize o;
     m_priority := m_priority o; m_coreId := m_coreId o; m_running := m_running o;
     identifier := identifier o; notification_queue := notification_queue o;
     rtask := r |}.

(** Arguments of a log format string. *)
Inductive LogArg := ArgZ (z : Z) | ArgS (s : string).

(** What a call does to the outside, in program order. *)
Inductive Event :=
| ESP_LOGE (tag format : string) (args : list LogArg)
| Ev_xQueueGenericSend (dest : Z) (notif : Notification_t) (ticks pos : Z)
| Ev_xQueueGenericSendFromISR (dest : Z) (notif : Notification_t) (pos : Z)
| Ev_xQueueReceive (self ticks : Z)
| Ev_xSemaphoreTake (dest ticks : Z)
| Ev_xSemaphoreGive (dest : Z)
| Ev_xRingbufferSend (dest : Z) (data : list Z) (ticks : Z)
| Ev_xRingbufferReceive (self ticks : Z)
| Ev_vRingbufferReturnItem (self item : Z)
| Ev_work_function (fn args : Z)
| Ev_free (data : list Z).

#[global] Instance LogArg_eq_dec : EqDecision LogArg.
Proof. solve_decision. Defined.

#[global] Instance Event_eq_dec : EqDecision Event.
Proof. solve_decision. Defined.

(** The store: live objects by address, the static [NTask::ntask_list],
    the next address [new] hands out, and the events so far. *)
Record World := {
  heap : gmap Z TaskObject;
  ntask_list : list Z;
  next_addr : Z;
  trace : list Event
}.

Definition init_world : World :=
  {| heap := ∅; ntask_list := []; next_addr := 1; trace := [] |}.

(** How a call ends: it returns, it waits forever, or it leaves defined
    behaviour (a null or dangling dereference, a failed assertion). *)
Inductive Outcome (A : Type) : Type :=
| Ret (a : A) (w : World)
| Block (w : World)
| Fault.
Arguments Ret {A} a w.
Arguments Block {A} w.
Arguments Fault {A}.

Definition M (A : Type) : Type := World → Outcome A.

Definition ret {A} (a : A) : M A := fun w => Ret a w.

Definition bind {A B} (c : M A) (k : A → M B) : M B :=
  fun w => match c w with
           | Ret a w' => k a w'
           | Block w' => Block w'
           | Fault => Fault
           end.

Declare Scope task_scope.
Delimit Scope task_scope with task.
Notation "'do' x <- c ; k" := (bind c (fun x => k))
  (at level 10, x name, c at level 100, k at level 200,
   format "'[v' 'do'  x  <-  c ; '/' k ']'") : task_scope.
Notation "'do' ' p <- c ; k" := (bind c (fun x => match x with p => k end))
  (at level 10, p pattern, c at level 100, k at level 200) : task_scope.
Notation "c ;; k" := (bind c (fun _ => k))
  (at level 100, k at level 200, right associativity) : task_scope.
Local Open Scope task_scope.

Definition fault {A} : M A := fun _ => Fault.
Definition block {A} : M A := fun w => Block w.

Definition emit (e : Event) : M unit :=
  fun w => Ret tt {| heap := heap w; ntask_list := ntask_list w;
                     next_addr := next_addr w; trace := trace w ++ [e] |}.

(** [*p] for an object pointer. *)
Definition deref (p : Z) : M TaskObject :=
  fun w => match heap w !! p with Some o => Ret o w | None => Fault end.

(** Assignment to fields of [*p]. *)
Definition modify (p : Z) (f : TaskObject → TaskObject) : M unit :=
  fun w => match heap w !! p with
           | Some o => Ret tt {| heap := <[p := f o]> (heap w);
                                 ntask_list := ntask_list w;
                                 next_addr := next_addr w; trace := trace w |}
           | None => Fault
           end.

Definition get_ntask_list : M (list Z) := fun w => Ret (ntask_list w) w.

Definition set_ntask_list (l : list Z) : M unit :=
  fun w => Ret tt {| heap := heap w; ntask_list := l;
                     next_addr := next_addr w; trace := trace w |}.

(** Storage for a new object.  Addresses are handed out upward; that the
    allocator may hand freed storage out again is not modelled. *)
Definition new (o : TaskObject) : M Z :=
  fun w => Ret (next_addr w)
               {| heap := <[next_addr w := o]> (heap w); ntask_list := ntask_list w;
                  next_addr := next_addr w + 1; trace := trace w |}.

(** End of an object's lifetime. *)
Definition release (p : Z) : M unit :=
  fun w => Ret tt {| heap := delete p (heap w); ntask_list := ntask_list w;
                     next_addr := next_addr w; trace := trace w |}.

(** Kernel calls on the objects owned by [*p]. *)
Definition on_queue {A} (p : Z) (f : Queue → Wait (A * Queue)) : M A :=
  do o <- deref p;
  match f (notification_queue o) with
  | Done (a, q) => modify p (set_notification_queue q);; ret a
  | Forever => block
  end.

Definition on_rtask {A} (p : Z) (f : RTaskPart → Wait (A * RTaskPart)) : M A :=
  do o <- deref p;
  match rtask o with
  | None => fault
  | Some r =>
      match f r with
      | Done (a, r') => modify p (set_rtask (Some r'));; ret a
      | Forever => block
      end
  end.

(** ** Task (Task.cpp) *)

Module Task.

(** [Task::Task(taskName, stackSize, priority)]: the fields of the
    derived classes are not yet set. *)
Definition Task (taskName : string) (stackSize priority : Z) : TaskObject :=
  {| m_taskName := taskName; m_stackSize := stackSize; m_priority := priority;
     m_coreId := tskNO_AFFINITY; m_running := false;
     identifier := {| type := 0; ID := 0 |};
     notification_queue := xQueueCreate 0;
     rtask := None |}.

Definition setCore (this coreId : Z) : M unit := modify this (set_coreId coreId).

Definition getCore (this : Z) : M Z := do o <- deref this; ret (m_coreId o).

Definition getName (this : Z) : M string := do o <- deref this; ret (m_taskName o).

End Task.

(** ** NTask (NTask.cpp, NTask.hpp) *)

Module NTask.

Definition getIdentifier (this : Z) : M Identifier_t :=
  do o <- deref this; ret (identifier o).

Definition getID (this : Z) : M Z := do o <- deref this; ret (ID (identifier o)).

Definition getType (this : Z) : M Z := do o <- deref this; ret (type (identifier o)).

(** [TO_NOTIFICATION(X)] *)
Definition TO_NOTIFICATION (this X : Z) : M Notification_t :=
  do i <- getIdentifier this; ret {| Identifier := i; value := X |}.

(** The [while] of [isIDTaken], from the position the list [l] starts at. *)
Fixpoint isIDTaken_from (l : list Z) (identifier0 : Identifier_t) : M bool :=
  match l with
  | [] => ret false
  | p :: l' =>
      do o <- deref p;
      if w_id identifier0 =? w_id (identifier o) then ret true
      else isIDTaken_from l' identifier0
  end.

Definition isIDTaken (identifier0 : Identifier_t) : M bool :=
  do l <- get_ntask_list; isIDTaken_from l identifier0.

(** The [for] of [getIDnotTaken] over the candidate ids still to try. *)
Fixpoint getIDnotTaken_from (candidates : list Z) (identifier0 : Identifier_t) : M Z :=
  match candidates with
  | [] =>
      emit (ESP_LOGE NTASK_LOG_TAG
              "Can't assign other peripheral ID because all ID are taken" []);;
      ret 255
  | c :: rest =>
      let identifier1 := {| type := type identifier0; ID := c |} in
      do taken <- isIDTaken identifier1;
      if negb taken then ret (ID identifier1)
      else getIDnotTaken_from rest identifier0
  end.

(** [identifier.ID] runs over [NTASK_ID_STARTING .. 254]. *)
Definition getIDnotTaken (identifier0 : Identifier_t) : M Z :=
  getIDnotTaken_from (seqZ NTASK_ID_STARTING (255 - NTASK_ID_STARTING)) identifier0.

(** Base function, [static]. *)
Definition sendNotificationTo (dest : Z) (notif : Notification_t)
    (ticktowait notif_position : Z) : M Z :=
  if dest =? 0 then ret pdFALSE
  else
    emit (Ev_xQueueGenericSend dest notif ticktowait notif_position);;
    on_queue dest (fun q => xQueueGenericSend q notif ticktowait notif_position).

Definition sendNotificationFromIsrTo (dest notif_value : Z) : M Z :=
  let notif := NOTIFICATION_FROM_ISR notif_value in
  do o <- deref dest;
  emit (Ev_xQueueGenericSendFromISR dest notif queueSEND_TO_BACK);;
  on_queue dest (fun q => Done (xQueueGenericSendFromISR q notif queueSEND_TO_BACK)).

Definition sendNotificationToFrontFromIsrTo (dest notif_value : Z) : M Z :=
  let notif := NOTIFICATION_FROM_ISR notif_value in
  do o <- deref dest;
  emit (Ev_xQueueGenericSendFromISR dest notif queueSEND_TO_FRONT);;
  on_queue dest (fun q => Done (xQueueGenericSendFromISR q notif queueSEND_TO_FRONT)).

Definition receiveNotification (this ticktowait : Z) : M Notification_t :=
  emit (Ev_xQueueReceive this ticktowait);;
  do r <- on_queue this (fun q => xQueueReceive q ticktowait);
  match r with
  | Some notif => ret notif
  | None => ret (Notification_of_d0 0)
  end.

(** The constructor, with the storage it is run on. *)
Definition NTask (ntype : Z) (taskName : string)
    (stackSize priority coreId notification_queue_size : Z) : M Z :=
  do this <- new (Task.Task taskName stackSize priority);
  Task.setCore this coreId;;
  modify this (fun o => set_identifier
                 {| type := Z.land ntype 0xff; ID := ID (identifier o) |} o);;
  do i <- getIdentifier this;
  do id <- getIDnotTaken i;
  modify this (fun o => set_identifier
                 {| type := type (identifier o); ID := id |} o);;
  do l <- get_ntask_list;
  set_ntask_list (l ++ [this]);;
  modify this (set_notification_queue (xQueueCreate notification_queue_size));;
  ret this.

(** The [while] of the destructor: the index reached from [i]. *)
Fixpoint dtor_scan (this : Z) (l : list Z) (i : nat) : nat :=
  match l with
  | [] => i
  | p :: l' => if decide (this ≠ p) then dtor_scan this l' (S i) else i
  end.

(** The destructor, with the release of the storage. *)
Definition dtor (this : Z) : M unit :=
  do _ <- deref this;
  do l <- get_ntask_list;
  let i := dtor_scan this l 0 in
  (if (i <? length l)%nat then set_ntask_list (delete i l) else ret tt);;
  release this.

(** The [while] of [getNTaskByIdentifier]. *)
Fixpoint getNTaskByIdentifier_from (l : list Z) (identifier0 : Identifier_t) : M Z :=
  match l with
  | [] =>
      emit (ESP_LOGE NTASK_LOG_TAG "Can't find Ntask corresponding to Type:ID %X:%X"
              [ArgZ (type identifier0); ArgZ (ID identifier0)]);;
      ret 0
  | p :: l' =>
      do o <- deref p;
      if negb (w_id (identifier o) =? w_id identifier0)
      then getNTaskByIdentifier_from l' identifier0
      else ret p
  end.

Definition getNTaskByIdentifier (identifier0 : Identifier_t) : M Z :=
  do l <- get_ntask_list; getNTaskByIdentifier_from l identifier0.

(** The [for] of [getNTaskByType], with the vector filled so far.  The
    parameter is a [char], unsigned on the target: both sides of the
    comparison are promoted to [int] unchanged. *)
Fixpoint getNTaskByType_from (l : list Z) (type0 : Z) (list0 : list Z) : M (list Z) :=
  match l with
  | [] => ret list0
  | p :: l' =>
      do o <- deref p;
      if type (identifier o) =? type0
      then getNTaskByType_from l' type0 (list0 ++ [p])
      else getNTaskByType_from l' type0 list0
  end.

Definition getNTaskByType (type0 : Z) : M (list Z) :=
  do l <- get_ntask_list; getNTaskByType_from l type0 [].

(** The overloads of NTask.hpp that build the notification from the
    sender's identifier. *)
Definition sendNotificationTo_value (this destination notif_value ticktowait : Z) : M Z :=
  do n <- TO_NOTIFICATION this notif_value;
  sendNotificationTo destination n ticktowait queueSEND_TO_BACK.

Definition sendNotificationToFrontTo_value (this destination notif_value ticktowait : Z) : M Z :=
  do n <- TO_NOTIFICATION this notif_value;
  sendNotificationTo destination n ticktowait queueSEND_TO_FRONT.

Definition sendNotificationTo_identifier (this : Z) (identifier0 : Identifier_t)
    (notif_value ticktowait : Z) : M Z :=
  do dest <- getNTaskByIdentifier identifier0;
  do n <- TO_NOTIFICATION this notif_value;
  sendNotificationTo dest n ticktowait queueSEND_TO_BACK.

Definition sendNotificationToFrontTo_identifier (this : Z) (identifier0 : Identifier_t)
    (notif_value ticktowait : Z) : M Z :=
  do dest <- getNTaskByIdentifier identifier0;
  do n <- TO_NOTIFICATION this notif_value;
  sendNotificationTo dest n ticktowait queueSEND_TO_FRONT.

End NTask.

(** ** RTask (RTask.cpp, RTask.hpp) *)

Module RTask.

(** The [size] bytes behind a payload pointer; reading past the area the
    pointer designates is not defined. *)
Definition read_bytes (data : list Z) (size : Z) : M (list Z) :=
  if size <=? Z.of_nat (length data) then ret (take (Z.to_nat size) data)
  else fault.

Definition on_receiving_buff {A} (p : Z) (f : Ringbuf → Wait (A * Ringbuf)) : M A :=
  on_rtask p (fun r =>
    match f (receiving_buff r) with
    | Done (a, rb) => Done (a, {| receiving_buff := rb;
                                  mutex_receiving_buff := mutex_receiving_buff r |})
    | Forever => Forever
    end).

Definition on_mutex_receiving_buff {A} (p : Z) (f : Semaphore → Wait (A * Semaphore)) : M A :=
  on_rtask p (fun r =>
    match f (mutex_receiving_buff r) with
    | Done (a, m) => Done (a, {| receiving_buff := receiving_buff r;
                                 mutex_receiving_buff := m |})
    | Forever => Forever
    end).

(** [receiveData(&size, tickToWait)]: the pointer returned and the value
    of [size] after the call. *)
Definition receiveData (this size tickToWait : Z) : M (Z * Z) :=
  emit (Ev_xRingbufferReceive this tickToWait);;
  do r <- on_receiving_buff this (fun rb => xRingbufferReceive rb tickToWait);
  match r with
  | Some it => ret (item_ptr it, Z.of_nat (length (item_data it)))
  | None => ret (0, size)
  end.

Definition receiveData_nowait (this size : Z) : M (Z * Z) := receiveData this size 0.

(** The bytes of a borrowed item, as read through the pointer. *)
Definition borrowed_bytes (this data : Z) : M (list Z) :=
  do o <- deref this;
  match rtask o with
  | None => fault
  | Some r =>
      match find (fun it => bool_decide (item_ptr it = data)) (rb_borrowed (receiving_buff r)) with
      | Some it => ret (item_data it)
      | None => fault
      end
  end.

Definition returnData (this data : Z) : M unit :=
  emit (Ev_vRingbufferReturnItem this data);;
  do o <- deref this;
  match rtask o with
  | None => fault
  | Some r =>
      match vRingbufferReturnItem (receiving_buff r) data with
      | Some rb => modify this (set_rtask (Some {| receiving_buff := rb;
                      mutex_receiving_buff := mutex_receiving_buff r |}))
      | None => fault
      end
  end.

(** Base function, [static]. *)
Definition sendDataTo (destination : Z) (data : option (list Z)) (size ticktowait : Z)
    (usenotif : bool) (notification : Notification_t) : M Z :=
  match data with
  | None => ret pdFALSE
  | Some bytes =>
      if destination =? 0 then ret pdFALSE
      else
        emit (Ev_xSemaphoreTake destination ticktowait);;
        do taken <- on_mutex_receiving_buff destination
                      (fun m => xSemaphoreTake m ticktowait);
        if (taken : bool) then
          do payload <- read_bytes bytes size;
          emit (Ev_xRingbufferSend destination payload ticktowait);;
          do t <- on_receiving_buff destination
                    (fun rb => xRingbufferSend rb payload ticktowait);
          (if usenotif
           then do _ <- NTask.sendNotificationTo destination notification
                          portMAX_DELAY queueSEND_TO_BACK; ret tt
           else ret tt);;
          emit (Ev_xSemaphoreGive destination);;
          on_mutex_receiving_buff destination
            (fun m => Done (tt, xSemaphoreGive m));;
          ret t
        else
          do name <- Task.getName destination;
          emit (ESP_LOGE RTASK_LOG_TAG
                  "Unable to take RingBuffer Semaphore of RTask %s" [ArgS name]);;
          ret pdFALSE
  end.

(** The overloads of RTask.hpp. *)
Definition sendDataTo_notif (this dest : Z) (data : option (list Z))
    (size ticktowait notif_value : Z) : M Z :=
  do n <- NTask.TO_NOTIFICATION this notif_value;
  sendDataTo dest data size ticktowait true n.

Definition sendDataTo_plain (dest : Z) (data : option (list Z)) (size ticktowait : Z) : M Z :=
  sendDataTo dest data size ticktowait false (Notification_of_d0 0).

(** The constructor. *)
Definition RTask (ntype : Z) (taskName : string)
    (stackSize priority coreId notification_queue_size ringbuffer_size : Z) : M Z :=
  do this <- NTask.NTask ntype taskName stackSize priority coreId notification_queue_size;
  (if 0 <? ringbuffer_size then ret tt else fault);;
  modify this (set_rtask (Some {| receiving_buff := xRingbufferCreate ringbuffer_size;
                                  mutex_receiving_buff := xSemaphoreCreateMutex |}));;
  ret this.

Definition dtor (this : Z) : M unit :=
  modify this (set_rtask None);;
  NTask.dtor this.

End RTask.

(** ** WorkQueue (WorkQueue.cpp, WorkQueue.hpp) *)

Module WorkQueue.

(** Pointers are 32 bits wide on the target: three pointers, a
    [uint16_t] and two bytes of padding. *)
Record WorkItem := {
  work_args : Z;
  work_function : Z;
  returning_task : Z;
  notif_value : Z
}.

Definition sizeof_WorkItem : Z := 16.

Fixpoint le_bytes (n : nat) (x : Z) : list Z :=
  match n with
  | O => []
  | S n' => Z.land x 0xff :: le_bytes n' (Z.shiftr x 8)
  end.

Definition le_value (bs : list Z) : Z :=
  foldr (fun b acc => Z.lor b (Z.shiftl acc 8)) 0 bs.

(** The object representation of a [WorkItem], as [memcpy] moves it. *)
Definition WorkItem_bytes (item : WorkItem) : list Z :=
  le_bytes 4 (work_args item) ++ le_bytes 4 (work_function item)
  ++ le_bytes 4 (returning_task item) ++ le_bytes 2 (notif_value item) ++ [0; 0].

Definition WorkItem_of_bytes (bs : list Z) : WorkItem :=
  {| work_args := le_value (take 4 bs);
     work_function := le_value (take 4 (drop 4 bs));
     returning_task := le_value (take 4 (drop 8 bs));
     notif_value := le_value (take 2 (drop 12 bs)) |}.

(** A [WorkFunction]: from the argument pointer and the value of
    [*ret_size] at the call to the pointer returned (with the bytes
    behind it) and the value of [*ret_size] at the return. *)
Definition WorkFunction : Type := Z → Z → option (list Z) * Z.

Definition WorkQueue (stackSize priority workQueueLength coreID : Z) : M Z :=
  RTask.RTask NTASK_TYPE_NOTIF_WORK_QUEU "workQueue" stackSize priority 0
    workQueueLength ((sizeof_WorkItem + 8) * workQueueLength).

Definition sendWork (this : Z) (item : WorkItem) : M Z :=
  RTask.sendDataTo this (Some (WorkItem_bytes item)) sizeof_WorkItem portMAX_DELAY
    true (Notification_of_d0 NOTIFICATION_WORK_IN_QUEUE).

Section Run.

(** The functions a function pointer can designate. *)
Variable code : Z → option WorkFunction.

Definition call_work_function (fn args size : Z) : M (option (list Z) * Z) :=
  match code fn with
  | Some f => emit (Ev_work_function fn args);; ret (f args size)
  | None => fault
  end.

(** One turn of the [while (true)] of [run]. *)
Definition run_body (this : Z) : M unit :=
  let size := 0 in
  do notif <- NTask.receiveNotification this portMAX_DELAY;
  if value notif =? NOTIFICATION_WORK_IN_QUEUE then
    do '(ret_data, size) <- RTask.receiveData this size portMAX_DELAY;
    if size =? sizeof_WorkItem then
      do bytes <- RTask.borrowed_bytes this ret_data;
      let item := WorkItem_of_bytes bytes in
      RTask.returnData this ret_data;;
      do '(ret_data, size) <- call_work_function (work_function item) (work_args item) size;
      match ret_data with
      | Some result =>
          if 0 <? size then
            do n <- NTask.TO_NOTIFICATION this (notif_value item);
            do _ <- RTask.sendDataTo (returning_task item) ret_data size
                      portMAX_DELAY true n;
            emit (Ev_free result)
          else
            do _ <- NTask.sendNotificationTo_value this (returning_task item)
                      (notif_value item) portMAX_DELAY;
            ret tt
      | None =>
          do _ <- NTask.sendNotificationTo_value this (returning_task item)
                    (notif_value item) portMAX_DELAY;
          ret tt
      end
    else
      do id <- NTask.getID this;
      emit (ESP_LOGE WORKQ_LOG_TAG
              "%X : Invalide size of received WorkItem from %X:%X : %db instead of %db"
              [ArgZ id; ArgZ (type (Identifier notif)); ArgZ (ID (Identifier notif));
               ArgZ size; ArgZ sizeof_WorkItem])
  else
    do id <- NTask.getID this;
    emit (ESP_LOGE WORKQ_LOG_TAG "%X : Invalide notif received from %X:%X"
            [ArgZ id; ArgZ (type (Identifier notif)); ArgZ (ID (Identifier notif))]).

(** The first [n] turns of [run]. *)
Fixpoint run (n : nat) (this : Z) : M unit :=
  match n with
  | O => ret tt
  | S n' => run_body this;; run n' this
  end.

End Run.

End WorkQueue.

(** ** miscellaneous: helpers on integral types (miscellaneous.hpp)

    The templates are taken at an integral [T]; where the width matters
    [T] is [uint32_t], the subtraction wrapping at [2^32]. *)

Definition UINT32_MAX : Z := 0xffffffff.

Module misc.

Definition abs (x : Z) : Z := if x <? 0 then - x else x.

Definition positiv_relu (x : Z) : Z := if x <? 0 then 0 else x.

Definition negativ_relu (x : Z) : Z := if x <? 0 then x else 0.

Definition range (val min max : Z) : Z :=
  if min <? val then (if val <? max then val else max) else min.

Definition isInRange (val min max : Z) : bool :=
  if val <? min then false else (if max <? val then false else true).

Definition isPowerOf2 (value : Z) : bool :=
  negb (value =? 0) && (Z.land value ((value - 1) mod 2 ^ 32) =? 0).

Function log2 (n : Z) {measure Z.to_nat n} : Z :=
  if n <? 2 then 0 else 1 + log2 (n ÷ 2).
Proof.
  intros n Hn. apply Z.ltb_ge in Hn.
  rewrite Z.quot_div_nonneg by lia.
  apply Z2Nat.inj_lt; [apply Z.div_pos; lia|lia|].
  apply Z.div_lt; lia.
Defined.

(** [1 << s] on [int], converted to [T]; a shift by the width of [int] or
    more has no defined result. *)
Definition nextPowerOf2 (v : Z) : option Z :=
  let s := log2 v + Z.b2z (negb (isPowerOf2 v)) in
  if s <? 32 then Some (Z.shiftl 1 s mod 2 ^ 32) else None.

Definition _default_unaryfunction (a : Z) : Z := a.
Definition _default_cmp_less (a b : Z) : bool := a <? b.
Definition _default_cmp_grtr (a b : Z) : bool := b <? a.

(** The array [A] has [N >= 1] elements: [A0] is [A[0]], [A] the others. *)
Definition generalized_cmp_element (A0 : Z) (A : list Z) (cmp : Z → Z → bool)
    (f : Z → Z) : Z :=
  fold_left (fun largest a => let temp := f a in if cmp largest temp then temp else largest)
    A (f A0).

Definition max_element (A0 : Z) (A : list Z) (f : Z → Z) : Z :=
  generalized_cmp_element A0 A _default_cmp_less f.

Definition min_element (A0 : Z) (A : list Z) (f : Z → Z) : Z :=
  generalized_cmp_element A0 A _default_cmp_grtr f.

(** [tick_measure(fnct)]: [ccount] is the cycle count when the first
    [xthal_get_ccount()] is made, [cycles] the cycles [fnct] takes; the
    register read is the count modulo [2^32]. *)
Definition xthal_get_ccount (ccount : Z) : Z := ccount mod 2 ^ 32.

Definition tick_measure (ccount cycles : Z) : Z :=
  let counter_begin := xthal_get_ccount ccount in
  let counter_end := xthal_get_ccount (ccount + cycles) in
  let temp := (counter_end - counter_begin) mod 2 ^ 32 in
  if counter_end <? counter_begin then UINT32_MAX - temp else temp.

End misc.

(** ** FixedPoint<I, E> (fixedpoint_modified.hpp)

    A value is its mantissa [m], an [int32_t]; the template parameters
    are arguments.  A result that is stored in an [int32_t] or an
    [int64_t] is written with its wrap-around. *)

Module FixedPoint.

Definition wrap32 (z : Z) : Z := (z + 2 ^ 31) mod 2 ^ 32 - 2 ^ 31.
Definition wrap64 (z : Z) : Z := (z + 2 ^ 63) mod 2 ^ 64 - 2 ^ 63.

Definition factor (E : Z) : Z := Z.shiftl 1 E.

(** [FixedPoint<I, E>(const FixedPoint<J, F> &d)] *)
Definition of_FixedPoint (E F : Z) (d : Z) : Z :=
  if E =? F then d
  else if F <? E then wrap32 (d * Z.shiftl 1 (E - F))
  else d ÷ Z.shiftl 1 (F - E).

(** [FixedPoint(const U &d)] for an integral [U] *)
Definition of_int (E : Z) (d : Z) : Z := wrap32 (d * factor E).

(** [operator int()] *)
Definition to_int (E : Z) (m : Z) : Z := m ÷ factor E.

(** [operator*=(const FixedPoint<J, F> &x)] *)
Definition mul_assign (I E J F : Z) (m x : Z) : Z :=
  if (I + E) + (J + F) <? 31
  then wrap32 (m * x) ÷ factor F
  else wrap32 (wrap64 (m * x) ÷ factor F).

(** [operator-()] *)
Definition opp (m : Z) : Z := wrap32 (- m).

Definition abs (m : Z) : Z := if m <? 0 then opp m else m.

Definition floor (E : Z) (m : Z) : Z :=
  let r := to_int E m in
  r - Z.b2z (m <? 0) * (1 - Z.b2z (wrap32 (r * factor E) =? m)).

Definition ceil (E : Z) (m : Z) : Z :=
  let r := to_int E m in
  r + Z.b2z (0 <? m) * (1 - Z.b2z (wrap32 (r * factor E) =? m)).

End FixedPoint.

(** ** ultrasound: the measurement state machine (ultrasound.c)

    The timer callback and the echo interrupt handler are functions of
    the driver structure their argument points to (with a null argument
    they return at once) and of the value [esp_timer_get_time()] returns
    in the call; they return the structure and the calls made to the GPIO
    and timer drivers and to the user callback, in order. *)

Module Ultrasound.

Definition VELOCITY_SOUND_MM_PER_MS : Z := 343.
Definition GPIO_INTR_POSEDGE : Z := 1.
Definition GPIO_INTR_NEGEDGE : Z := 2.
Definition ESP_OK : Z := 0.

Inductive Ultrasound_StateMachine_t : Set :=
  | ULTRASOUND_STATE_INIT
  | ULTRASOUND_STATE_WAIT_TRIG_START
  | ULTRASOUND_STATE_WAIT_TRIG_END
  | ULTRASOUND_STATE_WAIT_ECHO_START
  | ULTRASOUND_STATE_WAIT_ECHO_END
  | ULTRASOUND_STATE_MAX.

Record Ultrasound_Measurement_t : Set := {
  timestamp_us : Z;
  distance_mm : Z
}.

Record Ultrasound_struct_t : Set := {
  gpio_trig_pin : Z;
  gpio_echo_pin : Z;
  timer : Z;
  measurement_period_us : Z;
  trig_signal_duration_us : Z;
  time_trig_start : Z;
  time_trig_end : Z;
  time_echo_start : Z;
  time_echo_end : Z;
  error_count : Z;
  last_measure : Ultrasound_Measurement_t;
  state : Ultrasound_StateMachine_t;
  callback : Z;
  user_data : Z
}.

Inductive Call : Set :=
  | gpio_intr_disable (pin : Z)
  | gpio_intr_enable (pin : Z)
  | gpio_set_level (pin level : Z)
  | gpio_set_intr_type (pin intr_type : Z)
  | esp_timer_start_once (timer timeout_us : Z)
  | user_callback (fn user_data : Z) (measure : Ultrasound_Measurement_t).

Definition set_state (s : Ultrasound_StateMachine_t) (h : Ultrasound_struct_t) :
    Ultrasound_struct_t :=
  {| gpio_trig_pin := gpio_trig_pin h; gpio_echo_pin := gpio_echo_pin h; timer := timer h;
     measurement_period_us := measurement_period_us h;
     trig_signal_duration_us := trig_signal_duration_us h;
     time_trig_start := time_trig_start h; time_trig_end := time_trig_end h;
     time_echo_start := time_echo_start h; time_echo_end := time_echo_end h;
     error_count := error_count h; last_measure := last_measure h; state := s;
     callback := callback h; user_data := user_data h |}.

Definition set_time_trig_start (t : Z) (h : Ultrasound_struct_t) : Ultrasound_struct_t :=
  {| gpio_trig_pin := gpio_trig_pin h; gpio_echo_pin := gpio_echo_pin h; timer := timer h;
     measurement_period_us := measurement_period_us h;
     trig_signal_duration_us := trig_signal_duration_us h;
     time_trig_start := t; time_trig_end := time_trig_end h;
     time_echo_start := time_echo_start h; time_echo_end := time_echo_end h;
     error_count := error_count h; last_measure := last_measure h; state := state h;
     callback := callback h; user_data := user_data h |}.

Definition set_time_echo_start (t : Z) (h : Ultrasound_struct_t) : Ultrasound_struct_t :=
  {| gpio_trig_pin := gpio_trig_pin h; gpio_echo_pin := gpio_echo_pin h; timer := timer h;
     measurement_period_us := measurement_period_us h;
     trig_signal_duration_us := trig_signal_duration_us h;
     time_trig_start := time_trig_start h; time_trig_end := time_trig_end h;
     time_echo_start := t; time_echo_end := time_echo_end h;
     error_count := error_count h; last_measure := last_measure h; state := state h;
     callback := callback h; user_data := user_data h |}.

Definition set_time_echo_end (t : Z) (h : Ultrasound_struct_t) : Ultrasound_struct_t :=
  {| gpio_trig_pin := gpio_trig_pin h; gpio_echo_pin := gpio_echo_pin h; timer := timer h;
     measurement_period_us := measurement_period_us h;
     trig_signal_duration_us := trig_signal_duration_us h;
     time_trig_start := time_trig_start h; time_trig_end := time_trig_end h;
     time_echo_start := time_echo_start h; time_echo_end := t;
     error_count := error_count h; last_measure := last_measure h; state := state h;
     callback := callback h; user_data := user_data h |}.

Definition set_error_count (n : Z) (h : Ultrasound_struct_t) : Ultrasound_struct_t :=
  {| gpio_trig_pin := gpio_trig_pin h; gpio_echo_pin := gpio_echo_pin h; timer := timer h;
     measurement_period_us := measurement_period_us h;
     trig_signal_duration_us := trig_signal_duration_us h;
     time_trig_start := time_trig_start h; time_trig_end := time_trig_end h;
     time_echo_start := time_echo_start h; time_echo_end := time_echo_end h;
     error_count := n; last_measure := last_measure h; state := state h;
     callback := callback h; user_data := user_data h |}.

Definition set_last_measure (m : Ultrasound_Measurement_t) (h : Ultrasound_struct_t) :
    Ultrasound_struct_t :=
  {| gpio_trig_pin := gpio_trig_pin h; gpio_echo_pin := gpio_echo_pin h; timer := timer h;
     measurement_period_us := measurement_period_us h;
     trig_signal_duration_us := trig_signal_duration_us h;
     time_trig_start := time_trig_start h; time_trig_end := time_trig_end h;
     time_echo_start := time_echo_start h; time_echo_end := time_echo_end h;
     error_count := error_count h; last_measure := m; state := state h;
     callback := callback h; user_data := user_data h |}.

Definition Ultrasound_Start (h : Ultrasound_struct_t) : Z * Ultrasound_struct_t * list Call :=
  (ESP_OK, set_state ULTRASOUND_STATE_WAIT_TRIG_START h, [esp_timer_start_once (timer h) 50]).

Definition Ultrasound_GetDistance (h : Ultrasound_struct_t) : Ultrasound_Measurement_t :=
  last_measure h.

(** The calls the job still has to make from a state: those of one case,
    after the restart when the state is one of the two echo states. *)
Definition restarts (s : Ultrasound_StateMachine_t) : nat :=
  match s with
  | ULTRASOUND_STATE_WAIT_ECHO_START | ULTRASOUND_STATE_WAIT_ECHO_END => 1
  | _ => 0
  end.

(** The [switch] of the job on the state [s] just read from [*h]. *)
Function ultrasound_periodic_job_switch (now : Z) (s : Ultrasound_StateMachine_t)
    (h : Ultrasound_struct_t) {measure restarts s} : Ultrasound_struct_t * list Call :=
  match s with
  | ULTRASOUND_STATE_WAIT_TRIG_START =>
      (set_state ULTRASOUND_STATE_WAIT_TRIG_END (set_time_trig_start now h),
       [gpio_intr_disable (gpio_echo_pin h);
        gpio_set_level (gpio_trig_pin h) 1;
        esp_timer_start_once (timer h) (trig_signal_duration_us h)])
  | ULTRASOUND_STATE_WAIT_TRIG_END =>
      (set_state ULTRASOUND_STATE_WAIT_ECHO_START h,
       [gpio_set_level (gpio_trig_pin h) 0;
        esp_timer_start_once (timer h)
          ((measurement_period_us h - trig_signal_duration_us h) mod 2 ^ 64);
        gpio_set_intr_type (gpio_echo_pin h) GPIO_INTR_POSEDGE;
        gpio_intr_enable (gpio_echo_pin h)])
  | ULTRASOUND_STATE_WAIT_ECHO_START =>
      ultrasound_periodic_job_switch now
        (state (set_error_count ((error_count h + 1) mod 2 ^ 8)
                  (set_state ULTRASOUND_STATE_WAIT_TRIG_START h)))
        (set_error_count ((error_count h + 1) mod 2 ^ 8)
           (set_state ULTRASOUND_STATE_WAIT_TRIG_START h))
  | ULTRASOUND_STATE_WAIT_ECHO_END =>
      ultrasound_periodic_job_switch now
        (state (set_error_count ((error_count h + 1) mod 2 ^ 8)
                  (set_state ULTRASOUND_STATE_WAIT_TRIG_START h)))
        (set_error_count ((error_count h + 1) mod 2 ^ 8)
           (set_state ULTRASOUND_STATE_WAIT_TRIG_START h))
  | ULTRASOUND_STATE_INIT => (h, [])
  | ULTRASOUND_STATE_MAX => (h, [])
  end.
Proof.
  - intros. cbn. lia.
  - intros. cbn. lia.
Defined.

Definition ultrasound_periodic_job (now : Z) (h : Ultrasound_struct_t) :
    Ultrasound_struct_t * list Call :=
  ultrasound_periodic_job_switch now (state h) h.

Definition ultrasound_gpio_isr_echo (now : Z) (h : Ultrasound_struct_t) :
    Ultrasound_struct_t * list Call :=
  match state h with
  | ULTRASOUND_STATE_WAIT_ECHO_START =>
      (set_state ULTRASOUND_STATE_WAIT_ECHO_END (set_time_echo_start now h),
       [gpio_set_intr_type (gpio_echo_pin h) GPIO_INTR_NEGEDGE])
  | ULTRASOUND_STATE_WAIT_ECHO_END =>
      let h1 := set_time_echo_end now h in
      let duration := FixedPoint.wrap64 (time_echo_end h1 - time_echo_start h1) in
      let measure :=
        {| timestamp_us := time_trig_start h1;
           distance_mm :=
             FixedPoint.wrap32
               (FixedPoint.wrap64 (duration * VELOCITY_SOUND_MM_PER_MS) ÷ (1000 * 2)) |} in
      let h2 := set_last_measure measure h1 in
      (set_state ULTRASOUND_STATE_WAIT_TRIG_START h2,
       gpio_intr_disable (gpio_echo_pin h2)
       :: (if callback h2 =? 0 then [] else [user_callback (callback h2) (user_data h2) measure]))
  | _ => (h, [])
  end.

End Ultrasound.

(** ** Well-formed stores and sequences of constructions *)

(** Both fields of an identifier are 8 bits wide. *)
Definition in_range (i : Identifier_t) : Prop :=
  0 ≤ type i < 256 ∧ 0 ≤ ID i < 256.

(** An entry of the list [l] designates an object whose key is that of [i]. *)
Definition taken (h : gmap Z TaskObject) (l : list Z) (i : Identifier_t) : Prop :=
  ∃ p o, p ∈ l ∧ h !! p = Some o ∧ w_id i = w_id (identifier o).

(** What construction and destruction maintain: storage is handed out
    upward from address 1, the entries of [ntask_list] are live and
    pairwise distinct, their identifiers fit their fields, and an
    identifier other than the exhaustion value 255 designates one entry. *)
Record wf (w : World) : Prop := {
  wf_next_pos : 0 < next_addr w;
  wf_fresh : ∀ p, is_Some (heap w !! p) → 0 < p < next_addr w;
  wf_live : ∀ p, p ∈ ntask_list w → is_Some (heap w !! p);
  wf_nodup : NoDup (ntask_list w);
  wf_range : ∀ p o, p ∈ ntask_list w → heap w !! p = Some o → in_range (identifier o);
  wf_unique : ∀ p q o1 o2,
      p ∈ ntask_list w → q ∈ ntask_list w →
      heap w !! p = Some o1 → heap w !! q = Some o2 →
      identifier o1 = identifier o2 → ID (identifier o1) ≠ 255 → p = q
}.

(** The arguments of one [NTask] construction besides the type. *)
Record CtorArgs := {
  a_taskName : string;
  a_stackSize : Z;
  a_priority : Z;
  a_coreId : Z;
  a_notification_queue_size : Z
}.

Definition default_args : CtorArgs :=
  {| a_taskName := "Task"; a_stackSize := 10000; a_priority := 2; a_coreId := 0;
     a_notification_queue_size := NTASK_QUEUE_LENGTH |}.

Definition construct (ntype : Z) (a : CtorArgs) : M Z :=
  NTask.NTask ntype (a_taskName a) (a_stackSize a) (a_priority a) (a_coreId a)
    (a_notification_queue_size a).

(** Constructions of the same type in a row, no destruction in between. *)
Fixpoint construct_all (ntype : Z) (args : list CtorArgs) : M (list Z) :=
  match args with
  | [] => ret []
  | a :: rest =>
      do p <- construct ntype a;
      do ps <- construct_all ntype rest;
      ret (p :: ps)
  end.

(** The id an object carries, 0 for a pointer that designates none. *)
Definition id_of (w : World) (p : Z) : Z :=
  match heap w !! p with Some o => ID (identifier o) | None => 0 end.

(** The id [id] was handed out in store [w] for type [ntype], leading to
    [w']: it is the first of 1 .. 254 no entry of that type carries, or it
    is 255 when each of them is carried, and then an error is logged. *)
Definition assigned (w : World) (ntype id : Z) (w' : World) : Prop :=
  let key c := {| type := Z.land ntype 0xff; ID := c |} in
  (1 ≤ id < 255
   ∧ ¬ taken (heap w) (ntask_list w) (key id)
   ∧ (∀ c, 1 ≤ c < id → taken (heap w) (ntask_list w) (key c))
   ∧ trace w' = trace w)
  ∨ (id = 255
     ∧ (∀ c, 1 ≤ c < 255 → taken (heap w) (ntask_list w) (key c))
     ∧ trace w' = trace w ++
         [ESP_LOGE NTASK_LOG_TAG
            "Can't assign other peripheral ID because all ID are taken" []]).

(** The state of the lock of the ring buffer of [*p]. *)
Definition lock_of (w : World) (p : Z) : option Semaphore :=
  o ← heap w !! p; r ← rtask o; Some (mutex_receiving_buff r).

(** The events on the lock of the ring buffer of [*dest]. *)
Definition lock_event (dest : Z) (e : Event) : bool :=
  match e with
  | Ev_xSemaphoreTake d _ => bool_decide (d = dest)
  | Ev_xSemaphoreGive d => bool_decide (d = dest)
  | _ => false
  end.

(** The objects the completed constructors leave. *)
Definition NTask_object (ntype : Z) (taskName : string)
    (stackSize priority coreId notification_queue_size id : Z) : TaskObject :=
  {| m_taskName := taskName; m_stackSize := stackSize; m_priority := priority;
     m_coreId := coreId; m_running := false;
     identifier := {| type := Z.land ntype 0xff; ID := id |};
     notification_queue := xQueueCreate notification_queue_size;
     rtask := None |}.

Definition RTask_object (ntype : Z) (taskName : string)
    (stackSize priority coreId notification_queue_size ringbuffer_size id : Z) : TaskObject :=
  set_rtask (Some {| receiving_buff := xRingbufferCreate ringbuffer_size;
                     mutex_receiving_buff := xSemaphoreCreateMutex |})
    (NTask_object ntype taskName stackSize priority coreId notification_queue_size id).

(** The store after the error of [getIDnotTaken] is logged. *)
Definition log_exhausted (w : World) : World :=
  {| heap := heap w; ntask_list := ntask_list w; next_addr := next_addr w;
     trace := trace w ++
       [ESP_LOGE NTASK_LOG_TAG
          "Can't assign other peripheral ID because all ID are taken" []] |}.

(** The store after the error of [getNTaskByIdentifier] is logged. *)
Definition log_not_found (identifier0 : Identifier_t) (w : World) : World :=
  {| heap := heap w; ntask_list := ntask_list w; next_addr := next_addr w;
     trace := trace w ++
       [ESP_LOGE NTASK_LOG_TAG "Can't find Ntask corresponding to Type:ID %X:%X"
          [ArgZ (type identifier0); ArgZ (ID identifier0)]] |}.


(** The values of [values] sent one after the other by [*this] to the back
    of the mailbox of [*dest]; the results of the calls. *)
Fixpoint send_each (this dest : Z) (values : list Z) (ticktowait : Z) : M (list Z) :=
  match values with
  | [] => ret []
  | v :: rest =>
      do r <- NTask.sendNotificationTo_value this dest v ticktowait;
      do rs <- send_each this dest rest ticktowait;
      ret (r :: rs)
  end.

(** [n] notifications received one after the other by [*this]. *)
Fixpoint receive_each (this : Z) (n : nat) (ticktowait : Z) : M (list Notification_t) :=
  match n with
  | O => ret []
  | S n' =>
      do x <- NTask.receiveNotification this ticktowait;
      do xs <- receive_each this n' ticktowait;
      ret (x :: xs)
  end.

(** Whether the object a pointer designates has a given type. *)
Definition has_type (w : World) (type0 : Z) (p : Z) : bool :=
  match heap w !! p with
  | Some o => type (identifier o) =? type0
  | None => false
  end.

(** The object [*dest] after a push that leaves the ring buffer [rb] and
    a notification, the lock given back. *)
Definition delivered (o : TaskObject) (rb : Ringbuf) (notification : Notification_t) :
    TaskObject :=
  set_notification_queue
    {| q_length := q_length (notification_queue o);
       q_items := q_items (notification_queue o) ++ [notification] |}
    (set_rtask (Some {| receiving_buff := rb; mutex_receiving_buff := false |}) o).

(** The fields of a descriptor fit their types: 32-bit pointers and a
    16-bit value. *)
Definition WorkItem_in_range (item : WorkQueue.WorkItem) : Prop :=
  0 ≤ WorkQueue.work_args item < 2 ^ 32
  ∧ 0 ≤ WorkQueue.work_function item < 2 ^ 32
  ∧ 0 ≤ WorkQueue.returning_task item < 2 ^ 32
  ∧ 0 ≤ WorkQueue.notif_value item < 2 ^ 16.

(** ** Scenarios *)

Definition result_of {A} (o : Outcome A) : option A :=
  match o with Ret a _ => Some a | _ => None end.

Definition world_of {A} (o : Outcome A) : World :=
  match o with Ret _ w => w | Block w => w | Fault => init_world end.

(** The mailbox and the ring buffer of [*p]. *)
Definition mailbox_of (w : World) (p : Z) : list Notification_t :=
  match heap w !! p with Some o => q_items (notification_queue o) | None => [] end.

Definition ringbuf_of (w : World) (p : Z) : option Ringbuf :=
  o ← heap w !! p; r ← rtask o; Some (receiving_buff r).

Definition is_work_function (e : Event) : bool :=
  match e with Ev_work_function _ _ => true | _ => false end.

Definition is_return_item (e : Event) : bool :=
  match e with Ev_vRingbufferReturnItem _ _ => true | _ => false end.

(** After 256 constructions of type 0 in a row the last object is
    looked up by its identifier, destroyed, and looked up again.  The
    result: the ids the 256 objects carry, the last object, what the two
    lookups return. *)
Definition exhausted_lookup : M (list Z * Z * Z * Z) :=
  do ps <- construct_all 0 (replicate 256 default_args);
  do ids <- (fun w => Ret (id_of w <$> ps) w);
  let this := default 0 (last ps) in
  do i <- NTask.getIdentifier this;
  do found <- NTask.getNTaskByIdentifier i;
  NTask.dtor this;;
  do found_after <- NTask.getNTaskByIdentifier i;
  ret (ids, this, found, found_after).

(** Two tasks of type 3. *)
Definition two_tasks : Outcome (list Z) :=
  construct_all 3 [default_args; default_args] init_world.

(** A receiver with the default mailbox and ring buffer, and a sender. *)
Definition sender_and_receiver : M (Z * Z) :=
  do dest <- RTask.RTask 3 "dest" 10000 2 0 NTASK_QUEUE_LENGTH 128;
  do src <- RTask.RTask 3 "src" 10000 2 0 NTASK_QUEUE_LENGTH 128;
  ret (src, dest).

(** The receiver while another sender holds the lock of its ring buffer. *)
Definition lock_held : M (Z * Z) :=
  do '(src, dest) <- sender_and_receiver;
  do _ <- RTask.on_mutex_receiving_buff dest (fun m => xSemaphoreTake m 0);
  ret (src, dest).

(** The receiver object of the two scenarios above. *)
Definition receiver_part (held : bool) : RTaskPart :=
  {| receiving_buff := xRingbufferCreate 128; mutex_receiving_buff := held |}.

Definition receiver_object (held : bool) : TaskObject :=
  set_rtask (Some (receiver_part held))
    (NTask_object 3 "dest" 10000 2 0 NTASK_QUEUE_LENGTH 1).

(** A payload larger than the receiver's ring buffer is sent with a
    notification; the receiver takes the notification, then polls for the
    payload. *)
Definition oversized_send : M (Z * Notification_t * (Z * Z)) :=
  do '(src, dest) <- sender_and_receiver;
  do t <- RTask.sendDataTo_notif src dest (Some (replicate 200 0xab)) 200 10 5;
  do n <- NTask.receiveNotification dest portMAX_DELAY;
  do r <- RTask.receiveData_nowait dest 0;
  ret (t, n, r).

(** Three payloads of 40 bytes are sent with a notification each while
    the receiver does not run; the receiver then serves the three
    notifications. *)
Definition three_sends : M (Z * (Z * Z)) :=
  do '(src, dest) <- sender_and_receiver;
  do _ <- RTask.sendDataTo_notif src dest (Some (replicate 40 0xab)) 40 10 5;
  do _ <- RTask.sendDataTo_notif src dest (Some (replicate 40 0xab)) 40 10 5;
  do t <- RTask.sendDataTo_notif src dest (Some (replicate 40 0xab)) 40 10 5;
  do _ <- NTask.receiveNotification dest portMAX_DELAY;
  do '(d1, _) <- RTask.receiveData_nowait dest 0;
  RTask.returnData dest d1;;
  do _ <- NTask.receiveNotification dest portMAX_DELAY;
  do '(d2, _) <- RTask.receiveData_nowait dest 0;
  RTask.returnData dest d2;;
  do _ <- NTask.receiveNotification dest portMAX_DELAY;
  do r <- RTask.receiveData_nowait dest 0;
  ret (t, r).

(** A job function that doubles its argument into a 4-byte result, at
    address [0x400d1000]. *)
Definition double_code (fn : Z) : option WorkQueue.WorkFunction :=
  if fn =? 0x400d1000
  then Some (fun args _ => (Some (WorkQueue.le_bytes 4 (args * 2)), 4))
  else None.

Definition double_job (reply : Z) : WorkQueue.WorkItem :=
  {| WorkQueue.work_args := 21; WorkQueue.work_function := 0x400d1000;
     WorkQueue.returning_task := reply; WorkQueue.notif_value := 7 |}.

(** A reply target and a work queue; a job is submitted through
    [sendWork] and the loop of the queue takes one turn. *)
Definition submitted_work : M (Z * Z) :=
  do reply <- RTask.RTask 3 "reply" 10000 2 0 NTASK_QUEUE_LENGTH 128;
  do wq <- WorkQueue.WorkQueue 5000 3 3 0;
  do _ <- WorkQueue.sendWork wq (double_job reply);
  WorkQueue.run_body double_code wq;;
  ret (reply, wq).

(** The same job, announced by a notification whose value field is
    [NOTIFICATION_WORK_IN_QUEUE]. *)
Definition announced_work : M (Z * Z) :=
  do reply <- RTask.RTask 3 "reply" 10000 2 0 NTASK_QUEUE_LENGTH 128;
  do wq <- WorkQueue.WorkQueue 5000 3 3 0;
  do _ <- RTask.sendDataTo_notif reply wq
            (Some (WorkQueue.WorkItem_bytes (double_job reply)))
            WorkQueue.sizeof_WorkItem 10 NOTIFICATION_WORK_IN_QUEUE;
  WorkQueue.run_body double_code wq;;
  ret (reply, wq).

(** Four bytes are sent to a work queue under the value
    [NOTIFICATION_WORK_IN_QUEUE] and the loop takes one turn. *)
Definition wrong_size_work : M (Z * Z) :=
  do src <- RTask.RTask 3 "src" 10000 2 0 NTASK_QUEUE_LENGTH 128;
  do wq <- WorkQueue.WorkQueue 5000 3 3 0;
  do _ <- RTask.sendDataTo_notif src wq (Some [1; 2; 3; 4]) 4 10
            NOTIFICATION_WORK_IN_QUEUE;
  WorkQueue.run_body double_code wq;;
  ret (src, wq).


(** Two tasks of type 3; two notifications of the first wait in the
    mailbox of the second. *)
Definition two_waiting : Outcome Z :=
  (do _ <- NTask.sendNotificationTo_value 1 2 5 0;
   NTask.sendNotificationTo_value 1 2 6 0) (world_of two_tasks).

Definition waiting_object : TaskObject :=
  set_notification_queue
    {| q_length := NTASK_QUEUE_LENGTH;
       q_items := [{| Identifier := {| type := 3; ID := 1 |}; value := 5 |};
                   {| Identifier := {| type := 3; ID := 1 |}; value := 6 |}] |}
    (NTask_object 3 "Task" 10000 2 0 NTASK_QUEUE_LENGTH 2).

(** A task whose mailbox has length 2, after one and after two
    notifications sent from an interrupt handler. *)
Definition short_mailbox_one : Outcome Z :=
  (do p <- NTask.NTask 3 "Task" 10000 2 0 2;
   do _ <- NTask.sendNotificationFromIsrTo p 1;
   ret p) init_world.

Definition short_mailbox_full : Outcome Z :=
  (do p <- NTask.NTask 3 "Task" 10000 2 0 2;
   do _ <- NTask.sendNotificationFromIsrTo p 1;
   do _ <- NTask.sendNotificationFromIsrTo p 2;
   ret p) init_world.

Definition short_mailbox_object (values : list Z) : TaskObject :=
  set_notification_queue
    {| q_length := 2; q_items := NOTIFICATION_FROM_ISR <$> values |}
    (NTask_object 3 "Task" 10000 2 0 2 1).

(** A job function that returns no data, and a job that names it. *)
Definition silent_code (fn : Z) : option WorkQueue.WorkFunction :=
  if fn =? 0x400d2000 then Some (fun _ size => (None, size)) else None.

Definition silent_job (reply : Z) : WorkQueue.WorkItem :=
  {| WorkQueue.work_args := 0; WorkQueue.work_function := 0x400d2000;
     WorkQueue.returning_task := reply; WorkQueue.notif_value := 9 |}.

(** A reply target and a work queue that holds one announced job, before
    the loop of the queue takes a turn. *)
Definition queued_work (job : Z → WorkQueue.WorkItem) : M (Z * Z) :=
  do reply <- RTask.RTask 3 "reply" 10000 2 0 NTASK_QUEUE_LENGTH 128;
  do wq <- WorkQueue.WorkQueue 5000 3 3 0;
  do _ <- RTask.sendDataTo_notif reply wq (Some (WorkQueue.WorkItem_bytes (job reply)))
            WorkQueue.sizeof_WorkItem 10 NOTIFICATION_WORK_IN_QUEUE;
  ret (reply, wq).

(** A sensor as [Ultrasound_Init] leaves it, with a period of 60 ms and a
    trigger pulse of 50 us. *)
Definition sample_sensor : Ultrasound.Ultrasound_struct_t :=
  {| Ultrasound.gpio_trig_pin := 5; Ultrasound.gpio_echo_pin := 18; Ultrasound.timer := 1;
     Ultrasound.measurement_period_us := 60 * 1000;
     Ultrasound.trig_signal_duration_us := 50;
     Ultrasound.time_trig_start := 0; Ultrasound.time_trig_end := 0;
     Ultrasound.time_echo_start := 0; Ultrasound.time_echo_end := 0;
     Ultrasound.error_count := 0;
     Ultrasound.last_measure :=
       {| Ultrasound.timestamp_us := 1000; Ultrasound.distance_mm := 0x7fffffff |};
     Ultrasound.state := Ultrasound.ULTRASOUND_STATE_INIT;
     Ultrasound.callback := 0x400d3000; Ultrasound.user_data := 0 |}.


(** * Properties *)

(** ** Words and fields *)

Lemma land_255_small (x : Z) : 0 ≤ x < 256 → Z.land x 0xff = x.
Proof.
  intros Hx. change 0xff with (Z.ones 8). rewrite Z.land_ones by lia.
  apply Z.mod_small. change (2 ^ 8) with 256. lia.
Qed.

Lemma land_255_range (x : Z) : 0 ≤ Z.land x 0xff < 256.
Proof.
  change 0xff with (Z.ones 8). rewrite Z.land_ones by lia.
  change (2 ^ 8) with 256. apply Z.mod_pos_bound. lia.
Qed.

Lemma Identifier_of_w_id_w_id (i : Identifier_t) :
  in_range i → Identifier_of_w_id (w_id i) = i.
Proof.
  destruct i as [t c]. unfold in_range, Identifier_of_w_id, w_id. cbn [type ID].
  intros [Ht Hc]. rewrite (land_255_small t), (land_255_small c) by lia. f_equal.
  - rewrite Z.land_lor_distr_l, land_255_small by lia.
    change 0xff with (Z.ones 8). rewrite Z.land_ones by lia.
    rewrite Z.shiftl_mul_pow2 by lia. rewrite Z.mod_mul by lia.
    apply Z.lor_0_r.
  - rewrite Z.shiftr_lor, Z.shiftr_shiftl_l by lia.
    rewrite Z.shiftr_div_pow2 by lia. change (2 ^ 8) with 256.
    rewrite Z.div_small by lia. simpl. apply land_255_small. lia.
Qed.

Lemma w_id_inj (i j : Identifier_t) :
  in_range i → in_range j → w_id i = w_id j → i = j.
Proof.
  intros Hi Hj Heq.
  rewrite <- (Identifier_of_w_id_w_id i Hi), <- (Identifier_of_w_id_w_id j Hj).
  by rewrite Heq.
Qed.

(** The raw word [NOTIFICATION_WORK_IN_QUEUE] read back through the fields. *)
Lemma work_in_queue_word_fields :
  Notification_of_d0 NOTIFICATION_WORK_IN_QUEUE
  = {| Identifier := {| type := 1; ID := 0 |}; value := 0 |}.
Proof. reflexivity. Qed.

Lemma Zeqb_ne (a b : Z) : a ≠ b → (a =? b) = false.
Proof. intros. by apply Z.eqb_neq. Qed.

(** ** Stepping through the store *)

Lemma set_rtask_same (o : TaskObject) (r : RTaskPart) :
  rtask o = Some r → set_rtask (Some r) o = o.
Proof. destruct o; simpl; intros ->; reflexivity. Qed.

Lemma RTaskPart_eta (r : RTaskPart) :
  {| receiving_buff := receiving_buff r;
     mutex_receiving_buff := mutex_receiving_buff r |} = r.
Proof. by destruct r. Qed.

Lemma Queue_eta (q : Queue) :
  {| q_length := q_length q; q_items := q_items q |} = q.
Proof. by destruct q. Qed.

Lemma set_notification_queue_same (o : TaskObject) :
  set_notification_queue (notification_queue o) o = o.
Proof. by destruct o. Qed.

(** Unfolds the monad and rewrites with the facts at hand about the store. *)
Ltac step :=
  unfold bind, ret, emit, deref, modify, block, fault, get_ntask_list, set_ntask_list,
    new, release;
  repeat first
    [ progress cbn [heap ntask_list next_addr trace
                    rtask notification_queue identifier set_rtask set_notification_queue
                    set_identifier set_coreId
                    receiving_buff mutex_receiving_buff negb fst snd]
    | rewrite lookup_insert_eq
    | match goal with
      | H : ?x = ?v |- context [?x] =>
          lazymatch v with
          | true => idtac | false => idtac | Some _ => idtac | None => idtac
          | Done _ => idtac | Forever => idtac | [] => idtac
          end;
          rewrite H
      end ].

(** ** The directory *)

Lemma isIDTaken_from_spec (w : World) (l : list Z) (i : Identifier_t) :
  (∀ p, p ∈ l → is_Some (heap w !! p)) →
  ∃ b, NTask.isIDTaken_from l i w = Ret b w ∧ (b = true ↔ taken (heap w) l i).
Proof.
  induction l as [|p l IH]; intros Hlive.
  - exists false. split; [done|]. split; [done|].
    intros (p & o & Hp & _). by apply elem_of_nil in Hp.
  - destruct (Hlive p) as [o Ho]; [by left|].
    destruct IH as (b & Hb & Hspec). { intros q Hq. apply Hlive. by right. }
    cbn [NTask.isIDTaken_from]. step.
    destruct (w_id i =? w_id (identifier o)) eqn:Heq.
    + exists true. split; [done|]. split; [|done]. intros _.
      exists p, o. split; [by left|]. split; [done|]. by apply Z.eqb_eq.
    + exists b. split; [done|]. rewrite Hspec. split.
      * intros (q & o' & Hq & Ho' & Hk). exists q, o'. split; [by right|done].
      * intros (q & o' & Hq & Ho' & Hk). apply elem_of_cons in Hq as [->|Hq].
        -- rewrite Ho in Ho'. injection Ho' as <-. apply Z.eqb_neq in Heq. done.
        -- by exists q, o'.
Qed.

Lemma getIDnotTaken_from_spec (w : World) (cands : list Z) (i : Identifier_t) :
  (∀ p, p ∈ ntask_list w → is_Some (heap w !! p)) →
  let key c := {| type := type i; ID := c |} in
  (∃ pre c post, cands = pre ++ c :: post
     ∧ (∀ c', c' ∈ pre → taken (heap w) (ntask_list w) (key c'))
     ∧ ¬ taken (heap w) (ntask_list w) (key c)
     ∧ NTask.getIDnotTaken_from cands i w = Ret c w)
  ∨ ((∀ c', c' ∈ cands → taken (heap w) (ntask_list w) (key c'))
     ∧ NTask.getIDnotTaken_from cands i w = Ret 255 (log_exhausted w)).
Proof.
  intros Hlive key. induction cands as [|c cands IH].
  - right. split; [|done]. intros c' Hc'. by apply elem_of_nil in Hc'.
  - cbn [NTask.getIDnotTaken_from]. unfold NTask.isIDTaken. step.
    destruct (isIDTaken_from_spec w (ntask_list w) (key c) Hlive) as (b & Hb & Hspec).
    fold (key c). rewrite Hb. destruct b; cbn [negb].
    + destruct IH as [(pre & c0 & post & -> & Hpre & Hc0 & Hrun)|[Hall Hrun]].
      * left. exists (c :: pre), c0, post. split; [done|]. split; [|done].
        intros c' Hc'. apply elem_of_cons in Hc' as [->|Hc']; [by apply Hspec|by apply Hpre].
      * right. split; [|done].
        intros c' Hc'. apply elem_of_cons in Hc' as [->|Hc']; [by apply Hspec|by apply Hall].
    + left. exists [], c, cands. split; [done|]. split.
      { intros c' Hc'. by apply elem_of_nil in Hc'. }
      split; [|done]. intros Ht. apply Hspec in Ht. done.
Qed.

Lemma seqZ_split (m n : Z) (pre : list Z) (c : Z) (post : list Z) :
  seqZ m n = pre ++ c :: post →
  c = m + Z.of_nat (length pre) ∧ c < m + n ∧ ∀ c', m ≤ c' < c → c' ∈ pre.
Proof.
  intros Heq.
  assert (seqZ m n !! length pre = Some c) as Hc.
  { rewrite Heq. by apply list_lookup_middle. }
  apply lookup_seqZ in Hc as [-> Hlt]. split; [done|]. split; [lia|].
  intros c' Hc'.
  assert (seqZ m n !! Z.to_nat (c' - m) = Some c') as Hk.
  { rewrite lookup_seqZ_lt by lia. f_equal. lia. }
  rewrite Heq, lookup_app_l in Hk by lia.
  by eapply list_elem_of_lookup_2.
Qed.

Lemma getIDnotTaken_spec (w : World) (i : Identifier_t) :
  (∀ p, p ∈ ntask_list w → is_Some (heap w !! p)) →
  let key c := {| type := type i; ID := c |} in
  (∃ id, 1 ≤ id < 255
     ∧ ¬ taken (heap w) (ntask_list w) (key id)
     ∧ (∀ c, 1 ≤ c < id → taken (heap w) (ntask_list w) (key c))
     ∧ NTask.getIDnotTaken i w = Ret id w)
  ∨ ((∀ c, 1 ≤ c < 255 → taken (heap w) (ntask_list w) (key c))
     ∧ NTask.getIDnotTaken i w = Ret 255 (log_exhausted w)).
Proof.
  intros Hlive key. unfold NTask.getIDnotTaken.
  change (255 - NTASK_ID_STARTING) with 254. change NTASK_ID_STARTING with 1.
  destruct (getIDnotTaken_from_spec w (seqZ 1 254) i Hlive)
    as [(pre & c & post & Heq & Hpre & Hc & Hrun)|[Hall Hrun]].
  - left. exists c. apply seqZ_split in Heq as (Hcv & Hlt & Hbelow).
    split; [lia|]. split; [done|]. split; [|done].
    intros c' Hc'. apply Hpre, Hbelow. lia.
  - right. split; [|done]. intros c Hc. apply Hall, elem_of_seqZ. lia.
Qed.

Lemma taken_ext (h h' : gmap Z TaskObject) (l : list Z) (i : Identifier_t) :
  (∀ p, p ∈ l → h !! p = h' !! p) → taken h l i ↔ taken h' l i.
Proof.
  intros Hext. split; intros (p & o & Hp & Ho & Hk); exists p, o;
    (split; [done|]); (split; [|done]).
  - by rewrite <- Hext.
  - by rewrite Hext.
Qed.

Lemma wf_next_free (w : World) : wf w → heap w !! next_addr w = None.
Proof.
  intros Hwf. destruct (heap w !! next_addr w) eqn:Hnext; [|done].
  destruct (wf_fresh w Hwf (next_addr w)) as [_ Hlt]; [by eexists|lia].
Qed.

Lemma wf_entry_below (w : World) (p : Z) :
  wf w → p ∈ ntask_list w → 0 < p < next_addr w.
Proof. intros Hwf Hp. by apply (wf_fresh w Hwf), (wf_live w Hwf). Qed.

Lemma NTask_spec (w : World) (ntype : Z) (taskName : string)
    (stackSize priority coreId notification_queue_size : Z) :
  wf w →
  ∃ id w',
    NTask.NTask ntype taskName stackSize priority coreId notification_queue_size w
      = Ret (next_addr w) w'
    ∧ heap w' = <[next_addr w := NTask_object ntype taskName stackSize priority coreId
                                   notification_queue_size id]> (heap w)
    ∧ ntask_list w' = ntask_list w ++ [next_addr w]
    ∧ next_addr w' = next_addr w + 1
    ∧ assigned w ntype id w'.
Proof.
  intros Hwf.
  unfold NTask.NTask, Task.setCore, NTask.getIdentifier, Task.Task. step.
  rewrite !insert_insert_eq.
  match goal with
  | |- context [NTask.getIDnotTaken ?i ?w3] =>
      set (w3' := w3); set (i' := i);
      assert (∀ p, p ∈ ntask_list w3' → heap w3' !! p = heap w !! p) as Hsame
  end.
  { intros p Hp. cbn [heap w3']. apply lookup_insert_ne.
    pose proof (wf_entry_below w p Hwf Hp). lia. }
  assert (∀ p, p ∈ ntask_list w3' → is_Some (heap w3' !! p)) as Hlive3.
  { intros p Hp. rewrite Hsame by done. by apply (wf_live w Hwf). }
  destruct (getIDnotTaken_spec w3' i' Hlive3)
    as [(id & Hid & Hfree & Hbelow & Hrun)|[Hall Hrun]]; rewrite Hrun.
  - exists id. eexists. subst w3' i'. step. rewrite !insert_insert_eq.
    split; [reflexivity|]. cbn [heap ntask_list next_addr trace].
    split; [reflexivity|]. split; [reflexivity|]. split; [reflexivity|].
    left. split; [done|]. split.
    + intros Ht. apply Hfree. by apply (taken_ext _ _ _ _ Hsame).
    + split; [|done]. intros c Hc. apply (taken_ext _ _ _ _ Hsame). by apply Hbelow.
  - exists 255. eexists. subst w3' i'. unfold log_exhausted. step. rewrite !insert_insert_eq.
    split; [reflexivity|]. cbn [heap ntask_list next_addr trace].
    split; [reflexivity|]. split; [reflexivity|]. split; [reflexivity|].
    right. split; [done|]. split; [|done].
    intros c Hc. apply (taken_ext _ _ _ _ Hsame). by apply Hall.
Qed.

(** ** Well-formedness is kept *)

Lemma wf_init_world : wf init_world.
Proof.
  split; cbn [init_world heap ntask_list next_addr].
  - lia.
  - intros p [o Ho]. by rewrite lookup_empty in Ho.
  - intros p Hp. by apply elem_of_nil in Hp.
  - constructor.
  - intros p o Hp. by apply elem_of_nil in Hp.
  - intros p q o1 o2 Hp. by apply elem_of_nil in Hp.
Qed.

(** Only the heap, the list and the next address matter. *)
Lemma wf_ext (w w' : World) :
  heap w' = heap w → ntask_list w' = ntask_list w → next_addr w' = next_addr w →
  wf w → wf w'.
Proof.
  intros Hh Hl Hn [H0 H1 H2 H3 H4 H5].
  split; rewrite ?Hh, ?Hl, ?Hn; done.
Qed.

(** A new object enters the list under a key no entry has, or under 255. *)
Lemma wf_push (w w' : World) (o : TaskObject) :
  wf w →
  heap w' = <[next_addr w := o]> (heap w) →
  ntask_list w' = ntask_list w ++ [next_addr w] →
  next_addr w' = next_addr w + 1 →
  in_range (identifier o) →
  (ID (identifier o) ≠ 255 → ¬ taken (heap w) (ntask_list w) (identifier o)) →
  wf w'.
Proof.
  intros Hwf Hh Hl Hn Hrange Hfree.
  pose proof (wf_next_free w Hwf) as Hnone.
  pose proof (wf_next_pos w Hwf) as Hpos.
  assert (∀ p, p ∈ ntask_list w → p ≠ next_addr w) as Hne.
  { intros p Hp. pose proof (wf_entry_below w p Hwf Hp). lia. }
  assert (∀ p, p ∈ ntask_list w → <[next_addr w := o]> (heap w) !! p = heap w !! p) as Hold.
  { intros p Hp. apply lookup_insert_ne. specialize (Hne p Hp). done. }
  split; rewrite ?Hh, ?Hl, ?Hn.
  - lia.
  - intros p Hp. apply lookup_insert_is_Some in Hp as [<-|[_ Hp]]; [lia|].
    pose proof (wf_fresh w Hwf p Hp). lia.
  - intros p Hp. apply elem_of_app in Hp as [Hp|Hp].
    + rewrite Hold by done. by apply (wf_live w Hwf).
    + apply list_elem_of_singleton in Hp as ->. rewrite lookup_insert_eq. by eexists.
  - apply NoDup_app. split; [by apply (wf_nodup w Hwf)|]. split; [|apply NoDup_singleton].
    intros p Hp Hin. apply list_elem_of_singleton in Hin. by apply (Hne p).
  - intros p o' Hp Ho'. apply elem_of_app in Hp as [Hp|Hp].
    + rewrite Hold in Ho' by done. by apply (wf_range w Hwf p).
    + apply list_elem_of_singleton in Hp as ->. rewrite lookup_insert_eq in Ho'.
      by injection Ho' as <-.
  - intros p q o1 o2 Hp Hq Ho1 Ho2 Hkey H255.
    apply elem_of_app in Hp as [Hp|Hp]; apply elem_of_app in Hq as [Hq|Hq].
    + rewrite Hold in Ho1, Ho2 by done. by apply (wf_unique w Hwf p q o1 o2).
    + apply list_elem_of_singleton in Hq as ->. rewrite Hold in Ho1 by done.
      rewrite lookup_insert_eq in Ho2. injection Ho2 as <-.
      exfalso. apply Hfree; [by rewrite <- Hkey|].
      exists p, o1. by rewrite Hkey.
    + apply list_elem_of_singleton in Hp as ->. rewrite Hold in Ho2 by done.
      rewrite lookup_insert_eq in Ho1. injection Ho1 as <-.
      exfalso. apply Hfree; [done|].
      exists q, o2. by rewrite Hkey.
    + apply list_elem_of_singleton in Hp as ->. by apply list_elem_of_singleton in Hq as ->.
Qed.

(** An object changes but keeps its identifier. *)
Lemma wf_update (w w' : World) (p : Z) (o o' : TaskObject) :
  wf w →
  heap w !! p = Some o →
  heap w' = <[p := o']> (heap w) →
  ntask_list w' = ntask_list w →
  next_addr w' = next_addr w →
  identifier o' = identifier o →
  wf w'.
Proof.
  intros Hwf Ho Hh Hl Hn Hid.
  assert (∀ q x, <[p := o']> (heap w) !! q = Some x →
            ∃ y, heap w !! q = Some y ∧ identifier x = identifier y) as Hback.
  { intros q x Hx. apply lookup_insert_Some in Hx as [[<- <-]|[_ Hx]]; eauto. }
  split; rewrite ?Hh, ?Hl, ?Hn.
  - by apply (wf_next_pos w Hwf).
  - intros q [x Hx]. apply Hback in Hx as (y & Hy & _). apply (wf_fresh w Hwf). by eexists.
  - intros q Hq. apply lookup_insert_is_Some'. right. by apply (wf_live w Hwf).
  - by apply (wf_nodup w Hwf).
  - intros q x Hq Hx. apply Hback in Hx as (y & Hy & ->). by apply (wf_range w Hwf q).
  - intros q1 q2 x1 x2 Hq1 Hq2 Hx1 Hx2 Hkey H255.
    apply Hback in Hx1 as (y1 & Hy1 & Hk1). apply Hback in Hx2 as (y2 & Hy2 & Hk2).
    rewrite Hk1, Hk2 in Hkey. rewrite Hk1 in H255.
    by apply (wf_unique w Hwf q1 q2 y1 y2).
Qed.

Lemma assigned_range (w w' : World) (ntype id : Z) :
  assigned w ntype id w' → 1 ≤ id < 256.
Proof. intros [(H & _)|(-> & _)]; lia. Qed.

Lemma NTask_wf (w : World) (ntype : Z) (taskName : string)
    (stackSize priority coreId notification_queue_size : Z) (this : Z) (w' : World) :
  wf w →
  NTask.NTask ntype taskName stackSize priority coreId notification_queue_size w
    = Ret this w' →
  wf w'.
Proof.
  intros Hwf Hrun.
  destruct (NTask_spec w ntype taskName stackSize priority coreId notification_queue_size Hwf)
    as (id & w1 & Hrun1 & Hh & Hl & Hn & Hid).
  rewrite Hrun1 in Hrun. injection Hrun as <- <-.
  eapply wf_push; [done|exact Hh|done|done|..].
  - split; cbn [NTask_object identifier type ID]; [apply land_255_range|].
    pose proof (assigned_range _ _ _ _ Hid). lia.
  - cbn [NTask_object identifier type ID]. intros H255.
    destruct Hid as [(_ & Hfree & _)|(-> & _)]; done.
Qed.

(** ** Lookup and destruction *)

Lemma getNTaskByIdentifier_from_found (w : World) (pre post : list Z) (p : Z)
    (o : TaskObject) (i : Identifier_t) :
  (∀ q, q ∈ pre → ∃ o', heap w !! q = Some o' ∧ w_id (identifier o') ≠ w_id i) →
  heap w !! p = Some o →
  w_id (identifier o) = w_id i →
  NTask.getNTaskByIdentifier_from (pre ++ p :: post) i w = Ret p w.
Proof.
  intros Hpre Ho Hkey. induction pre as [|q pre IH]; cbn [app NTask.getNTaskByIdentifier_from].
  - step. apply Z.eqb_eq in Hkey. by rewrite Hkey.
  - destruct (Hpre q) as (o' & Ho' & Hne); [by left|].
    step. rewrite (Zeqb_ne _ _ Hne). cbn [negb]. apply IH.
    intros q' Hq'. apply Hpre. by right.
Qed.

Lemma getNTaskByIdentifier_from_missing (w : World) (l : list Z) (i : Identifier_t) :
  (∀ q, q ∈ l → ∃ o', heap w !! q = Some o' ∧ w_id (identifier o') ≠ w_id i) →
  NTask.getNTaskByIdentifier_from l i w = Ret 0 (log_not_found i w).
Proof.
  intros Hl. induction l as [|q l IH]; cbn [NTask.getNTaskByIdentifier_from].
  - reflexivity.
  - destruct (Hl q) as (o' & Ho' & Hne); [by left|].
    step. rewrite (Zeqb_ne _ _ Hne). cbn [negb]. apply IH.
    intros q' Hq'. apply Hl. by right.
Qed.

Lemma dtor_scan_absent (this : Z) (l : list Z) (i : nat) :
  this ∉ l → NTask.dtor_scan this l i = (i + length l)%nat.
Proof.
  revert i. induction l as [|p l IH]; intros i Hnot; cbn [NTask.dtor_scan length].
  - lia.
  - apply not_elem_of_cons in Hnot as [Hne Hnot].
    rewrite decide_True by done. rewrite IH by done. lia.
Qed.

Lemma dtor_scan_present (this : Z) (pre post : list Z) (i : nat) :
  this ∉ pre → NTask.dtor_scan this (pre ++ this :: post) i = (i + length pre)%nat.
Proof.
  revert i. induction pre as [|p pre IH]; intros i Hnot; cbn [app NTask.dtor_scan length].
  - rewrite decide_False by (intros H; by apply H). lia.
  - apply not_elem_of_cons in Hnot as [Hne Hnot].
    rewrite decide_True by done. rewrite IH by done. lia.
Qed.

Lemma dtor_present (w : World) (this : Z) (o : TaskObject) (pre post : list Z) :
  heap w !! this = Some o →
  ntask_list w = pre ++ this :: post →
  this ∉ pre →
  NTask.dtor this w
  = Ret tt {| heap := delete this (heap w); ntask_list := pre ++ post;
              next_addr := next_addr w; trace := trace w |}.
Proof.
  intros Ho Hl Hpre. unfold NTask.dtor. step.
  rewrite Hl, dtor_scan_present by done. cbn [Nat.add].
  assert ((length pre <? length (pre ++ this :: post))%nat = true) as ->.
  { apply Nat.ltb_lt. rewrite length_app. cbn [length]. lia. }
  step. by rewrite delete_middle.
Qed.

Lemma dtor_absent (w : World) (this : Z) (o : TaskObject) :
  heap w !! this = Some o →
  this ∉ ntask_list w →
  NTask.dtor this w
  = Ret tt {| heap := delete this (heap w); ntask_list := ntask_list w;
              next_addr := next_addr w; trace := trace w |}.
Proof.
  intros Ho Hnot. unfold NTask.dtor. step.
  rewrite dtor_scan_absent by done. cbn [Nat.add].
  assert ((length (ntask_list w) <? length (ntask_list w))%nat = false) as ->.
  { apply Nat.ltb_ge. lia. }
  by step.
Qed.

(** The entries other than a removed one, in a list without repetition. *)
Lemma NoDup_middle_out (pre post : list Z) (p q : Z) :
  NoDup (pre ++ p :: post) → q ∈ pre ++ post → q ≠ p ∧ q ∈ pre ++ p :: post.
Proof.
  intros Hnd Hq. apply NoDup_app in Hnd as (_ & Hdisj & Hnd).
  apply NoDup_cons in Hnd as [Hp _].
  apply elem_of_app in Hq as [Hq|Hq].
  - split; [|apply elem_of_app; by left].
    intros ->. apply (Hdisj p Hq). by left.
  - split; [|apply elem_of_app; right; by right].
    by intros ->.
Qed.

Lemma dtor_wf (w : World) (this : Z) (w' : World) :
  wf w → NTask.dtor this w = Ret tt w' → wf w'.
Proof.
  intros Hwf Hrun.
  destruct (heap w !! this) as [o|] eqn:Ho.
  2:{ unfold NTask.dtor, bind, deref in Hrun. by rewrite Ho in Hrun. }
  assert (∃ l, w' = {| heap := delete this (heap w); ntask_list := l;
                       next_addr := next_addr w; trace := trace w |}
               ∧ NoDup l ∧ ∀ q, q ∈ l → q ≠ this ∧ q ∈ ntask_list w) as (l & -> & Hnd & Hl).
  { destruct (decide (this ∈ ntask_list w)) as [Hin|Hnot].
    - apply list_elem_of_split_l in Hin as (pre & post & Heq & Hpre).
      rewrite (dtor_present w this o pre post Ho Heq Hpre) in Hrun. injection Hrun as <-.
      pose proof (wf_nodup w Hwf) as Hnd. rewrite Heq in Hnd.
      eexists. split; [done|]. split.
      + apply NoDup_app in Hnd as (H1 & H2 & H3). apply NoDup_cons in H3 as [H3 H4].
        apply NoDup_app. split; [done|]. split; [|done].
        intros x Hx Hx'. apply (H2 x Hx). by right.
      + intros q Hq. rewrite Heq. by apply NoDup_middle_out.
    - rewrite (dtor_absent w this o Ho Hnot) in Hrun. injection Hrun as <-.
      eexists. split; [done|]. split; [by apply (wf_nodup w Hwf)|].
      intros q Hq. split; [|done]. by intros ->. }
  split; cbn [heap ntask_list next_addr].
  - by apply (wf_next_pos w Hwf).
  - intros q [x Hx]. apply lookup_delete_Some in Hx as [_ Hx].
    apply (wf_fresh w Hwf). by eexists.
  - intros q Hq. destruct (Hl q Hq) as [Hne Hin].
    rewrite lookup_delete_ne by done. by apply (wf_live w Hwf).
  - done.
  - intros q x Hq Hx. destruct (Hl q Hq) as [Hne Hin].
    apply lookup_delete_Some in Hx as [_ Hx]. by apply (wf_range w Hwf q).
  - intros q1 q2 x1 x2 Hq1 Hq2 Hx1 Hx2 Hkey H255.
    destruct (Hl q1 Hq1) as [_ Hin1]. destruct (Hl q2 Hq2) as [_ Hin2].
    apply lookup_delete_Some in Hx1 as [_ Hx1]. apply lookup_delete_Some in Hx2 as [_ Hx2].
    by apply (wf_unique w Hwf q1 q2 x1 x2).
Qed.

(** In a well-formed store two entries with the same key are the same
    entry, unless the key carries the exhaustion value. *)
Lemma wf_key_unique (w : World) (p q : Z) (o1 o2 : TaskObject) :
  wf w →
  p ∈ ntask_list w → q ∈ ntask_list w →
  heap w !! p = Some o1 → heap w !! q = Some o2 →
  ID (identifier o1) ≠ 255 →
  w_id (identifier o2) = w_id (identifier o1) → q = p.
Proof.
  intros Hwf Hp Hq Ho1 Ho2 H255 Hkey.
  symmetry. apply (wf_unique w Hwf p q o1 o2); try done.
  symmetry. apply w_id_inj; [by apply (wf_range w Hwf q)|by apply (wf_range w Hwf p)|done].
Qed.

Lemma lookup_registered (w : World) (p : Z) (o : TaskObject) :
  wf w → p ∈ ntask_list w → heap w !! p = Some o → ID (identifier o) ≠ 255 →
  NTask.getNTaskByIdentifier (identifier o) w = Ret p w.
Proof.
  intros Hwf Hp Ho H255. unfold NTask.getNTaskByIdentifier. step.
  destruct (list_elem_of_split_l _ _ Hp) as (pre & post & Heq & Hpre).
  rewrite Heq. apply (getNTaskByIdentifier_from_found w pre post p o); [|done|done].
  intros q Hq.
  assert (q ∈ ntask_list w) as Hin by (rewrite Heq; apply elem_of_app; by left).
  destruct (wf_live w Hwf q Hin) as [o' Ho']. exists o'. split; [done|].
  intros Hkey. assert (q = p) as -> by by eapply (wf_key_unique w p q o o').
  done.
Qed.

Lemma lookup_destroyed (w : World) (p : Z) (o : TaskObject) :
  wf w → p ∈ ntask_list w → heap w !! p = Some o → ID (identifier o) ≠ 255 →
  ∃ w1, NTask.dtor p w = Ret tt w1
        ∧ wf w1 ∧ heap w1 !! p = None ∧ (p ∉ ntask_list w1)
        ∧ NTask.getNTaskByIdentifier (identifier o) w1
          = Ret 0 (log_not_found (identifier o) w1).
Proof.
  intros Hwf Hp Ho H255.
  destruct (list_elem_of_split_l _ _ Hp) as (pre & post & Heq & Hpre).
  pose proof (dtor_present w p o pre post Ho Heq Hpre) as Hrun.
  eexists. split; [exact Hrun|]. split; [by eapply dtor_wf|].
  pose proof (wf_nodup w Hwf) as Hnd. rewrite Heq in Hnd.
  cbn [heap ntask_list]. split; [apply lookup_delete_eq|]. split.
  { intros Hin. by destruct (NoDup_middle_out pre post p p Hnd Hin). }
  unfold NTask.getNTaskByIdentifier. step.
  apply getNTaskByIdentifier_from_missing. cbn [heap].
  intros q Hq. destruct (NoDup_middle_out pre post p q Hnd Hq) as [Hne Hin].
  rewrite <- Heq in Hin. destruct (wf_live w Hwf q Hin) as [o' Ho'].
  exists o'. rewrite lookup_delete_ne by done. split; [done|].
  intros Hkey. by apply Hne, (wf_key_unique w p q o o').
Qed.

(** The lookup returns the first entry that carries the key, if any. *)
Lemma getNTaskByIdentifier_from_spec (w : World) (l : list Z) (i : Identifier_t) :
  (∀ p, p ∈ l → is_Some (heap w !! p)) →
  (∃ pre p post o, l = pre ++ p :: post
     ∧ heap w !! p = Some o ∧ w_id (identifier o) = w_id i
     ∧ ¬ taken (heap w) pre i
     ∧ NTask.getNTaskByIdentifier_from l i w = Ret p w)
  ∨ (¬ taken (heap w) l i
     ∧ NTask.getNTaskByIdentifier_from l i w = Ret 0 (log_not_found i w)).
Proof.
  induction l as [|q l IH]; intros Hlive.
  - right. split; [|done]. intros (p & o & Hp & _). by apply elem_of_nil in Hp.
  - destruct (Hlive q) as [oq Hq]; [by left|].
    cbn [NTask.getNTaskByIdentifier_from]. step.
    destruct (w_id (identifier oq) =? w_id i) eqn:Hkey; cbn [negb].
    + left. exists [], q, l, oq. split; [done|]. split; [done|].
      split; [by apply Z.eqb_eq|]. split; [|done].
      intros (p & o & Hp & _). by apply elem_of_nil in Hp.
    + apply Z.eqb_neq in Hkey.
      destruct IH as [(pre & p & post & o & -> & Ho & Hk & Hpre & Hrun)|[Hnone Hrun]].
      { intros p Hp. apply Hlive. by right. }
      * left. exists (q :: pre), p, post, o. split; [done|]. split; [done|].
        split; [done|]. split; [|done].
        intros (p' & o' & Hp' & Ho' & Hk'). apply elem_of_cons in Hp' as [->|Hp'].
        -- rewrite Hq in Ho'. injection Ho' as <-. by apply Hkey.
        -- apply Hpre. by exists p', o'.
      * right. split; [|done].
        intros (p' & o' & Hp' & Ho' & Hk'). apply elem_of_cons in Hp' as [->|Hp'].
        -- rewrite Hq in Ho'. injection Ho' as <-. by apply Hkey.
        -- apply Hnone. by exists p', o'.
Qed.

Lemma elem_of_app_singleton_r (l : list Z) (p : Z) : p ∈ l ++ [p].
Proof. apply elem_of_app. right. by apply list_elem_of_singleton. Qed.

(** ** Constructions in a row *)

Lemma construct_all_app (ntype : Z) (pre rest : list CtorArgs) (w : World) :
  construct_all ntype (pre ++ rest) w
  = (do ps1 <- construct_all ntype pre;
     do ps2 <- construct_all ntype rest;
     ret (ps1 ++ ps2)) w.
Proof.
  revert w. induction pre as [|a pre IH]; intros w; cbn [app construct_all];
    unfold bind, ret in *.
  - by destruct (construct_all ntype rest w).
  - destruct (construct ntype a w) as [p w1| |]; [|done|done].
    rewrite IH.
    destruct (construct_all ntype pre w1) as [ps1 w2| |]; [|done|done].
    by destruct (construct_all ntype rest w2).
Qed.

Lemma taken_mono (h h' : gmap Z TaskObject) (l l' : list Z) (i : Identifier_t) :
  (∀ p o, h !! p = Some o → h' !! p = Some o) → l ⊆ l' →
  taken h l i → taken h' l' i.
Proof.
  intros Hh Hl (p & o & Hp & Ho & Hk). exists p, o. split; [by apply Hl|]. split; [by apply Hh|done].
Qed.

Lemma id_of_lookup (w : World) (p : Z) (o : TaskObject) :
  heap w !! p = Some o → id_of w p = ID (identifier o).
Proof. unfold id_of. by intros ->. Qed.

Lemma construct_all_spec (ntype : Z) (args : list CtorArgs) (w : World) :
  wf w →
  ∃ ps w', construct_all ntype args w = Ret ps w'
    ∧ wf w'
    ∧ ntask_list w' = ntask_list w ++ ps
    ∧ length ps = length args
    ∧ (∀ p o, heap w !! p = Some o → heap w' !! p = Some o)
    ∧ (∀ p, p ∈ ps → ∃ o, heap w' !! p = Some o
         ∧ type (identifier o) = Z.land ntype 0xff
         ∧ (ID (identifier o) ≠ 255 →
              ¬ taken (heap w) (ntask_list w) (identifier o)))
    ∧ (∀ i j p q, i ≠ j → ps !! i = Some p → ps !! j = Some q →
         id_of w' p = id_of w' q → id_of w' p = 255).
Proof.
  revert w. induction args as [|a args IH]; intros w Hwf; cbn [construct_all].
  - exists [], w. split; [done|]. split; [done|]. split; [by rewrite app_nil_r|].
    split; [done|]. split; [done|]. split.
    + intros p Hp. by apply elem_of_nil in Hp.
    + intros i j p q _ Hi. by rewrite lookup_nil in Hi.
  - unfold construct.
    destruct (NTask_spec w ntype (a_taskName a) (a_stackSize a) (a_priority a) (a_coreId a)
                (a_notification_queue_size a) Hwf) as (id & w1 & Hrun & Hh & Hl & Hn & Hid).
    pose proof (NTask_wf _ _ _ _ _ _ _ _ _ Hwf Hrun) as Hwf1.
    destruct (IH w1 Hwf1) as (ps & w' & Hrun' & Hwf' & Hl' & Hlen & Hkeep & Hnew & Hdist).
    set (this := next_addr w) in *.
    set (obj := NTask_object ntype (a_taskName a) (a_stackSize a) (a_priority a)
                  (a_coreId a) (a_notification_queue_size a) id) in *.
    assert (heap w1 !! this = Some obj) as Hobj1 by (rewrite Hh; apply lookup_insert_eq).
    pose proof (Hkeep _ _ Hobj1) as Hobj'.
    assert (∀ p o, heap w !! p = Some o → heap w1 !! p = Some o) as Hkeep1.
    { intros p o Ho. rewrite Hh, lookup_insert_ne; [done|].
      intros Heq. pose proof (wf_next_free w Hwf) as Hnone. fold this in Hnone.
      rewrite <- Heq in Ho. by rewrite Hnone in Ho. }
    assert (ntask_list w ⊆ ntask_list w1) as Hsub.
    { rewrite Hl. intros x Hx. apply elem_of_app. by left. }
    exists (this :: ps), w'. unfold bind, ret. rewrite Hrun, Hrun'.
    split; [done|]. split; [done|]. split; [by rewrite Hl', Hl, <- app_assoc|].
    split; [cbn [length]; by rewrite Hlen|]. split; [by auto|]. split.
    + intros p Hp. apply elem_of_cons in Hp as [->|Hp].
      * exists obj. split; [done|]. split; [done|]. intros H255.
        destruct Hid as [(_ & Hfree & _)|(-> & _)]; done.
      * destruct (Hnew p Hp) as (o & Ho & Ht & Hfree). exists o.
        split; [done|]. split; [done|]. intros H255 Htaken.
        apply (Hfree H255). by apply (taken_mono (heap w) _ (ntask_list w)).
    + assert (∀ q, q ∈ ps → id_of w' this = id_of w' q → id_of w' this = 255) as Hhead.
      { intros q Hq Heq. destruct (Hnew q Hq) as (o & Ho & Ht & Hfree).
        rewrite (id_of_lookup _ _ _ Hobj'), (id_of_lookup _ _ _ Ho) in *.
        destruct (decide (ID (identifier o) = 255)) as [H255|H255]; [by rewrite Heq|].
        exfalso. apply (Hfree H255). exists this, obj.
        split; [rewrite Hl; apply elem_of_app_singleton_r|]. split; [done|].
        f_equal. destruct o as [? ? ? ? ? [t c] ? ?]. cbn in *. by subst. }
      intros [|i] [|j] p q Hij Hp Hq Heq; cbn [lookup list_lookup] in Hp, Hq.
      * done.
      * injection Hp as <-. apply (Hhead q); [by eapply list_elem_of_lookup_2|done].
      * injection Hq as <-. rewrite Heq.
        apply (Hhead p); [by eapply list_elem_of_lookup_2|done].
      * apply (Hdist i j p q); [lia|done..].
Qed.

(** ** Identifier allocation and the directory (NTask) *)

(** C3, as the code has it: in constructions of one type in a row, each
    is given the first id of 1 .. 254 (0 is skipped) that no entry of the
    directory carries for that type, so two of them carry the same id only
    if it is 255; 255 is what [getIDnotTaken] yields, with an error logged,
    once each of 1 .. 254 is carried. *)
Theorem construction_ids (w : World) (ntype : Z) (args : list CtorArgs) :
  wf w →
  ∃ ps w', construct_all ntype args w = Ret ps w'
    ∧ length ps = length args
    ∧ (∀ i j p q, i ≠ j → ps !! i = Some p → ps !! j = Some q →
         id_of w' p = id_of w' q → id_of w' p = 255)
    ∧ (∀ pre a post, args = pre ++ a :: post →
         ∃ ps1 w1 p w2,
           construct_all ntype pre w = Ret ps1 w1
           ∧ construct ntype a w1 = Ret p w2
           ∧ ps !! length pre = Some p
           ∧ assigned w1 ntype (id_of w' p) w2).
Proof.
  intros Hwf.
  destruct (construct_all_spec ntype args w Hwf)
    as (ps & w' & Hrun & Hwf' & Hl & Hlen & Hkeep & Hnew & Hdist).
  exists ps, w'. split; [done|]. split; [done|]. split; [done|].
  intros pre a post ->.
  destruct (construct_all_spec ntype pre w Hwf)
    as (ps1 & w1 & Hrun1 & Hwf1 & _ & Hlen1 & _).
  destruct (NTask_spec w1 ntype (a_taskName a) (a_stackSize a) (a_priority a) (a_coreId a)
              (a_notification_queue_size a) Hwf1) as (id & w2 & Hrun2 & Hh2 & _ & _ & Hid).
  pose proof (NTask_wf _ _ _ _ _ _ _ _ _ Hwf1 Hrun2) as Hwf2.
  destruct (construct_all_spec ntype post w2 Hwf2)
    as (ps2 & w3 & Hrun3 & _ & _ & _ & Hkeep3 & _).
  rewrite construct_all_app in Hrun. cbn [construct_all] in Hrun.
  unfold bind, ret in Hrun. fold (construct ntype a) in Hrun2.
  rewrite Hrun1, Hrun2, Hrun3 in Hrun. injection Hrun as <- <-.
  exists ps1, w1, (next_addr w1), w2. split; [done|]. split; [done|].
  split; [rewrite <- Hlen1; by apply list_lookup_middle|].
  rewrite (id_of_lookup w3 (next_addr w1)
             (NTask_object ntype (a_taskName a) (a_stackSize a) (a_priority a)
                (a_coreId a) (a_notification_queue_size a) id)); [exact Hid|].
  apply Hkeep3. rewrite Hh2. apply lookup_insert_eq.
Qed.

Lemma construction_ids_witness :
  wf init_world
  ∧ ∃ ps w', construct_all 3 [default_args; default_args] init_world = Ret ps w'
    ∧ length ps = length [default_args; default_args]
    ∧ (∀ i j p q, i ≠ j → ps !! i = Some p → ps !! j = Some q →
         id_of w' p = id_of w' q → id_of w' p = 255)
    ∧ (∀ pre a post, [default_args; default_args] = pre ++ a :: post →
         ∃ ps1 w1 p w2,
           construct_all 3 pre init_world = Ret ps1 w1
           ∧ construct 3 a w1 = Ret p w2
           ∧ ps !! length pre = Some p
           ∧ assigned w1 3 (id_of w' p) w2).
Proof.
  split; [exact wf_init_world|].
  exact (construction_ids init_world 3 [default_args; default_args] wf_init_world).
Defined.

(** The run the two counterexamples below read. *)
Lemma exhausted_lookup_result :
  result_of (exhausted_lookup init_world)
  = Some (seqZ 1 254 ++ [255; 255], 256, 255, 255).
Proof. vm_compute. reflexivity. Qed.

(** C3 as stated fails: of 256 constructions of one type in a row, the
    last two both carry id 255, the second of them an id a live object
    holds. *)
Lemma exhausted_ids_repeat :
  ∃ ids this found found_after,
    result_of (exhausted_lookup init_world) = Some (ids, this, found, found_after)
    ∧ ids !! 254%nat = Some 255 ∧ ids !! 255%nat = Some 255
    ∧ ¬ NoDup ids.
Proof.
  eexists _, _, _, _. split; [exact exhausted_lookup_result|].
  split; [reflexivity|]. split; [reflexivity|].
  intros Hnd. apply NoDup_app in Hnd as (_ & _ & Hnd).
  apply NoDup_cons in Hnd as [Hnot _]. apply Hnot. by left.
Qed.

(** C4, as the code has it: a constructed actor is registered, last in
    the directory.  The lookup by an identifier returns the first entry that
    carries its key: it returns a registered actor when no entry before it
    carries the key of its identifier; after the destruction of the actor,
    which removes the entry that is this very object, it returns [nullptr]
    and logs an error when no other entry carries the key, and returns
    another holder of the key when one does.  An identifier whose id is not
    255 is carried by one entry.  Destroying an object that has no entry
    leaves the list as it is. *)
Theorem directory_consistency (w : World) (ntype : Z) (taskName : string)
    (stackSize priority coreId notification_queue_size : Z) :
  wf w →
  (∃ this w1 o,
      NTask.NTask ntype taskName stackSize priority coreId notification_queue_size w
        = Ret this w1
      ∧ wf w1 ∧ this ∈ ntask_list w1 ∧ ntask_list w1 = ntask_list w ++ [this]
      ∧ heap w1 !! this = Some o
      ∧ (ID (identifier o) ≠ 255 → ¬ taken (heap w) (ntask_list w) (identifier o))
      ∧ (¬ taken (heap w) (ntask_list w) (identifier o) →
           NTask.getNTaskByIdentifier (identifier o) w1 = Ret this w1))
  ∧ (∀ pre p post o, ntask_list w = pre ++ p :: post → heap w !! p = Some o →
       (ID (identifier o) ≠ 255 → ¬ taken (heap w) (pre ++ post) (identifier o))
       ∧ (¬ taken (heap w) pre (identifier o) →
            NTask.getNTaskByIdentifier (identifier o) w = Ret p w)
       ∧ ∃ w1, NTask.dtor p w = Ret tt w1
           ∧ wf w1 ∧ heap w1 !! p = None
           ∧ ntask_list w1 = pre ++ post ∧ (p ∉ ntask_list w1)
           ∧ (¬ taken (heap w) (pre ++ post) (identifier o) →
                NTask.getNTaskByIdentifier (identifier o) w1
                = Ret 0 (log_not_found (identifier o) w1))
           ∧ (taken (heap w) (pre ++ post) (identifier o) →
                ∃ q oq, NTask.getNTaskByIdentifier (identifier o) w1 = Ret q w1
                     ∧ q ≠ 0 ∧ q ≠ p ∧ q ∈ pre ++ post
                     ∧ heap w !! q = Some oq
                     ∧ w_id (identifier oq) = w_id (identifier o)))
  ∧ (∀ p o, heap w !! p = Some o → p ∉ ntask_list w →
       ∃ w1, NTask.dtor p w = Ret tt w1
           ∧ ntask_list w1 = ntask_list w ∧ trace w1 = trace w).
Proof.
  intros Hwf. split; [|split].
  - destruct (NTask_spec w ntype taskName stackSize priority coreId
                notification_queue_size Hwf) as (id & w1 & Hrun & Hh & Hl & Hn & Hid).
    pose proof (NTask_wf _ _ _ _ _ _ _ _ _ Hwf Hrun) as Hwf1.
    assert (next_addr w ∈ ntask_list w1) as Hin
      by (rewrite Hl; apply elem_of_app_singleton_r).
    assert (heap w1 !! next_addr w
            = Some (NTask_object ntype taskName stackSize priority coreId
                      notification_queue_size id)) as Hobj
      by (rewrite Hh; apply lookup_insert_eq).
    eexists _, w1, _. split; [exact Hrun|]. split; [done|]. split; [done|].
    split; [done|]. split; [exact Hobj|]. split.
    + cbn [NTask_object identifier ID]. intros H255.
      destruct Hid as [(_ & Hfree & _)|(-> & _)]; [exact Hfree|done].
    + intros Hfree. unfold NTask.getNTaskByIdentifier. step. rewrite Hl.
      eapply (getNTaskByIdentifier_from_found w1 (ntask_list w) [] (next_addr w));
        [|exact Hobj|done].
      intros q Hq. destruct (wf_live w Hwf q Hq) as [o' Ho'].
      pose proof (wf_entry_below w q Hwf Hq) as Hlt.
      exists o'. split; [rewrite Hh, lookup_insert_ne by lia; exact Ho'|].
      intros Hkey. apply Hfree. by exists q, o'.
  - intros pre p post o Heq Ho.
    pose proof (wf_nodup w Hwf) as Hnd. rewrite Heq in Hnd.
    assert (p ∈ ntask_list w) as Hp
      by (rewrite Heq; apply elem_of_app; right; by left).
    assert (p ∉ pre) as Hpre.
    { intros Hin. apply NoDup_app in Hnd as (_ & Hdisj & _). apply (Hdisj p Hin). by left. }
    assert (∀ q, q ∈ pre ++ post → q ≠ p ∧ q ∈ ntask_list w) as Hothers.
    { intros q Hq. rewrite Heq. by apply NoDup_middle_out. }
    pose proof (dtor_present w p o pre post Ho Heq Hpre) as Hrun.
    pose proof (dtor_wf _ _ _ Hwf Hrun) as Hwf1.
    split; [|split].
    + intros H255 (q & oq & Hq & Hoq & Hkey). destruct (Hothers q Hq) as [Hne Hin].
      apply Hne. by apply (wf_key_unique w p q o oq).
    + intros Hfirst. unfold NTask.getNTaskByIdentifier. step. rewrite Heq.
      apply (getNTaskByIdentifier_from_found w pre post p o); [|done|done].
      intros q Hq.
      assert (q ∈ ntask_list w) as Hin by (rewrite Heq; apply elem_of_app; by left).
      destruct (wf_live w Hwf q Hin) as [o' Ho']. exists o'. split; [done|].
      intros Hkey. apply Hfirst. by exists q, o'.
    + eexists. split; [exact Hrun|]. split; [exact Hwf1|]. cbn [heap ntask_list].
      split; [apply lookup_delete_eq|]. split; [done|]. split.
      { intros Hin. by destruct (Hothers p Hin). }
      split.
      * intros Hnone. unfold NTask.getNTaskByIdentifier. step.
        apply getNTaskByIdentifier_from_missing. cbn [heap].
        intros q Hq. destruct (Hothers q Hq) as [Hne Hin].
        destruct (wf_live w Hwf q Hin) as [o' Ho'].
        exists o'. rewrite lookup_delete_ne by done. split; [done|].
        intros Hkey. apply Hnone. by exists q, o'.
      * intros (q & oq & Hq & Hoq & Hkey). destruct (Hothers q Hq) as [Hne Hin].
        unfold NTask.getNTaskByIdentifier. step.
        match goal with
        | |- context [NTask.getNTaskByIdentifier_from ?l ?i ?w1] =>
            destruct (getNTaskByIdentifier_from_spec w1 l i)
              as [(pre' & q' & post' & o' & Hl' & Ho' & Hk' & _ & Hfound)|[Hnone _]]
        end.
        -- cbn [heap]. intros x Hx. destruct (Hothers x Hx) as [Hxne Hxin].
           rewrite lookup_delete_ne by done. by apply (wf_live w Hwf).
        -- assert (q' ∈ pre ++ post) as Hq'
             by (rewrite Hl'; apply elem_of_app; right; by left).
           destruct (Hothers q' Hq') as [Hne' Hin'].
           pose proof (wf_entry_below w q' Hwf Hin') as Hpos.
           cbn [heap] in Ho'. rewrite lookup_delete_ne in Ho' by done.
           exists q', o'. split; [exact Hfound|]. split; [lia|]. split; [done|].
           split; [done|]. split; [exact Ho'|exact Hk'].
        -- exfalso. apply Hnone. exists q, oq. split; [done|].
           cbn [heap]. rewrite lookup_delete_ne by done. done.
  - intros p o Ho Hnot. eexists. split; [by apply (dtor_absent w p o)|]. done.
Qed.

Lemma two_tasks_wf : wf (world_of two_tasks).
Proof.
  destruct (construct_all_spec 3 [default_args; default_args] init_world wf_init_world)
    as (ps & w' & Hrun & Hwf & _).
  unfold two_tasks. rewrite Hrun. exact Hwf.
Qed.

Lemma directory_consistency_witness :
  wf (world_of two_tasks)
  ∧ (∃ this w1 o,
        NTask.NTask 3 "Task" 10000 2 0 8 (world_of two_tasks) = Ret this w1
        ∧ wf w1 ∧ this ∈ ntask_list w1
        ∧ ntask_list w1 = ntask_list (world_of two_tasks) ++ [this]
        ∧ heap w1 !! this = Some o
        ∧ (ID (identifier o) ≠ 255 →
             ¬ taken (heap (world_of two_tasks)) (ntask_list (world_of two_tasks))
                 (identifier o))
        ∧ (¬ taken (heap (world_of two_tasks)) (ntask_list (world_of two_tasks))
               (identifier o) →
             NTask.getNTaskByIdentifier (identifier o) w1 = Ret this w1))
  ∧ ntask_list (world_of two_tasks) = [1] ++ 2 :: []
  ∧ heap (world_of two_tasks) !! 2 = Some (NTask_object 3 "Task" 10000 2 0 NTASK_QUEUE_LENGTH 2)
  ∧ NTask.getNTaskByIdentifier {| type := 3; ID := 2 |} (world_of two_tasks)
    = Ret 2 (world_of two_tasks)
  ∧ ∃ w1, NTask.dtor 2 (world_of two_tasks) = Ret tt w1
      ∧ wf w1 ∧ heap w1 !! 2 = None ∧ ntask_list w1 = [1] ∧ (2 ∉ ntask_list w1)
      ∧ NTask.getNTaskByIdentifier {| type := 3; ID := 2 |} w1
        = Ret 0 (log_not_found {| type := 3; ID := 2 |} w1).
Proof.
  pose proof (directory_consistency (world_of two_tasks) 3 "Task" 10000 2 0 8 two_tasks_wf)
    as (Hnew & Hreg & _).
  split; [exact two_tasks_wf|]. split; [exact Hnew|].
  split; [reflexivity|]. split; [reflexivity|].
  destruct (Hreg [1] 2 [] (NTask_object 3 "Task" 10000 2 0 NTASK_QUEUE_LENGTH 2)
              eq_refl eq_refl) as (Hsole & Hfound & w1 & Hrun & Hwf1 & Hgone & Hl & Hnot
                                    & Hnone & _).
  assert (ID (identifier (NTask_object 3 "Task" 10000 2 0 NTASK_QUEUE_LENGTH 2)) ≠ 255)
    as H255 by discriminate.
  specialize (Hsole H255).
  split.
  - apply Hfound. intros Ht. apply Hsole.
    eapply taken_mono; [| |exact Ht]; [done|]. intros x Hx. apply elem_of_app. by left.
  - exists w1. split; [exact Hrun|]. split; [exact Hwf1|]. split; [exact Hgone|].
    split; [exact Hl|]. split; [exact Hnot|]. by apply Hnone.
Defined.

(** C4 as stated fails: the last of 256 objects of one type carries the
    identifier of the object before it; the lookup by that identifier
    returns the other object, after the construction and after the
    destruction alike. *)
Lemma exhausted_lookup_other :
  ∃ ids this found found_after,
    result_of (exhausted_lookup init_world) = Some (ids, this, found, found_after)
    ∧ found ≠ this ∧ found_after ≠ 0.
Proof.
  eexists _, _, _, _. split; [exact exhausted_lookup_result|]. split; discriminate.
Qed.

(** C9: a wait of [receiveNotification] that expires on an empty mailbox,
    a zero timeout included, returns the notification whose raw word is 0
    and leaves the objects as they are. *)
Theorem receiveNotification_timeout (w : World) (this ticktowait : Z) (o : TaskObject) :
  heap w !! this = Some o →
  q_items (notification_queue o) = [] →
  ticktowait ≠ portMAX_DELAY →
  ∃ notif w', NTask.receiveNotification this ticktowait w = Ret notif w'
    ∧ d0 notif = 0
    ∧ heap w' = heap w ∧ ntask_list w' = ntask_list w
    ∧ trace w' = trace w ++ [Ev_xQueueReceive this ticktowait].
Proof.
  intros Hlive Hempty Hticks.
  unfold NTask.receiveNotification, on_queue, xQueueReceive. step.
  rewrite (Zeqb_ne _ _ Hticks). step.
  eexists _, _. split; [reflexivity|]. cbn [heap ntask_list trace].
  split; [reflexivity|]. split; [|done].
  rewrite set_notification_queue_same. by apply insert_id.
Qed.

Lemma receiveNotification_timeout_witness :
  heap (world_of two_tasks) !! 1 = Some (NTask_object 3 "Task" 10000 2 0 NTASK_QUEUE_LENGTH 1)
  ∧ 0 ≠ portMAX_DELAY
  ∧ ∃ notif w', NTask.receiveNotification 1 0 (world_of two_tasks) = Ret notif w'
      ∧ d0 notif = 0
      ∧ heap w' = heap (world_of two_tasks)
      ∧ ntask_list w' = ntask_list (world_of two_tasks)
      ∧ trace w' = trace (world_of two_tasks) ++ [Ev_xQueueReceive 1 0].
Proof.
  split; [reflexivity|]. split; [discriminate|].
  apply (receiveNotification_timeout (world_of two_tasks) 1 0
           (NTask_object 3 "Task" 10000 2 0 NTASK_QUEUE_LENGTH 1)).
  - reflexivity.
  - reflexivity.
  - discriminate.
Defined.

(** The parts of C7 that hold: a null destination, and for [sendDataTo] a
    null payload pointer, make the call return [pdFALSE] with the store
    untouched. *)
Lemma sendNotificationTo_null (w : World) (notif : Notification_t)
    (ticktowait notif_position : Z) :
  NTask.sendNotificationTo 0 notif ticktowait notif_position w = Ret pdFALSE w.
Proof. reflexivity. Qed.

Lemma sendDataTo_null_destination (w : World) (data : option (list Z))
    (size ticktowait : Z) (usenotif : bool) (notification : Notification_t) :
  RTask.sendDataTo 0 data size ticktowait usenotif notification w = Ret pdFALSE w.
Proof. by destruct data. Qed.

Lemma sendDataTo_null_data (w : World) (destination size ticktowait : Z)
    (usenotif : bool) (notification : Notification_t) :
  RTask.sendDataTo destination None size ticktowait usenotif notification w = Ret pdFALSE w.
Proof. reflexivity. Qed.

(** C7 fails for the two interrupt variants: they read
    [dest->notification_queue] without the test of [sendNotificationTo], so
    a null destination is dereferenced. *)
Theorem isr_send_null_destination_faults (notif_value : Z) :
  NTask.sendNotificationFromIsrTo 0 notif_value (world_of two_tasks) = Fault
  ∧ NTask.sendNotificationToFrontFromIsrTo 0 notif_value (world_of two_tasks) = Fault
  ∧ NTask.sendNotificationTo 0 (NOTIFICATION_FROM_ISR notif_value) 0 queueSEND_TO_BACK
      (world_of two_tasks) = Ret pdFALSE (world_of two_tasks).
Proof. split; [reflexivity|]. split; reflexivity. Qed.

(** ** The data channel (RTask) *)

Lemma RTask_spec (w : World) (ntype : Z) (taskName : string)
    (stackSize priority coreId notification_queue_size ringbuffer_size : Z) :
  wf w →
  0 < ringbuffer_size →
  ∃ id w',
    RTask.RTask ntype taskName stackSize priority coreId notification_queue_size
      ringbuffer_size w = Ret (next_addr w) w'
    ∧ heap w' = <[next_addr w := RTask_object ntype taskName stackSize priority coreId
                                   notification_queue_size ringbuffer_size id]> (heap w)
    ∧ ntask_list w' = ntask_list w ++ [next_addr w]
    ∧ next_addr w' = next_addr w + 1
    ∧ assigned w ntype id w'
    ∧ wf w'.
Proof.
  intros Hwf Hsize.
  destruct (NTask_spec w ntype taskName stackSize priority coreId notification_queue_size Hwf)
    as (id & w1 & Hrun & Hh & Hl & Hn & Hid).
  pose proof (NTask_wf _ _ _ _ _ _ _ _ _ Hwf Hrun) as Hwf1.
  assert (heap w1 !! next_addr w = Some (NTask_object ntype taskName stackSize priority
            coreId notification_queue_size id)) as Hobj
    by (rewrite Hh; apply lookup_insert_eq).
  assert ((0 <? ringbuffer_size) = true) as Hpos by lia.
  exists id. eexists. unfold RTask.RTask. unfold bind at 1. rewrite Hrun. step.
  split; [reflexivity|]. cbn [heap ntask_list next_addr trace].
  rewrite Hh, insert_insert_eq. split; [done|]. split; [done|]. split; [done|].
  split.
  { destruct Hid as [(H1 & H2 & H3 & H4)|(H1 & H2 & H3)]; [left|right]; done. }
  eapply (wf_update w1 _ (next_addr w)); [done|exact Hobj|..].
  - cbn [heap]. by rewrite Hh, insert_insert_eq.
  - done.
  - done.
  - done.
Qed.

(** C5: once the lock is acquired, the push into the ring buffer is made
    with the caller's timeout and, the timeout being finite, returns; the
    notification is then sent with [portMAX_DELAY] whatever that timeout is,
    so that on a full mailbox the call never returns. *)
Theorem sendDataTo_notification_leg_unbounded
    (w : World) (dest : Z) (o : TaskObject) (r : RTaskPart)
    (bytes : list Z) (size ticktowait : Z) (notification : Notification_t) :
  dest ≠ 0 →
  heap w !! dest = Some o →
  rtask o = Some r →
  mutex_receiving_buff r = false →
  size ≤ Z.of_nat (length bytes) →
  ticktowait ≠ portMAX_DELAY →
  let payload := take (Z.to_nat size) bytes in
  let sent := [Ev_xSemaphoreTake dest ticktowait;
               Ev_xRingbufferSend dest payload ticktowait;
               Ev_xQueueGenericSend dest notification portMAX_DELAY queueSEND_TO_BACK] in
  ∃ t rb, xRingbufferSend (receiving_buff r) payload ticktowait = Done (t, rb) ∧
  if q_full (notification_queue o)
  then ∃ w', RTask.sendDataTo dest (Some bytes) size ticktowait true notification w = Block w'
             ∧ trace w' = trace w ++ sent
  else ∃ w', RTask.sendDataTo dest (Some bytes) size ticktowait true notification w = Ret t w'
             ∧ trace w' = trace w ++ sent ++ [Ev_xSemaphoreGive dest].
Proof.
  intros Hdest Hlive Hr Hfree Hsize Hticks payload sent.
  assert (∃ t rb, xRingbufferSend (receiving_buff r) payload ticktowait = Done (t, rb))
    as (t & rb & Hsend).
  { unfold xRingbufferSend. rewrite (Zeqb_ne _ _ Hticks).
    repeat case_match; eauto. }
  exists t, rb. split; [done|].
  unfold RTask.sendDataTo, RTask.on_mutex_receiving_buff, RTask.on_receiving_buff,
    RTask.read_bytes, NTask.sendNotificationTo, on_rtask, on_queue, xSemaphoreTake,
    xQueueGenericSend.
  rewrite (Zeqb_ne _ _ Hdest).
  assert ((size <=? Z.of_nat (length bytes)) = true) as Hsz by lia.
  subst payload sent.
  destruct (q_full (notification_queue o)) eqn:Hfull.
  - step. eexists. split; [reflexivity|]. cbn [trace]. by rewrite <- !app_assoc.
  - step. eexists. split; [reflexivity|]. cbn [trace]. by rewrite <- !app_assoc.
Qed.

Lemma sendDataTo_notification_leg_unbounded_witness :
  1 ≠ 0
  ∧ heap (world_of (sender_and_receiver init_world)) !! 1 = Some (receiver_object false)
  ∧ rtask (receiver_object false) = Some (receiver_part false)
  ∧ mutex_receiving_buff (receiver_part false) = false
  ∧ 4 ≤ Z.of_nat (length [1; 2; 3; 4])
  ∧ 10 ≠ portMAX_DELAY
  ∧ ∃ w', RTask.sendDataTo 1 (Some [1; 2; 3; 4]) 4 10 true (Notification_of_d0 0)
            (world_of (sender_and_receiver init_world)) = Ret pdTRUE w'
      ∧ trace w' = trace (world_of (sender_and_receiver init_world))
          ++ [Ev_xSemaphoreTake 1 10; Ev_xRingbufferSend 1 [1; 2; 3; 4] 10;
              Ev_xQueueGenericSend 1 (Notification_of_d0 0) portMAX_DELAY
                queueSEND_TO_BACK; Ev_xSemaphoreGive 1].
Proof.
  split; [discriminate|]. split; [reflexivity|]. split; [reflexivity|].
  split; [reflexivity|]. split; [cbn; lia|]. split; [discriminate|].
  destruct (sendDataTo_notification_leg_unbounded
              (world_of (sender_and_receiver init_world)) 1
              (receiver_object false) (receiver_part false) [1; 2; 3; 4] 4 10
              (Notification_of_d0 0))
    as (t & rb & Hsend & Hrun);
    [discriminate|reflexivity|reflexivity|reflexivity|cbn; lia|discriminate|].
  injection Hsend as <- _. exact Hrun.
Defined.

(** C8: when the lock is not acquired within the timeout the call logs an
    error and returns [pdFALSE], the objects untouched.  When it is
    acquired, the call returns exactly when neither the push nor the
    notification waits for ever: it then returns what the push returned,
    having given the lock back once, as its last act, and the lock is
    free; when the push or the notification waits for ever the lock stays
    taken.  A push with a finite timeout does not wait for ever. *)
Theorem sendDataTo_lock
    (w : World) (dest : Z) (o : TaskObject) (r : RTaskPart)
    (bytes : list Z) (size ticktowait : Z) (usenotif : bool) (notification : Notification_t) :
  dest ≠ 0 →
  heap w !! dest = Some o →
  rtask o = Some r →
  size ≤ Z.of_nat (length bytes) →
  let call := RTask.sendDataTo dest (Some bytes) size ticktowait usenotif notification w in
  let payload := take (Z.to_nat size) bytes in
  let push := xRingbufferSend (receiving_buff r) payload ticktowait in
  let pushed := [Ev_xSemaphoreTake dest ticktowait;
                 Ev_xRingbufferSend dest payload ticktowait] in
  let notified := [Ev_xQueueGenericSend dest notification portMAX_DELAY queueSEND_TO_BACK] in
  (mutex_receiving_buff r = true → ticktowait ≠ portMAX_DELAY →
     call = Ret pdFALSE
              {| heap := heap w; ntask_list := ntask_list w; next_addr := next_addr w;
                 trace := trace w ++
                   [Ev_xSemaphoreTake dest ticktowait;
                    ESP_LOGE RTASK_LOG_TAG "Unable to take RingBuffer Semaphore of RTask %s"
                      [ArgS (m_taskName o)]] |})
  ∧ (mutex_receiving_buff r = false →
       (∀ t rb, push = Done (t, rb) →
          (usenotif = true → q_full (notification_queue o) = false) →
          ∃ w', call = Ret t w'
            ∧ trace w' = trace w ++ pushed ++ (if usenotif then notified else [])
                           ++ [Ev_xSemaphoreGive dest]
            ∧ lock_of w' dest = Some false
            ∧ ringbuf_of w' dest = Some rb
            ∧ mailbox_of w' dest
              = q_items (notification_queue o) ++ (if usenotif then [notification] else []))
       ∧ (∀ t rb, push = Done (t, rb) →
          usenotif = true → q_full (notification_queue o) = true →
          ∃ w', call = Block w'
            ∧ trace w' = trace w ++ pushed ++ notified
            ∧ lock_of w' dest = Some true)
       ∧ (push = Forever →
          ∃ w', call = Block w'
            ∧ trace w' = trace w ++ pushed
            ∧ lock_of w' dest = Some true)
       ∧ (ticktowait ≠ portMAX_DELAY → ∃ t rb, push = Done (t, rb))).
Proof.
  intros Hdest Hlive Hr Hsize call payload push pushed notified.
  subst call payload push pushed notified.
  assert ((size <=? Z.of_nat (length bytes)) = true) as Hsz by lia.
  unfold RTask.sendDataTo, RTask.on_mutex_receiving_buff, RTask.on_receiving_buff,
    RTask.read_bytes, NTask.sendNotificationTo, Task.getName, on_rtask, on_queue,
    xSemaphoreTake, xQueueGenericSend, q_insert, lock_of, ringbuf_of, mailbox_of.
  rewrite (Zeqb_ne _ _ Hdest). split.
  - intros Hheld Hticks. rewrite (Zeqb_ne _ _ Hticks). step.
    rewrite <- Hheld, RTaskPart_eta, (set_rtask_same _ _ Hr), (insert_id _ _ _ Hlive).
    rewrite <- app_assoc. reflexivity.
  - intros Hfree. split; [|split; [|split]].
    + intros t rb Hsend Hroom. destruct usenotif.
      * specialize (Hroom eq_refl).
        change (queueSEND_TO_BACK =? queueSEND_TO_BACK) with true.
        step. eexists. split; [reflexivity|].
        cbn [heap trace]. rewrite !lookup_insert_eq.
        cbn [mbind option_bind rtask set_rtask set_notification_queue receiving_buff
             mutex_receiving_buff xSemaphoreGive notification_queue q_items].
        rewrite <- !app_assoc. done.
      * step. eexists. split; [reflexivity|].
        cbn [heap trace]. rewrite !lookup_insert_eq.
        cbn [mbind option_bind rtask set_rtask set_notification_queue receiving_buff
             mutex_receiving_buff xSemaphoreGive notification_queue q_items].
        rewrite <- !app_assoc, app_nil_r. done.
    + intros t rb Hsend -> Hfull. step. eexists. split; [reflexivity|].
      cbn [heap trace]. rewrite !lookup_insert_eq.
      cbn [mbind option_bind rtask set_rtask receiving_buff mutex_receiving_buff].
      rewrite <- !app_assoc. done.
    + intros Hsend. step. eexists. split; [reflexivity|].
      cbn [heap trace]. rewrite !lookup_insert_eq.
      cbn [mbind option_bind rtask set_rtask receiving_buff mutex_receiving_buff].
      rewrite <- !app_assoc. done.
    + intros Hticks. unfold xRingbufferSend. rewrite (Zeqb_ne _ _ Hticks).
      repeat case_match; eauto.
Qed.

Lemma sendDataTo_lock_witness :
  (1 ≠ 0
   ∧ heap (world_of (lock_held init_world)) !! 1 = Some (receiver_object true)
   ∧ rtask (receiver_object true) = Some (receiver_part true)
   ∧ 4 ≤ Z.of_nat (length [1; 2; 3; 4])
   ∧ mutex_receiving_buff (receiver_part true) = true
   ∧ 10 ≠ portMAX_DELAY
   ∧ RTask.sendDataTo 1 (Some [1; 2; 3; 4]) 4 10 true (Notification_of_d0 0)
       (world_of (lock_held init_world))
     = Ret pdFALSE
         {| heap := heap (world_of (lock_held init_world));
            ntask_list := ntask_list (world_of (lock_held init_world));
            next_addr := next_addr (world_of (lock_held init_world));
            trace := trace (world_of (lock_held init_world)) ++
              [Ev_xSemaphoreTake 1 10;
               ESP_LOGE RTASK_LOG_TAG "Unable to take RingBuffer Semaphore of RTask %s"
                 [ArgS "dest"]] |})
  ∧ (heap (world_of (sender_and_receiver init_world)) !! 1 = Some (receiver_object false)
     ∧ rtask (receiver_object false) = Some (receiver_part false)
     ∧ mutex_receiving_buff (receiver_part false) = false
     ∧ ∃ rb w',
         xRingbufferSend (receiving_buff (receiver_part false)) [1; 2; 3; 4] 10
           = Done (pdTRUE, rb)
         ∧ RTask.sendDataTo 1 (Some [1; 2; 3; 4]) 4 10 true (Notification_of_d0 0)
             (world_of (sender_and_receiver init_world)) = Ret pdTRUE w'
         ∧ trace w' = trace (world_of (sender_and_receiver init_world)) ++
             [Ev_xSemaphoreTake 1 10; Ev_xRingbufferSend 1 [1; 2; 3; 4] 10]
             ++ [Ev_xQueueGenericSend 1 (Notification_of_d0 0) portMAX_DELAY
                   queueSEND_TO_BACK]
             ++ [Ev_xSemaphoreGive 1]
         ∧ lock_of w' 1 = Some false
         ∧ ringbuf_of w' 1 = Some rb
         ∧ mailbox_of w' 1
           = q_items (notification_queue (receiver_object false)) ++ [Notification_of_d0 0]).
Proof.
  split.
  - split; [discriminate|]. split; [reflexivity|]. split; [reflexivity|].
    split; [cbn; lia|]. split; [reflexivity|]. split; [discriminate|].
    apply (sendDataTo_lock (world_of (lock_held init_world)) 1
             (receiver_object true) (receiver_part true) [1; 2; 3; 4] 4 10 true
             (Notification_of_d0 0));
      [discriminate|reflexivity|reflexivity|cbn; lia|reflexivity|discriminate].
  - split; [reflexivity|]. split; [reflexivity|]. split; [reflexivity|].
    pose proof (sendDataTo_lock (world_of (sender_and_receiver init_world)) 1
                  (receiver_object false) (receiver_part false) [1; 2; 3; 4] 4 10 true
                  (Notification_of_d0 0)) as Hlock.
    cbv zeta in Hlock.
    destruct Hlock as [_ Hfree];
      [discriminate|reflexivity|reflexivity|cbn; lia|].
    destruct (Hfree eq_refl) as (Hret & _).
    destruct (Hret pdTRUE
                {| rb_size := 128;
                   rb_items := [{| item_ptr := 1; item_data := [1; 2; 3; 4] |}];
                   rb_borrowed := []; rb_next := 2 |}
                eq_refl (fun _ => eq_refl)) as (w' & Hcall).
    eexists _, w'. split; [reflexivity|]. exact Hcall.
Defined.

(** C1 fails: the notification is sent whatever the push returned.  A
    payload the ring buffer cannot take is not enqueued, the call returns
    [pdFALSE], and the receiver woken by the notification finds no item. *)
Theorem sendDataTo_notifies_without_payload :
  result_of (oversized_send init_world)
  = Some (pdFALSE, {| Identifier := {| type := 3; ID := 2 |}; value := 5 |}, (0, 0)).
Proof. vm_compute. reflexivity. Qed.

(** The same with a buffer that is full: of three payloads of 40 bytes the
    128-byte buffer takes two, the third call returns [pdFALSE], and the
    third notification finds no item. *)
Lemma third_notification_without_payload :
  result_of (three_sends init_world) = Some (pdFALSE, (0, 0)).
Proof. vm_compute. reflexivity. Qed.

(** ** The work queue *)

(** C10: the [coreID] argument is dropped; the queue is constructed with
    core 0. *)
Theorem WorkQueue_core_affinity (w : World)
    (stackSize priority workQueueLength coreID : Z) :
  wf w →
  0 < workQueueLength →
  ∃ this w' o,
    WorkQueue.WorkQueue stackSize priority workQueueLength coreID w = Ret this w'
    ∧ heap w' !! this = Some o ∧ m_coreId o = 0
    ∧ Task.getCore this w' = Ret 0 w'
    ∧ WorkQueue.WorkQueue stackSize priority workQueueLength coreID w
      = WorkQueue.WorkQueue stackSize priority workQueueLength 0 w.
Proof.
  intros Hwf Hlen. unfold WorkQueue.WorkQueue.
  destruct (RTask_spec w NTASK_TYPE_NOTIF_WORK_QUEU "workQueue" stackSize priority 0
              workQueueLength ((WorkQueue.sizeof_WorkItem + 8) * workQueueLength) Hwf)
    as (id & w' & Hrun & Hh & _); [unfold WorkQueue.sizeof_WorkItem; lia|].
  eexists _, w', _. split; [exact Hrun|].
  assert (heap w' !! next_addr w = Some (RTask_object NTASK_TYPE_NOTIF_WORK_QUEU "workQueue"
            stackSize priority 0 workQueueLength
            ((WorkQueue.sizeof_WorkItem + 8) * workQueueLength) id)) as Hobj
    by (rewrite Hh; apply lookup_insert_eq).
  split; [exact Hobj|]. split; [reflexivity|]. split; [|reflexivity].
  unfold Task.getCore. step. reflexivity.
Qed.

Lemma WorkQueue_core_affinity_witness :
  wf init_world ∧ 0 < 3
  ∧ ∃ this w' o,
      WorkQueue.WorkQueue 5000 3 3 1 init_world = Ret this w'
      ∧ heap w' !! this = Some o ∧ m_coreId o = 0
      ∧ Task.getCore this w' = Ret 0 w'
      ∧ WorkQueue.WorkQueue 5000 3 3 1 init_world = WorkQueue.WorkQueue 5000 3 3 0 init_world.
Proof.
  split; [exact wf_init_world|]. split; [lia|].
  apply (WorkQueue_core_affinity init_world 5000 3 3 1); [exact wf_init_world|lia].
Defined.

(** C2 fails: [sendWork] sets the raw word of the notification to
    [NOTIFICATION_WORK_IN_QUEUE], which leaves its value field 0; the loop
    compares the value field, logs an invalid notification and neither
    takes the descriptor nor runs the job nor notifies the reply target. *)
Theorem sendWork_job_never_runs :
  let w := world_of (submitted_work init_world) in
  result_of (submitted_work init_world) = Some (1, 2)
  ∧ List.filter is_work_function (trace w) = []
  ∧ mailbox_of w 1 = []
  ∧ ringbuf_of w 1 = Some (xRingbufferCreate 128)
  ∧ (rb_items <$> ringbuf_of w 2)
    = Some [{| item_ptr := 1; item_data := WorkQueue.WorkItem_bytes (double_job 1) |}]
  ∧ last (trace w)
    = Some (ESP_LOGE WORKQ_LOG_TAG "%X : Invalide notif received from %X:%X"
              [ArgZ 1; ArgZ 1; ArgZ 0]).
Proof. vm_compute. repeat split. Qed.

(** What the loop does for the same job when the value field of the
    notification is [NOTIFICATION_WORK_IN_QUEUE]: the job runs once, the
    reply target gets its result and one notification, the result is freed. *)
Lemma announced_work_runs_once :
  let w := world_of (announced_work init_world) in
  result_of (announced_work init_world) = Some (1, 2)
  ∧ List.filter is_work_function (trace w) = [Ev_work_function 0x400d1000 21]
  ∧ mailbox_of w 1 = [{| Identifier := {| type := 254; ID := 1 |}; value := 7 |}]
  ∧ (rb_items <$> ringbuf_of w 1) = Some [{| item_ptr := 1; item_data := [42; 0; 0; 0] |}]
  ∧ List.filter is_return_item (trace w) = [Ev_vRingbufferReturnItem 2 1]
  ∧ last (trace w) = Some (Ev_free [42; 0; 0; 0]).
Proof. vm_compute. repeat split. Qed.

(** C6 fails in one respect: on a size mismatch the loop logs the error and
    goes on, without calling any job function, but it does not return the
    item it received; the item stays borrowed. *)
Theorem size_mismatch_item_not_returned :
  let w := world_of (wrong_size_work init_world) in
  result_of (wrong_size_work init_world) = Some (1, 2)
  ∧ List.filter is_return_item (trace w) = []
  ∧ List.filter is_work_function (trace w) = []
  ∧ ringbuf_of w 2
    = Some {| rb_size := 72; rb_items := [];
              rb_borrowed := [{| item_ptr := 1; item_data := [1; 2; 3; 4] |}];
              rb_next := 2 |}
  ∧ last (trace w)
    = Some (ESP_LOGE WORKQ_LOG_TAG
              "%X : Invalide size of received WorkItem from %X:%X : %db instead of %db"
              [ArgZ 1; ArgZ 3; ArgZ 1; ArgZ 4; ArgZ 16]).
Proof. vm_compute. repeat split. Qed.


(** * Further properties *)

(** ** The two unions *)

(** A field below bit [k] and a field shifted up to bit [k] share no bit. *)
Lemma lor_shiftl_add (a b k : Z) :
  0 ≤ k → 0 ≤ a < 2 ^ k → Z.lor a (Z.shiftl b k) = a + b * 2 ^ k.
Proof.
  intros Hk Ha.
  assert (Z.land a (Z.shiftl b k) = 0) as Hdisj.
  { apply Z.bits_inj'. intros n Hn. rewrite Z.land_spec, Z.bits_0.
    destruct (decide (n < k)) as [Hlt|Hge].
    - rewrite Z.shiftl_spec_low by lia. apply andb_false_r.
    - destruct (decide (a = 0)) as [->|Hne]; [by rewrite Z.bits_0|].
      rewrite (Z.bits_above_log2 a n); [done|lia|].
      assert (Z.log2 a < k) by (apply Z.log2_lt_pow2; lia). lia. }
  rewrite <- Z.lxor_lor by done. rewrite <- Z.add_nocarry_lxor by done.
  by rewrite Z.shiftl_mul_pow2.
Qed.

Lemma w_id_add (i : Identifier_t) :
  in_range i → w_id i = type i + ID i * 256.
Proof.
  intros [Ht Hc]. unfold w_id. rewrite !land_255_small by lia.
  rewrite lor_shiftl_add; [done|lia|]. change (2 ^ 8) with 256. lia.
Qed.

(** X1: an identifier and its 16-bit key determine each other. *)
Theorem identifier_key_faithful (i j : Identifier_t) :
  in_range i → in_range j →
  Identifier_of_w_id (w_id i) = i
  ∧ 0 ≤ w_id i < 65536
  ∧ (w_id i = w_id j ↔ i = j).
Proof.
  intros Hi Hj. split; [by apply Identifier_of_w_id_w_id|]. split.
  - rewrite w_id_add by done. destruct Hi. lia.
  - split; [by apply w_id_inj|by intros ->].
Qed.

Lemma identifier_key_faithful_witness :
  in_range {| type := 3; ID := 2 |} ∧ in_range {| type := 254; ID := 1 |}
  ∧ Identifier_of_w_id (w_id {| type := 3; ID := 2 |}) = {| type := 3; ID := 2 |}
  ∧ 0 ≤ w_id {| type := 3; ID := 2 |} < 65536
  ∧ (w_id {| type := 3; ID := 2 |} = w_id {| type := 254; ID := 1 |}
     ↔ {| type := 3; ID := 2 |} = {| type := 254; ID := 1 |}).
Proof.
  assert (in_range {| type := 3; ID := 2 |}) as H1 by (unfold in_range; cbn; lia).
  assert (in_range {| type := 254; ID := 1 |}) as H2 by (unfold in_range; cbn; lia).
  split; [exact H1|]. split; [exact H2|].
  exact (identifier_key_faithful _ _ H1 H2).
Defined.

(** X2: a notification and its raw 32-bit word determine each other. *)
Theorem notification_word_round_trip (n : Notification_t) (x : Z) :
  in_range (Identifier n) → 0 ≤ value n < 65536 → 0 ≤ x < 2 ^ 32 →
  Notification_of_d0 (d0 n) = n
  ∧ 0 ≤ d0 n < 2 ^ 32
  ∧ d0 (Notification_of_d0 x) = x.
Proof.
  intros Hi Hv Hx.
  assert (∀ y, Z.land y 0xffff = y mod 65536) as Hland16.
  { intros y. change 0xffff with (Z.ones 16). by rewrite Z.land_ones. }
  assert (∀ y, Z.land y 0xff = y mod 256) as Hland8.
  { intros y. change 0xff with (Z.ones 8). by rewrite Z.land_ones. }
  assert (d0 n = type (Identifier n) + ID (Identifier n) * 256 + value n * 65536) as Hd0.
  { unfold d0. rewrite Hland16, (Z.mod_small (value n)) by lia.
    pose proof (w_id_add _ Hi) as Hw. destruct Hi as [Ht Hc].
    rewrite lor_shiftl_add; [rewrite Hw; change (2 ^ 16) with 65536; lia|lia|].
    rewrite Hw. change (2 ^ 16) with 65536. lia. }
  split; [|split].
  - rewrite Hd0. destruct n as [[t c] v]. destruct Hi as [Ht Hc]. cbn in *.
    unfold Notification_of_d0, Identifier_of_w_id.
    rewrite !Z.shiftr_div_pow2 by lia. rewrite !Hland16, !Hland8.
    change (2 ^ 16) with 65536. change (2 ^ 8) with 256.
    f_equal; [f_equal|]; Z.to_euclidean_division_equations; lia.
  - rewrite Hd0. destruct Hi as [Ht Hc]. lia.
  - unfold d0, Notification_of_d0, Identifier_of_w_id, w_id. cbn [Identifier value type ID].
    rewrite !Z.shiftr_div_pow2 by lia. rewrite !Hland16, !Hland8.
    change (2 ^ 16) with 65536. change (2 ^ 8) with 256.
    assert (0 ≤ x mod 65536 mod 256 mod 256 < 2 ^ 8) as H8
      by (change (2 ^ 8) with 256; apply Z.mod_pos_bound; lia).
    rewrite (lor_shiftl_add (x mod 65536 mod 256 mod 256) _ 8) by (done || lia).
    rewrite lor_shiftl_add; [|lia|].
    + change (2 ^ 16) with 65536. change (2 ^ 8) with 256.
      change (2 ^ 32) with 4294967296 in Hx.
      Z.to_euclidean_division_equations; lia.
    + change (2 ^ 16) with 65536. change (2 ^ 8) with 256.
      Z.to_euclidean_division_equations; lia.
Qed.

Lemma notification_word_round_trip_witness :
  in_range {| type := 3; ID := 2 |} ∧ 0 ≤ 7 < 65536 ∧ 0 ≤ 1 < 2 ^ 32
  ∧ Notification_of_d0 (d0 {| Identifier := {| type := 3; ID := 2 |}; value := 7 |})
    = {| Identifier := {| type := 3; ID := 2 |}; value := 7 |}
  ∧ 0 ≤ d0 {| Identifier := {| type := 3; ID := 2 |}; value := 7 |} < 2 ^ 32
  ∧ d0 (Notification_of_d0 1) = 1.
Proof.
  assert (in_range {| type := 3; ID := 2 |}) as H1 by (unfold in_range; cbn; lia).
  split; [exact H1|]. split; [lia|]. split; [lia|].
  apply (notification_word_round_trip
           {| Identifier := {| type := 3; ID := 2 |}; value := 7 |} 1); [exact H1|cbn; lia|lia].
Defined.

(** ** The directory *)

(** X3: [isIDTaken] answers whether an entry of the directory has the key
    of the identifier, when the entries designate live objects; it changes
    nothing. *)
Theorem isIDTaken_iff_entry (w : World) (i : Identifier_t) :
  (∀ p, p ∈ ntask_list w → is_Some (heap w !! p)) →
  ∃ b, NTask.isIDTaken i w = Ret b w
       ∧ (b = true ↔ taken (heap w) (ntask_list w) i).
Proof.
  intros Hlive. unfold NTask.isIDTaken. step.
  by apply isIDTaken_from_spec.
Qed.

Lemma isIDTaken_iff_entry_witness :
  (∀ p, p ∈ ntask_list (world_of two_tasks) → is_Some (heap (world_of two_tasks) !! p))
  ∧ ∃ b, NTask.isIDTaken {| type := 3; ID := 2 |} (world_of two_tasks)
         = Ret b (world_of two_tasks)
       ∧ (b = true ↔ taken (heap (world_of two_tasks)) (ntask_list (world_of two_tasks))
                        {| type := 3; ID := 2 |}).
Proof.
  split; [exact (wf_live _ two_tasks_wf)|].
  exact (isIDTaken_iff_entry (world_of two_tasks) {| type := 3; ID := 2 |}
           (wf_live _ two_tasks_wf)).
Defined.

(** X4: in a well-formed store the [NTask] constructor, given a core and
    a mailbox length that fit their 8-bit parameters, the length not 0,
    returns a new non-null object, puts it last in the directory, gives it
    the core and the type it was passed and an empty mailbox of the length
    asked for, leaves every other object as it is and keeps the store
    well-formed. *)
Theorem NTask_construction_registers (w : World) (ntype : Z) (taskName : string)
    (stackSize priority coreId notification_queue_size : Z) :
  wf w →
  0 ≤ coreId < 256 →
  0 < notification_queue_size < 256 →
  ∃ this w' o,
    NTask.NTask ntype taskName stackSize priority coreId notification_queue_size w
      = Ret this w'
    ∧ this ≠ 0 ∧ heap w !! this = None
    ∧ ntask_list w' = ntask_list w ++ [this]
    ∧ heap w' !! this = Some o
    ∧ m_coreId o = coreId ∧ m_taskName o = taskName
    ∧ type (identifier o) = Z.land ntype 0xff
    ∧ notification_queue o = xQueueCreate notification_queue_size
    ∧ rtask o = None
    ∧ (∀ p, p ≠ this → heap w' !! p = heap w !! p)
    ∧ wf w'.
Proof.
  intros Hwf Hcore Hlen.
  destruct (NTask_spec w ntype taskName stackSize priority coreId notification_queue_size Hwf)
    as (id & w' & Hrun & Hh & Hl & Hn & Hid).
  exists (next_addr w), w', (NTask_object ntype taskName stackSize priority coreId
                               notification_queue_size id).
  split; [done|]. split; [pose proof (wf_next_pos w Hwf); lia|].
  split; [by apply wf_next_free|]. split; [done|].
  split; [rewrite Hh; apply lookup_insert_eq|].
  do 5 (split; [reflexivity|]). split.
  - intros p Hp. rewrite Hh. by apply lookup_insert_ne.
  - by eapply NTask_wf.
Qed.

Lemma NTask_construction_registers_witness :
  wf (world_of two_tasks) ∧ 0 ≤ 1 < 256 ∧ 0 < 4 < 256
  ∧ ∃ this w' o,
      NTask.NTask 3 "Task" 10000 2 1 4 (world_of two_tasks) = Ret this w'
      ∧ this ≠ 0 ∧ heap (world_of two_tasks) !! this = None
      ∧ ntask_list w' = ntask_list (world_of two_tasks) ++ [this]
      ∧ heap w' !! this = Some o
      ∧ m_coreId o = 1 ∧ m_taskName o = "Task"
      ∧ type (identifier o) = Z.land 3 0xff
      ∧ notification_queue o = xQueueCreate 4
      ∧ rtask o = None
      ∧ (∀ p, p ≠ this → heap w' !! p = heap (world_of two_tasks) !! p)
      ∧ wf w'.
Proof.
  split; [exact two_tasks_wf|]. split; [lia|]. split; [lia|].
  apply (NTask_construction_registers (world_of two_tasks) 3 "Task" 10000 2 1 4 two_tasks_wf);
    lia.
Defined.

(** X5: the destructor of a registered object takes its entry out of the
    directory and leaves the other entries in their order, ends the object,
    logs nothing and keeps the store well-formed. *)
Theorem destruction_removes_own_entry (w : World) (this : Z) :
  wf w → this ∈ ntask_list w →
  ∃ pre post w',
    ntask_list w = pre ++ this :: post
    ∧ NTask.dtor this w = Ret tt w'
    ∧ ntask_list w' = pre ++ post
    ∧ (this ∉ ntask_list w')
    ∧ heap w' = delete this (heap w)
    ∧ trace w' = trace w
    ∧ wf w'.
Proof.
  intros Hwf Hin.
  destruct (wf_live w Hwf this Hin) as [o Ho].
  destruct (list_elem_of_split_l _ _ Hin) as (pre & post & Heq & Hpre).
  pose proof (dtor_present w this o pre post Ho Heq Hpre) as Hrun.
  eexists pre, post, _. split; [done|]. split; [exact Hrun|].
  cbn [heap ntask_list trace]. split; [done|]. split.
  { pose proof (wf_nodup w Hwf) as Hnd. rewrite Heq in Hnd.
    intros Hin'. by destruct (NoDup_middle_out pre post this this Hnd Hin'). }
  split; [done|]. split; [done|]. by eapply dtor_wf.
Qed.

Lemma destruction_removes_own_entry_witness :
  wf (world_of two_tasks) ∧ 1 ∈ ntask_list (world_of two_tasks)
  ∧ ∃ pre post w',
      ntask_list (world_of two_tasks) = pre ++ 1 :: post
      ∧ NTask.dtor 1 (world_of two_tasks) = Ret tt w'
      ∧ ntask_list w' = pre ++ post
      ∧ (1 ∉ ntask_list w')
      ∧ heap w' = delete 1 (heap (world_of two_tasks))
      ∧ trace w' = trace (world_of two_tasks)
      ∧ wf w'.
Proof.
  assert (1 ∈ ntask_list (world_of two_tasks)) as Hin
    by (apply (list_elem_of_lookup_2 _ 0%nat); reflexivity).
  split; [exact two_tasks_wf|]. split; [exact Hin|].
  exact (destruction_removes_own_entry (world_of two_tasks) 1 two_tasks_wf Hin).
Defined.

Lemma assigned_functional (w1 w2 w1' w2' : World) (ntype id1 id2 : Z) :
  heap w1 = heap w2 → ntask_list w1 = ntask_list w2 →
  assigned w1 ntype id1 w1' → assigned w2 ntype id2 w2' → id1 = id2.
Proof.
  intros Hh Hl H1 H2. unfold assigned in *. rewrite Hh, Hl in H1.
  destruct H1 as [(Hr1 & Hf1 & Hb1 & _)|(-> & Hall1 & _)];
    destruct H2 as [(Hr2 & Hf2 & Hb2 & _)|(-> & Hall2 & _)].
  - destruct (Z.lt_trichotomy id1 id2) as [Hlt|[Heq|Hgt]]; [|done|].
    + exfalso. apply Hf1, Hb2. lia.
    + exfalso. apply Hf2, Hb1. lia.
  - exfalso. apply Hf1, Hall2. lia.
  - exfalso. apply Hf2, Hall1. lia.
  - done.
Qed.

(** X6: the id of a destroyed object is free again: an object of a type is
    constructed and destroyed, and the next object of that type gets the
    same id; the directory is then what it was after the first
    construction, with the new object in the place of the destroyed one. *)
Theorem destroyed_id_is_reused (w : World) (ntype : Z) (a b : CtorArgs) :
  wf w →
  ∃ p w1 w2 q w3,
    construct ntype a w = Ret p w1
    ∧ NTask.dtor p w1 = Ret tt w2
    ∧ construct ntype b w2 = Ret q w3
    ∧ id_of w3 q = id_of w1 p
    ∧ ntask_list w1 = ntask_list w ++ [p]
    ∧ ntask_list w2 = ntask_list w
    ∧ ntask_list w3 = ntask_list w ++ [q].
Proof.
  intros Hwf. unfold construct.
  destruct (NTask_spec w ntype (a_taskName a) (a_stackSize a) (a_priority a) (a_coreId a)
              (a_notification_queue_size a) Hwf) as (id1 & w1 & Hrun1 & Hh1 & Hl1 & Hn1 & Hid1).
  pose proof (NTask_wf _ _ _ _ _ _ _ _ _ Hwf Hrun1) as Hwf1.
  assert (heap w1 !! next_addr w = Some (NTask_object ntype (a_taskName a) (a_stackSize a)
            (a_priority a) (a_coreId a) (a_notification_queue_size a) id1)) as Hobj1
    by (rewrite Hh1; apply lookup_insert_eq).
  assert (next_addr w ∉ ntask_list w) as Hfresh.
  { intros Hin. pose proof (wf_entry_below w _ Hwf Hin). lia. }
  pose proof (dtor_present w1 (next_addr w) _ (ntask_list w) [] Hobj1 Hl1 Hfresh) as Hrun2.
  set (w2 := {| heap := delete (next_addr w) (heap w1); ntask_list := ntask_list w ++ [];
                next_addr := next_addr w1; trace := trace w1 |}) in *.
  pose proof (dtor_wf _ _ _ Hwf1 Hrun2) as Hwf2.
  destruct (NTask_spec w2 ntype (a_taskName b) (a_stackSize b) (a_priority b) (a_coreId b)
              (a_notification_queue_size b) Hwf2) as (id2 & w3 & Hrun3 & Hh3 & Hl3 & Hn3 & Hid3).
  exists (next_addr w), w1, w2, (next_addr w2), w3.
  split; [done|]. split; [done|]. split; [done|].
  split; [|split; [done|split; [cbn [w2 ntask_list]; apply app_nil_r|]]].
  - rewrite (id_of_lookup _ _ _ Hobj1).
    erewrite id_of_lookup; [|rewrite Hh3; apply lookup_insert_eq].
    cbn [NTask_object identifier ID].
    apply (assigned_functional w2 w w3 w1 ntype id2 id1); [| |done|done].
    + cbn [w2 heap]. rewrite Hh1. apply delete_insert_id. by apply wf_next_free.
    + cbn [w2 ntask_list]. apply app_nil_r.
  - rewrite Hl3. cbn [w2 ntask_list]. by rewrite app_nil_r.
Qed.

Lemma destroyed_id_is_reused_witness :
  wf (world_of two_tasks)
  ∧ ∃ p w1 w2 q w3,
      construct 3 default_args (world_of two_tasks) = Ret p w1
      ∧ NTask.dtor p w1 = Ret tt w2
      ∧ construct 3 default_args w2 = Ret q w3
      ∧ id_of w3 q = id_of w1 p
      ∧ ntask_list w1 = ntask_list (world_of two_tasks) ++ [p]
      ∧ ntask_list w2 = ntask_list (world_of two_tasks)
      ∧ ntask_list w3 = ntask_list (world_of two_tasks) ++ [q].
Proof.
  split; [exact two_tasks_wf|].
  exact (destroyed_id_is_reused (world_of two_tasks) 3 default_args default_args two_tasks_wf).
Defined.

(** X7: [getNTaskByIdentifier] returns the first entry of the directory
    whose key is that of the identifier, the store unchanged; when no entry
    has the key it logs one error and returns [nullptr].  It reads only. *)
Theorem lookup_returns_first_match (w : World) (i : Identifier_t) :
  (∀ p, p ∈ ntask_list w → is_Some (heap w !! p)) →
  (∃ pre p post o, ntask_list w = pre ++ p :: post
     ∧ heap w !! p = Some o ∧ w_id (identifier o) = w_id i
     ∧ ¬ taken (heap w) pre i
     ∧ NTask.getNTaskByIdentifier i w = Ret p w)
  ∨ (¬ taken (heap w) (ntask_list w) i
     ∧ NTask.getNTaskByIdentifier i w = Ret 0 (log_not_found i w)).
Proof.
  intros Hlive. unfold NTask.getNTaskByIdentifier. step.
  by apply getNTaskByIdentifier_from_spec.
Qed.

Lemma lookup_returns_first_match_witness :
  (∀ p, p ∈ ntask_list (world_of two_tasks) → is_Some (heap (world_of two_tasks) !! p))
  ∧ ((∃ pre p post o, ntask_list (world_of two_tasks) = pre ++ p :: post
        ∧ heap (world_of two_tasks) !! p = Some o
        ∧ w_id (identifier o) = w_id {| type := 3; ID := 9 |}
        ∧ ¬ taken (heap (world_of two_tasks)) pre {| type := 3; ID := 9 |}
        ∧ NTask.getNTaskByIdentifier {| type := 3; ID := 9 |} (world_of two_tasks)
          = Ret p (world_of two_tasks))
     ∨ (¬ taken (heap (world_of two_tasks)) (ntask_list (world_of two_tasks))
            {| type := 3; ID := 9 |}
        ∧ NTask.getNTaskByIdentifier {| type := 3; ID := 9 |} (world_of two_tasks)
          = Ret 0 (log_not_found {| type := 3; ID := 9 |} (world_of two_tasks)))).
Proof.
  split; [exact (wf_live _ two_tasks_wf)|].
  exact (lookup_returns_first_match (world_of two_tasks) {| type := 3; ID := 9 |}
           (wf_live _ two_tasks_wf)).
Defined.


Lemma getNTaskByType_from_spec (w : World) (l : list Z) (type0 : Z) (list0 : list Z) :
  (∀ p, p ∈ l → is_Some (heap w !! p)) →
  NTask.getNTaskByType_from l type0 list0 w
  = Ret (list0 ++ List.filter (has_type w type0) l) w.
Proof.
  revert list0. induction l as [|p l IH]; intros list0 Hlive;
    cbn [NTask.getNTaskByType_from List.filter].
  - by rewrite app_nil_r.
  - destruct (Hlive p) as [o Ho]; [by left|].
    assert (∀ q, q ∈ l → is_Some (heap w !! q)) as Hlive' by (intros q Hq; apply Hlive; by right).
    step. unfold has_type at 1. rewrite Ho.
    destruct (type (identifier o) =? type0).
    + rewrite IH by done. by rewrite <- app_assoc.
    + by apply IH.
Qed.

(** X8: [getNTaskByType] returns the entries of the directory whose object
    has the type, all of them, once each and in the order of the directory;
    it changes nothing. *)
Theorem getNTaskByType_filters (w : World) (type0 : Z) :
  (∀ p, p ∈ ntask_list w → is_Some (heap w !! p)) →
  NTask.getNTaskByType type0 w = Ret (List.filter (has_type w type0) (ntask_list w)) w.
Proof.
  intros Hlive. unfold NTask.getNTaskByType. step.
  by rewrite getNTaskByType_from_spec.
Qed.

Lemma getNTaskByType_filters_witness :
  (∀ p, p ∈ ntask_list (world_of two_tasks) → is_Some (heap (world_of two_tasks) !! p))
  ∧ NTask.getNTaskByType 3 (world_of two_tasks)
    = Ret (List.filter (has_type (world_of two_tasks) 3) (ntask_list (world_of two_tasks)))
        (world_of two_tasks).
Proof.
  split; [exact (wf_live _ two_tasks_wf)|].
  exact (getNTaskByType_filters (world_of two_tasks) 3 (wf_live _ two_tasks_wf)).
Defined.

(** ** Notifications *)

(** X9: a notification addressed to an identifier that no entry of the
    directory has is not sent: the lookup logs its error, the call returns
    [pdFALSE], and no object is touched. *)
Theorem send_to_unknown_identifier (w : World) (this : Z) (o : TaskObject)
    (i : Identifier_t) (notif_value ticktowait : Z) :
  (∀ p, p ∈ ntask_list w → is_Some (heap w !! p)) →
  heap w !! this = Some o →
  ¬ taken (heap w) (ntask_list w) i →
  NTask.sendNotificationTo_identifier this i notif_value ticktowait w
    = Ret pdFALSE (log_not_found i w)
  ∧ NTask.sendNotificationToFrontTo_identifier this i notif_value ticktowait w
    = Ret pdFALSE (log_not_found i w).
Proof.
  intros Hlive Ho Hnone.
  assert (NTask.getNTaskByIdentifier i w = Ret 0 (log_not_found i w)) as Hrun.
  { unfold NTask.getNTaskByIdentifier. step.
    destruct (getNTaskByIdentifier_from_spec w (ntask_list w) i Hlive)
      as [(pre & p & post & o' & Hl & Ho' & Hk & _)|[_ Hrun]]; [|exact Hrun].
    exfalso. apply Hnone. exists p, o'. split; [|done].
    rewrite Hl. apply elem_of_app. right. by left. }
  unfold NTask.sendNotificationTo_identifier, NTask.sendNotificationToFrontTo_identifier,
    NTask.TO_NOTIFICATION, NTask.getIdentifier, NTask.sendNotificationTo.
  split; unfold bind at 1; rewrite Hrun; unfold log_not_found; step; reflexivity.
Qed.

Lemma send_to_unknown_identifier_witness :
  (∀ p, p ∈ ntask_list (world_of two_tasks) → is_Some (heap (world_of two_tasks) !! p))
  ∧ heap (world_of two_tasks) !! 1 = Some (NTask_object 3 "Task" 10000 2 0 NTASK_QUEUE_LENGTH 1)
  ∧ ¬ taken (heap (world_of two_tasks)) (ntask_list (world_of two_tasks))
        {| type := 4; ID := 1 |}
  ∧ NTask.sendNotificationTo_identifier 1 {| type := 4; ID := 1 |} 5 0 (world_of two_tasks)
    = Ret pdFALSE (log_not_found {| type := 4; ID := 1 |} (world_of two_tasks))
  ∧ NTask.sendNotificationToFrontTo_identifier 1 {| type := 4; ID := 1 |} 5 0
      (world_of two_tasks)
    = Ret pdFALSE (log_not_found {| type := 4; ID := 1 |} (world_of two_tasks)).
Proof.
  assert (¬ taken (heap (world_of two_tasks)) (ntask_list (world_of two_tasks))
            {| type := 4; ID := 1 |}) as Hnone.
  { destruct (isIDTaken_from_spec (world_of two_tasks) (ntask_list (world_of two_tasks))
                {| type := 4; ID := 1 |} (wf_live _ two_tasks_wf)) as (b & Hrun & Hspec).
    intros Ht. apply Hspec in Ht. subst b. vm_compute in Hrun. discriminate Hrun. }
  split; [exact (wf_live _ two_tasks_wf)|]. split; [reflexivity|]. split; [exact Hnone|].
  exact (send_to_unknown_identifier (world_of two_tasks) 1 _ {| type := 4; ID := 1 |} 5 0
           (wf_live _ two_tasks_wf) eq_refl Hnone).
Defined.

(** X10: a notification sent to the front of a mailbox that has room
    overtakes what the mailbox holds: it is the next one received, with the
    identifier of the sender and the value, a value that fits 16 bits; after
    the receive the mailbox holds what it held before. *)
Theorem front_notification_received_first (w : World) (this dest : Z)
    (os od : TaskObject) (notif_value ticktowait ticktowait' : Z) :
  dest ≠ 0 →
  heap w !! this = Some os →
  heap w !! dest = Some od →
  q_full (notification_queue od) = false →
  0 ≤ notif_value < 65536 →
  ∃ w',
    (do _ <- NTask.sendNotificationToFrontTo_value this dest notif_value ticktowait;
     NTask.receiveNotification dest ticktowait') w
    = Ret {| Identifier := identifier os; value := notif_value |} w'
    ∧ mailbox_of w' dest = q_items (notification_queue od)
    ∧ ntask_list w' = ntask_list w.
Proof.
  intros Hdest Hs Hd Hroom Hvalue.
  unfold NTask.sendNotificationToFrontTo_value, NTask.TO_NOTIFICATION, NTask.getIdentifier,
    NTask.sendNotificationTo, NTask.receiveNotification, on_queue, xQueueGenericSend,
    xQueueReceive, q_insert.
  rewrite (Zeqb_ne _ _ Hdest). step. cbn [q_items q_length].
  change (queueSEND_TO_FRONT =? queueSEND_TO_BACK) with false. step.
  eexists. split; [reflexivity|]. split; [|reflexivity].
  unfold mailbox_of. cbn [heap]. by rewrite lookup_insert_eq.
Qed.

Lemma front_notification_received_first_witness :
  2 ≠ 0
  ∧ heap (world_of two_waiting) !! 1
    = Some (NTask_object 3 "Task" 10000 2 0 NTASK_QUEUE_LENGTH 1)
  ∧ heap (world_of two_waiting) !! 2 = Some waiting_object
  ∧ q_full (notification_queue waiting_object) = false
  ∧ 0 ≤ 9 < 65536
  ∧ ∃ w',
      (do _ <- NTask.sendNotificationToFrontTo_value 1 2 9 0;
       NTask.receiveNotification 2 0) (world_of two_waiting)
      = Ret {| Identifier := {| type := 3; ID := 1 |}; value := 9 |} w'
      ∧ mailbox_of w' 2
        = [{| Identifier := {| type := 3; ID := 1 |}; value := 5 |};
           {| Identifier := {| type := 3; ID := 1 |}; value := 6 |}]
      ∧ ntask_list w' = ntask_list (world_of two_waiting).
Proof.
  split; [discriminate|]. split; [reflexivity|]. split; [reflexivity|]. split; [reflexivity|].
  split; [lia|].
  apply (front_notification_received_first (world_of two_waiting) 1 2
           (NTask_object 3 "Task" 10000 2 0 NTASK_QUEUE_LENGTH 1) waiting_object 9 0 0);
    [discriminate|reflexivity|reflexivity|reflexivity|lia].
Defined.

(** The sends of [send_each] that find room append to the mailbox. *)
Lemma send_each_spec (this dest : Z) (i : Identifier_t) (ticktowait : Z) (values : list Z) :
  dest ≠ 0 →
  ∀ (w : World) (od : TaskObject),
    heap w !! dest = Some od →
    (∃ os, heap w !! this = Some os ∧ identifier os = i) →
    Z.of_nat (length (q_items (notification_queue od)) + length values)
      ≤ q_length (notification_queue od) →
    ∃ w' od',
      send_each this dest values ticktowait w = Ret (replicate (length values) pdTRUE) w'
      ∧ heap w' !! dest = Some od'
      ∧ q_length (notification_queue od') = q_length (notification_queue od)
      ∧ q_items (notification_queue od')
        = q_items (notification_queue od)
            ++ ((λ v, {| Identifier := i; value := v |}) <$> values).
Proof.
  intros Hdest. induction values as [|v values IH]; intros w od Hd (os & Hs & Hi) Hroom;
    cbn [send_each length replicate fmap list_fmap].
  - exists w, od. split; [done|]. split; [done|]. split; [done|]. by rewrite app_nil_r.
  - cbn [length] in Hroom.
    assert (q_full (notification_queue od) = false) as Hfull
      by (unfold q_full; lia).
    set (n := {| Identifier := i; value := v |}).
    set (od1 := set_notification_queue
                  {| q_length := q_length (notification_queue od);
                     q_items := q_items (notification_queue od) ++ [n] |} od).
    set (w1 := {| heap := <[dest := od1]> (heap w); ntask_list := ntask_list w;
                  next_addr := next_addr w;
                  trace := trace w
                    ++ [Ev_xQueueGenericSend dest n ticktowait queueSEND_TO_BACK] |}).
    assert (NTask.sendNotificationTo_value this dest v ticktowait w = Ret pdTRUE w1) as Hsend.
    { unfold NTask.sendNotificationTo_value, NTask.TO_NOTIFICATION, NTask.getIdentifier,
        NTask.sendNotificationTo, on_queue, xQueueGenericSend, q_insert.
      rewrite (Zeqb_ne _ _ Hdest). step. rewrite Hi.
      change (queueSEND_TO_BACK =? queueSEND_TO_BACK) with true. by step. }
    destruct (IH w1 od1) as (w' & od' & Hrun & Hd' & Hlen & Hitems).
    { cbn [w1 heap]. apply lookup_insert_eq. }
    { cbn [w1 heap]. destruct (decide (this = dest)) as [->|Hne].
      - exists od1. split; [apply lookup_insert_eq|].
        rewrite Hd in Hs. injection Hs as <-. by destruct od.
      - exists os. by rewrite lookup_insert_ne. }
    { cbn [od1 set_notification_queue notification_queue q_items q_length].
      rewrite length_app. cbn [length]. lia. }
    exists w', od'. unfold bind at 1. rewrite Hsend. unfold bind at 1. rewrite Hrun.
    split; [reflexivity|]. split; [exact Hd'|].
    split; [rewrite Hlen; by destruct od|].
    rewrite Hitems. cbn [od1 set_notification_queue notification_queue q_items].
    by rewrite <- app_assoc.
Qed.

(** The receives of [receive_each] take the oldest notifications. *)
Lemma receive_each_spec (dest ticktowait : Z) (items : list Notification_t) :
  ∀ (w : World) (od : TaskObject) (rest : list Notification_t),
    heap w !! dest = Some od →
    q_items (notification_queue od) = items ++ rest →
    ∃ w' od',
      receive_each dest (length items) ticktowait w = Ret items w'
      ∧ heap w' !! dest = Some od'
      ∧ q_items (notification_queue od') = rest.
Proof.
  induction items as [|x items IH]; intros w od rest Hd Hitems; cbn [receive_each length].
  - exists w, od. by repeat split.
  - set (od1 := set_notification_queue
                  {| q_length := q_length (notification_queue od);
                     q_items := items ++ rest |} od).
    set (w1 := {| heap := <[dest := od1]> (heap w); ntask_list := ntask_list w;
                  next_addr := next_addr w;
                  trace := trace w ++ [Ev_xQueueReceive dest ticktowait] |}).
    assert (NTask.receiveNotification dest ticktowait w = Ret x w1) as Hrecv.
    { unfold NTask.receiveNotification, on_queue, xQueueReceive. step.
      rewrite Hitems. cbn [app]. by step. }
    destruct (IH w1 od1 rest) as (w' & od' & Hrun & Hd' & Hrest).
    { cbn [w1 heap]. apply lookup_insert_eq. }
    { by destruct od. }
    exists w', od'. unfold bind at 1. rewrite Hrecv. unfold bind at 1. rewrite Hrun.
    by repeat split.
Qed.

(** X11: the mailbox is first in, first out for notifications sent to its
    back: values that fit 16 bits, sent in a row to a mailbox that has room
    for them all, are each accepted, and the receives that follow return
    first what the mailbox held, oldest first, then the values in the order
    they were sent, each under the identifier of the sender; the mailbox is
    then empty. *)
Theorem mailbox_fifo (w : World) (this dest : Z) (os od : TaskObject)
    (values : list Z) (ticktowait ticktowait' : Z) :
  dest ≠ 0 →
  heap w !! this = Some os →
  heap w !! dest = Some od →
  Forall (λ v, 0 ≤ v < 65536) values →
  Z.of_nat (length (q_items (notification_queue od)) + length values)
    ≤ q_length (notification_queue od) →
  let old := q_items (notification_queue od) in
  let sent := (λ v, {| Identifier := identifier os; value := v |}) <$> values in
  ∃ w',
    (do rs <- send_each this dest values ticktowait;
     do ns <- receive_each dest (length old + length values) ticktowait';
     ret (rs, ns)) w
    = Ret (replicate (length values) pdTRUE, old ++ sent) w'
    ∧ mailbox_of w' dest = [].
Proof.
  intros Hdest Hs Hd Hvalues Hroom old sent. subst old sent.
  destruct (send_each_spec this dest (identifier os) ticktowait values Hdest w od Hd)
    as (w1 & od1 & Hsend & Hd1 & _ & Hitems1); [by exists os|done|].
  destruct (receive_each_spec dest ticktowait'
              (q_items (notification_queue od)
                 ++ ((λ v, {| Identifier := identifier os; value := v |}) <$> values))
              w1 od1 [] Hd1) as (w2 & od2 & Hrecv & Hd2 & Hitems2).
  { by rewrite app_nil_r. }
  rewrite length_app, length_fmap in Hrecv.
  exists w2. unfold bind at 1. rewrite Hsend. unfold bind at 1. rewrite Hrecv.
  split; [reflexivity|]. unfold mailbox_of. by rewrite Hd2.
Qed.

Lemma mailbox_fifo_witness :
  2 ≠ 0
  ∧ heap (world_of two_waiting) !! 1
    = Some (NTask_object 3 "Task" 10000 2 0 NTASK_QUEUE_LENGTH 1)
  ∧ heap (world_of two_waiting) !! 2 = Some waiting_object
  ∧ Forall (λ v, 0 ≤ v < 65536) [7; 8]
  ∧ Z.of_nat (length (q_items (notification_queue waiting_object)) + length [7; 8])
    ≤ q_length (notification_queue waiting_object)
  ∧ ∃ w',
      (do rs <- send_each 1 2 [7; 8] 0;
       do ns <- receive_each 2 4 0;
       ret (rs, ns)) (world_of two_waiting)
      = Ret ([pdTRUE; pdTRUE],
             [{| Identifier := {| type := 3; ID := 1 |}; value := 5 |};
              {| Identifier := {| type := 3; ID := 1 |}; value := 6 |};
              {| Identifier := {| type := 3; ID := 1 |}; value := 7 |};
              {| Identifier := {| type := 3; ID := 1 |}; value := 8 |}]) w'
      ∧ mailbox_of w' 2 = [].
Proof.
  assert (Forall (λ v, 0 ≤ v < 65536) [7; 8]) as Hvalues
    by (repeat constructor; lia).
  assert (Z.of_nat (length (q_items (notification_queue waiting_object)) + length [7; 8])
          ≤ q_length (notification_queue waiting_object)) as Hroom
    by (cbn; unfold NTASK_QUEUE_LENGTH; lia).
  split; [discriminate|]. split; [reflexivity|]. split; [reflexivity|].
  split; [exact Hvalues|]. split; [exact Hroom|].
  exact (mailbox_fifo (world_of two_waiting) 1 2
           (NTask_object 3 "Task" 10000 2 0 NTASK_QUEUE_LENGTH 1) waiting_object [7; 8] 0 0
           ltac:(discriminate) eq_refl eq_refl Hvalues Hroom).
Defined.

(** X12: the two interrupt variants never wait.  On a full mailbox they
    return [errQUEUE_FULL] and leave it as it is; otherwise they return
    [pdTRUE] and put, at the back for the one and at the front for the
    other, the value, which fits 16 bits, under the sender identifier
    (0xff, 0). *)
Theorem isr_send_never_blocks (w : World) (dest : Z) (o : TaskObject) (notif_value : Z) :
  heap w !! dest = Some o →
  0 ≤ notif_value < 65536 →
  let notif := {| Identifier := {| type := 0xff; ID := 0 |}; value := notif_value |} in
  let old := q_items (notification_queue o) in
  ∃ r w1 w2,
    NTask.sendNotificationFromIsrTo dest notif_value w = Ret r w1
    ∧ NTask.sendNotificationToFrontFromIsrTo dest notif_value w = Ret r w2
    ∧ ntask_list w1 = ntask_list w ∧ ntask_list w2 = ntask_list w
    ∧ if q_full (notification_queue o)
      then r = errQUEUE_FULL ∧ mailbox_of w1 dest = old ∧ mailbox_of w2 dest = old
      else r = pdTRUE ∧ mailbox_of w1 dest = old ++ [notif]
           ∧ mailbox_of w2 dest = notif :: old.
Proof.
  intros Hd Hvalue notif old.
  unfold NTask.sendNotificationFromIsrTo, NTask.sendNotificationToFrontFromIsrTo, on_queue,
    xQueueGenericSendFromISR, q_insert, mailbox_of.
  destruct (q_full (notification_queue o)) eqn:Hfull; step.
  - eexists _, _, _. split; [reflexivity|]. split; [reflexivity|].
    cbn [heap ntask_list]. rewrite !lookup_insert_eq. by destruct o.
  - eexists _, _, _. split; [reflexivity|]. split; [reflexivity|].
    cbn [heap ntask_list]. rewrite !lookup_insert_eq. done.
Qed.

Lemma isr_send_never_blocks_witness :
  (heap (world_of short_mailbox_one) !! 1 = Some (short_mailbox_object [1])
   ∧ 0 ≤ 9 < 65536
   ∧ ∃ r w1 w2,
       NTask.sendNotificationFromIsrTo 1 9 (world_of short_mailbox_one) = Ret r w1
       ∧ NTask.sendNotificationToFrontFromIsrTo 1 9 (world_of short_mailbox_one) = Ret r w2
       ∧ ntask_list w1 = ntask_list (world_of short_mailbox_one)
       ∧ ntask_list w2 = ntask_list (world_of short_mailbox_one)
       ∧ r = pdTRUE
       ∧ mailbox_of w1 1 = [NOTIFICATION_FROM_ISR 1; NOTIFICATION_FROM_ISR 9]
       ∧ mailbox_of w2 1 = [NOTIFICATION_FROM_ISR 9; NOTIFICATION_FROM_ISR 1])
  ∧ (heap (world_of short_mailbox_full) !! 1 = Some (short_mailbox_object [1; 2])
     ∧ ∃ r w1 w2,
         NTask.sendNotificationFromIsrTo 1 9 (world_of short_mailbox_full) = Ret r w1
         ∧ NTask.sendNotificationToFrontFromIsrTo 1 9 (world_of short_mailbox_full) = Ret r w2
         ∧ ntask_list w1 = ntask_list (world_of short_mailbox_full)
         ∧ ntask_list w2 = ntask_list (world_of short_mailbox_full)
         ∧ r = errQUEUE_FULL
         ∧ mailbox_of w1 1 = [NOTIFICATION_FROM_ISR 1; NOTIFICATION_FROM_ISR 2]
         ∧ mailbox_of w2 1 = [NOTIFICATION_FROM_ISR 1; NOTIFICATION_FROM_ISR 2]).
Proof.
  split.
  - split; [reflexivity|]. split; [lia|].
    exact (isr_send_never_blocks (world_of short_mailbox_one) 1 (short_mailbox_object [1]) 9
             eq_refl ltac:(lia)).
  - split; [reflexivity|].
    exact (isr_send_never_blocks (world_of short_mailbox_full) 1
             (short_mailbox_object [1; 2]) 9 eq_refl ltac:(lia)).
Defined.

(** Steps through calls on the ring buffer as well. *)
Ltac step_rb :=
  repeat (step; rewrite ?insert_insert_eq;
          cbn [rb_items rb_borrowed rb_size rb_next app find item_ptr item_data existsb
               xSemaphoreGive q_items q_length];
          rewrite ?bool_decide_eq_true_2, ?Z.eqb_refl by done; cbn [orb]).

(** ** Payloads *)

(** An item costs its header at least. *)
Lemma item_cost_header (xItemSize : Z) : 0 ≤ xItemSize → rbHEADER_SIZE ≤ item_cost xItemSize.
Proof.
  intros Hsize. unfold item_cost, rbALIGN_SIZE.
  assert (0 ≤ Z.land (xItemSize + 3) (Z.lnot 3)); [|lia].
  apply Z.land_nonneg. left. lia.
Qed.

(** X13: a payload that takes, with its header, no more than half of an
    empty ring buffer is accepted and comes back from [receiveData] with
    its size and its bytes; returning the item leaves the ring buffer empty
    again.  The mailbox is not touched by a send without notification. *)
Theorem payload_round_trip (w : World) (dest : Z) (o : TaskObject) (r : RTaskPart)
    (bytes : list Z) (size ticktowait ticktowait' : Z) :
  dest ≠ 0 →
  heap w !! dest = Some o →
  rtask o = Some r →
  mutex_receiving_buff r = false →
  rb_items (receiving_buff r) = [] →
  rb_borrowed (receiving_buff r) = [] →
  0 ≤ size ≤ Z.of_nat (length bytes) →
  item_cost size ≤ rb_size (receiving_buff r) / 2 →
  ∃ w',
    (do t <- RTask.sendDataTo_plain dest (Some bytes) size ticktowait;
     do '(data, sz) <- RTask.receiveData dest 0 ticktowait';
     do got <- RTask.borrowed_bytes dest data;
     RTask.returnData dest data;;
     ret (t, sz, got)) w
    = Ret (pdTRUE, size, take (Z.to_nat size) bytes) w'
    ∧ (rb_items <$> ringbuf_of w' dest) = Some []
    ∧ (rb_borrowed <$> ringbuf_of w' dest) = Some []
    ∧ mailbox_of w' dest = mailbox_of w dest
    ∧ lock_of w' dest = Some false.
Proof.
  intros Hdest Hlive Hr Hfree Hitems Hborrowed Hsize Hhalf.
  assert (item_cost size ≤ rb_size (receiving_buff r)) as Hcost.
  { pose proof (item_cost_header size ltac:(lia)) as Hheader. unfold rbHEADER_SIZE in Hheader.
    pose proof (Z.div_mod (rb_size (receiving_buff r)) 2 ltac:(lia)).
    pose proof (Z.mod_pos_bound (rb_size (receiving_buff r)) 2 ltac:(lia)). lia. }
  assert ((size <=? Z.of_nat (length bytes)) = true) as Hsz by lia.
  assert (Z.of_nat (length (take (Z.to_nat size) bytes)) = size) as Hlen
    by (rewrite length_take; lia).
  assert (xRingbufferSend (receiving_buff r) (take (Z.to_nat size) bytes) ticktowait
          = Done (pdTRUE,
                  {| rb_size := rb_size (receiving_buff r);
                     rb_items := [{| item_ptr := rb_next (receiving_buff r);
                                     item_data := take (Z.to_nat size) bytes |}];
                     rb_borrowed := [];
                     rb_next := rb_next (receiving_buff r) + 1 |})) as Hsend.
  { unfold xRingbufferSend, rb_free, rb_used. rewrite Hlen, Hitems, Hborrowed. cbn [app foldr].
    assert ((rb_size (receiving_buff r) <? item_cost size) = false) as -> by lia.
    assert ((item_cost size <=? rb_size (receiving_buff r) - 0) = true) as -> by lia.
    done. }
  unfold RTask.sendDataTo_plain, RTask.sendDataTo, RTask.receiveData, RTask.borrowed_bytes,
    RTask.returnData, RTask.on_mutex_receiving_buff, RTask.on_receiving_buff,
    RTask.read_bytes, on_rtask, xSemaphoreTake, xRingbufferReceive, vRingbufferReturnItem,
    mailbox_of, lock_of, ringbuf_of.
  rewrite (Zeqb_ne _ _ Hdest). step_rb.
  eexists. split; [rewrite Hlen; reflexivity|]. cbn [heap].
  rewrite !lookup_insert_eq. cbn [fmap option_fmap option_map mbind option_bind rtask set_rtask
    receiving_buff mutex_receiving_buff rb_items rb_borrowed notification_queue
    filter list_filter item_ptr xSemaphoreGive].
  rewrite decide_False by (intros H; by apply H). done.
Qed.

Lemma payload_round_trip_witness :
  1 ≠ 0
  ∧ heap (world_of (sender_and_receiver init_world)) !! 1 = Some (receiver_object false)
  ∧ rtask (receiver_object false) = Some (receiver_part false)
  ∧ mutex_receiving_buff (receiver_part false) = false
  ∧ rb_items (receiving_buff (receiver_part false)) = []
  ∧ rb_borrowed (receiving_buff (receiver_part false)) = []
  ∧ 0 ≤ 3 ≤ Z.of_nat (length [1; 2; 3; 4])
  ∧ item_cost 3 ≤ rb_size (receiving_buff (receiver_part false)) / 2
  ∧ ∃ w',
      (do t <- RTask.sendDataTo_plain 1 (Some [1; 2; 3; 4]) 3 10;
       do '(data, sz) <- RTask.receiveData 1 0 0;
       do got <- RTask.borrowed_bytes 1 data;
       RTask.returnData 1 data;;
       ret (t, sz, got)) (world_of (sender_and_receiver init_world))
      = Ret (pdTRUE, 3, [1; 2; 3]) w'
      ∧ (rb_items <$> ringbuf_of w' 1) = Some []
      ∧ (rb_borrowed <$> ringbuf_of w' 1) = Some []
      ∧ mailbox_of w' 1 = mailbox_of (world_of (sender_and_receiver init_world)) 1
      ∧ lock_of w' 1 = Some false.
Proof.
  split; [discriminate|]. split; [reflexivity|]. split; [reflexivity|].
  split; [reflexivity|]. split; [reflexivity|]. split; [reflexivity|].
  split; [cbn; lia|]. split; [vm_compute; discriminate|].
  apply (payload_round_trip (world_of (sender_and_receiver init_world)) 1
           (receiver_object false) (receiver_part false) [1; 2; 3; 4] 3 10 0);
    [discriminate|reflexivity|reflexivity|reflexivity|reflexivity|reflexivity|cbn; lia
    |vm_compute; discriminate].
Defined.

(** X14: [receiveData] on a ring buffer that holds no item returns
    [nullptr] when its timeout is finite, at once for the variant without
    timeout; [*size] and the objects are left as they are. *)
Theorem receiveData_empty (w : World) (this : Z) (o : TaskObject) (r : RTaskPart)
    (size tickToWait : Z) :
  heap w !! this = Some o →
  rtask o = Some r →
  rb_items (receiving_buff r) = [] →
  tickToWait ≠ portMAX_DELAY →
  ∃ w1 w2,
    RTask.receiveData this size tickToWait w = Ret (0, size) w1
    ∧ RTask.receiveData_nowait this size w = Ret (0, size) w2
    ∧ heap w1 = heap w ∧ heap w2 = heap w
    ∧ trace w1 = trace w ++ [Ev_xRingbufferReceive this tickToWait]
    ∧ trace w2 = trace w ++ [Ev_xRingbufferReceive this 0].
Proof.
  intros Hlive Hr Hempty Hticks.
  unfold RTask.receiveData_nowait, RTask.receiveData, RTask.on_receiving_buff, on_rtask,
    xRingbufferReceive.
  rewrite (Zeqb_ne _ _ Hticks). change (0 =? portMAX_DELAY) with false. step.
  eexists _, _. split; [reflexivity|]. split; [reflexivity|]. cbn [heap trace].
  rewrite RTaskPart_eta, (set_rtask_same _ _ Hr), (insert_id _ _ _ Hlive). done.
Qed.

Lemma receiveData_empty_witness :
  heap (world_of (sender_and_receiver init_world)) !! 1 = Some (receiver_object false)
  ∧ rtask (receiver_object false) = Some (receiver_part false)
  ∧ rb_items (receiving_buff (receiver_part false)) = []
  ∧ 10 ≠ portMAX_DELAY
  ∧ ∃ w1 w2,
      RTask.receiveData 1 7 10 (world_of (sender_and_receiver init_world)) = Ret (0, 7) w1
      ∧ RTask.receiveData_nowait 1 7 (world_of (sender_and_receiver init_world))
        = Ret (0, 7) w2
      ∧ heap w1 = heap (world_of (sender_and_receiver init_world))
      ∧ heap w2 = heap (world_of (sender_and_receiver init_world))
      ∧ trace w1 = trace (world_of (sender_and_receiver init_world))
                     ++ [Ev_xRingbufferReceive 1 10]
      ∧ trace w2 = trace (world_of (sender_and_receiver init_world))
                     ++ [Ev_xRingbufferReceive 1 0].
Proof.
  split; [reflexivity|]. split; [reflexivity|]. split; [reflexivity|]. split; [discriminate|].
  apply (receiveData_empty (world_of (sender_and_receiver init_world)) 1
           (receiver_object false) (receiver_part false) 7 10);
    [reflexivity|reflexivity|reflexivity|discriminate].
Defined.

(** X15: the assertion of the [RTask] constructor stops a ring buffer of
    size 0, and with it a work queue of length 0, whose ring buffer is a
    multiple of the length. *)
Theorem zero_size_ring_buffer_aborts (w : World) (ntype : Z) (taskName : string)
    (stackSize priority coreId notification_queue_size coreID : Z) :
  wf w →
  RTask.RTask ntype taskName stackSize priority coreId notification_queue_size 0 w = Fault
  ∧ WorkQueue.WorkQueue stackSize priority 0 coreID w = Fault.
Proof.
  intros Hwf. unfold WorkQueue.WorkQueue, RTask.RTask.
  destruct (NTask_spec w ntype taskName stackSize priority coreId notification_queue_size Hwf)
    as (id & w1 & Hrun & _).
  destruct (NTask_spec w NTASK_TYPE_NOTIF_WORK_QUEU "workQueue" stackSize priority 0 0 Hwf)
    as (id' & w1' & Hrun' & _).
  split; unfold bind at 1.
  - by rewrite Hrun.
  - by rewrite Hrun'.
Qed.

Lemma zero_size_ring_buffer_aborts_witness :
  wf init_world
  ∧ RTask.RTask 3 "Task" 10000 2 0 8 0 init_world = Fault
  ∧ WorkQueue.WorkQueue 5000 3 0 0 init_world = Fault.
Proof.
  split; [exact wf_init_world|].
  exact (zero_size_ring_buffer_aborts init_world 3 "Task" 10000 2 0 8 0 wf_init_world).
Defined.


(** A push that is accepted puts the item last and leaves the rest. *)
Lemma xRingbufferSend_accepted (rb rb' : Ringbuf) (data : list Z) (xTicksToWait : Z) :
  xRingbufferSend rb data xTicksToWait = Done (pdTRUE, rb') →
  rb_items rb' = rb_items rb ++ [{| item_ptr := rb_next rb; item_data := data |}]
  ∧ rb_borrowed rb' = rb_borrowed rb
  ∧ rb_size rb' = rb_size rb.
Proof.
  unfold xRingbufferSend. repeat case_match; intros Hsend; try discriminate Hsend.
  injection Hsend as <-. done.
Qed.

Lemma sendDataTo_success (w : World) (dest : Z) (o : TaskObject) (r : RTaskPart)
    (bytes : list Z) (size ticktowait : Z) (notification : Notification_t) (rb' : Ringbuf) :
  dest ≠ 0 →
  heap w !! dest = Some o →
  rtask o = Some r →
  mutex_receiving_buff r = false →
  0 ≤ size ≤ Z.of_nat (length bytes) →
  xRingbufferSend (receiving_buff r) (take (Z.to_nat size) bytes) ticktowait
    = Done (pdTRUE, rb') →
  q_full (notification_queue o) = false →
  ∃ w',
    RTask.sendDataTo dest (Some bytes) size ticktowait true notification w = Ret pdTRUE w'
    ∧ heap w' !! dest = Some (delivered o rb' notification)
    ∧ (∀ p, p ≠ dest → heap w' !! p = heap w !! p)
    ∧ ntask_list w' = ntask_list w
    ∧ trace w' = trace w ++
        [Ev_xSemaphoreTake dest ticktowait;
         Ev_xRingbufferSend dest (take (Z.to_nat size) bytes) ticktowait;
         Ev_xQueueGenericSend dest notification portMAX_DELAY queueSEND_TO_BACK;
         Ev_xSemaphoreGive dest].
Proof.
  intros Hdest Hlive Hr Hfree Hsize Hsend Hroom.
  assert ((size <=? Z.of_nat (length bytes)) = true) as Hsz by lia.
  unfold RTask.sendDataTo, RTask.on_mutex_receiving_buff, RTask.on_receiving_buff,
    RTask.read_bytes, NTask.sendNotificationTo, on_rtask, on_queue, xSemaphoreTake,
    xQueueGenericSend, q_insert, delivered.
  rewrite (Zeqb_ne _ _ Hdest).
  change (queueSEND_TO_BACK =? queueSEND_TO_BACK) with true. step_rb.
  eexists. split; [reflexivity|]. cbn [heap ntask_list trace].
  rewrite !lookup_insert_eq.
  split; [reflexivity|]. split.
  { intros p Hp. by rewrite lookup_insert_ne. }
  split; [reflexivity|]. by rewrite <- !app_assoc.
Qed.

(** X19: a [sendDataTo] with notification that gets the lock, whose push
    the ring buffer accepts and whose notification finds room in the
    mailbox returns [pdTRUE]; the payload is the last item of the ring
    buffer and the notification the last of the mailbox, the push coming
    before the notification, and the lock is free again.  No other object
    is touched. *)
Theorem sendDataTo_delivers (w : World) (dest : Z) (o : TaskObject) (r : RTaskPart)
    (bytes : list Z) (size ticktowait : Z) (notification : Notification_t) (rb' : Ringbuf) :
  dest ≠ 0 →
  heap w !! dest = Some o →
  rtask o = Some r →
  mutex_receiving_buff r = false →
  0 ≤ size ≤ Z.of_nat (length bytes) →
  let payload := take (Z.to_nat size) bytes in
  xRingbufferSend (receiving_buff r) payload ticktowait = Done (pdTRUE, rb') →
  q_full (notification_queue o) = false →
  ∃ w',
    RTask.sendDataTo dest (Some bytes) size ticktowait true notification w = Ret pdTRUE w'
    ∧ ringbuf_of w' dest = Some rb'
    ∧ rb_items rb'
      = rb_items (receiving_buff r)
          ++ [{| item_ptr := rb_next (receiving_buff r); item_data := payload |}]
    ∧ rb_borrowed rb' = rb_borrowed (receiving_buff r)
    ∧ mailbox_of w' dest = q_items (notification_queue o) ++ [notification]
    ∧ lock_of w' dest = Some false
    ∧ (∀ p, p ≠ dest → heap w' !! p = heap w !! p)
    ∧ ntask_list w' = ntask_list w
    ∧ trace w' = trace w ++
        [Ev_xSemaphoreTake dest ticktowait;
         Ev_xRingbufferSend dest payload ticktowait;
         Ev_xQueueGenericSend dest notification portMAX_DELAY queueSEND_TO_BACK;
         Ev_xSemaphoreGive dest].
Proof.
  intros Hdest Hlive Hr Hfree Hsize payload Hsend Hroom. subst payload.
  destruct (xRingbufferSend_accepted _ _ _ _ Hsend) as (Hitems & Hborrowed & _).
  destruct (sendDataTo_success w dest o r bytes size ticktowait notification rb')
    as (w' & Hrun & Hobj & Hother & Hlist & Htrace); try done.
  exists w'. split; [exact Hrun|].
  unfold mailbox_of, ringbuf_of, lock_of. rewrite Hobj. by repeat split.
Qed.

Lemma sendDataTo_delivers_witness :
  let rb' := {| rb_size := 128;
                rb_items := [{| item_ptr := 1; item_data := [1; 2; 3] |}];
                rb_borrowed := []; rb_next := 2 |} in
  1 ≠ 0
  ∧ heap (world_of (sender_and_receiver init_world)) !! 1 = Some (receiver_object false)
  ∧ rtask (receiver_object false) = Some (receiver_part false)
  ∧ mutex_receiving_buff (receiver_part false) = false
  ∧ 0 ≤ 3 ≤ Z.of_nat (length [1; 2; 3; 4])
  ∧ xRingbufferSend (receiving_buff (receiver_part false)) [1; 2; 3] 10 = Done (pdTRUE, rb')
  ∧ q_full (notification_queue (receiver_object false)) = false
  ∧ ∃ w',
      RTask.sendDataTo 1 (Some [1; 2; 3; 4]) 3 10 true (Notification_of_d0 0)
        (world_of (sender_and_receiver init_world)) = Ret pdTRUE w'
      ∧ ringbuf_of w' 1 = Some rb'
      ∧ rb_items rb'
        = rb_items (receiving_buff (receiver_part false))
            ++ [{| item_ptr := rb_next (receiving_buff (receiver_part false));
                   item_data := [1; 2; 3] |}]
      ∧ rb_borrowed rb' = rb_borrowed (receiving_buff (receiver_part false))
      ∧ mailbox_of w' 1
        = q_items (notification_queue (receiver_object false)) ++ [Notification_of_d0 0]
      ∧ lock_of w' 1 = Some false
      ∧ (∀ p, p ≠ 1 → heap w' !! p = heap (world_of (sender_and_receiver init_world)) !! p)
      ∧ ntask_list w' = ntask_list (world_of (sender_and_receiver init_world))
      ∧ trace w' = trace (world_of (sender_and_receiver init_world)) ++
          [Ev_xSemaphoreTake 1 10;
           Ev_xRingbufferSend 1 [1; 2; 3] 10;
           Ev_xQueueGenericSend 1 (Notification_of_d0 0) portMAX_DELAY queueSEND_TO_BACK;
           Ev_xSemaphoreGive 1].
Proof.
  intros rb'.
  split; [discriminate|]. split; [reflexivity|]. split; [reflexivity|].
  split; [reflexivity|]. split; [cbn; lia|]. split; [reflexivity|].
  split; [reflexivity|].
  apply (sendDataTo_delivers (world_of (sender_and_receiver init_world)) 1
           (receiver_object false) (receiver_part false) [1; 2; 3; 4] 3 10
           (Notification_of_d0 0) rb');
    [discriminate|reflexivity|reflexivity|reflexivity|cbn; lia|reflexivity|reflexivity].
Defined.

(** ** Job descriptors and the loop of the work queue *)

Import WorkQueue.

Lemma le_value_le_bytes (n : nat) (x : Z) :
  0 ≤ x → WorkQueue.le_value (WorkQueue.le_bytes n x) = x mod 2 ^ (8 * Z.of_nat n).
Proof.
  revert x. induction n as [|n IH]; intros x Hx.
  - cbn. by rewrite Z.mod_1_r.
  - cbn [WorkQueue.le_bytes]. unfold WorkQueue.le_value in *. cbn [foldr].
    rewrite IH by (rewrite Z.shiftr_div_pow2 by lia; apply Z.div_pos; lia).
    change 0xff with (Z.ones 8). rewrite Z.land_ones by lia.
    rewrite Z.shiftr_div_pow2 by lia.
    rewrite lor_shiftl_add; [|lia|apply Z.mod_pos_bound; lia].
    replace (8 * Z.of_nat (S n)) with (8 + 8 * Z.of_nat n) by lia.
    rewrite Z.pow_add_r by lia.
    rewrite (Z.rem_mul_r x (2 ^ 8) (2 ^ (8 * Z.of_nat n))) by lia. lia.
Qed.

Lemma length_le_bytes (n : nat) (x : Z) : length (WorkQueue.le_bytes n x) = n.
Proof. revert x. induction n as [|n IH]; intros x; cbn; [done|by rewrite IH]. Qed.


Lemma length_WorkItem_bytes (item : WorkQueue.WorkItem) :
  Z.of_nat (length (WorkQueue.WorkItem_bytes item)) = WorkQueue.sizeof_WorkItem.
Proof. reflexivity. Qed.

Lemma WorkItem_of_bytes_bytes (item : WorkQueue.WorkItem) :
  WorkItem_in_range item →
  WorkQueue.WorkItem_of_bytes (WorkQueue.WorkItem_bytes item) = item.
Proof.
  intros (Ha & Hf & Hr & Hv).
  destruct item as [a f r v]. cbn [work_args work_function returning_task notif_value] in *.
  unfold WorkQueue.WorkItem_of_bytes, WorkQueue.WorkItem_bytes.
  cbn [work_args work_function returning_task notif_value].
  f_equal.
  - change (take 4 (le_bytes 4 a ++ ?l)) with (le_bytes 4 a).
    rewrite le_value_le_bytes by lia. apply Z.mod_small. change (8 * Z.of_nat 4) with 32. lia.
  - change (take 4 (drop 4 (le_bytes 4 a ++ le_bytes 4 f ++ ?l))) with (le_bytes 4 f).
    rewrite le_value_le_bytes by lia. apply Z.mod_small. change (8 * Z.of_nat 4) with 32. lia.
  - change (take 4 (drop 8 (le_bytes 4 a ++ le_bytes 4 f ++ le_bytes 4 r ++ ?l)))
      with (le_bytes 4 r).
    rewrite le_value_le_bytes by lia. apply Z.mod_small. change (8 * Z.of_nat 4) with 32. lia.
  - change (take 2 (drop 12 (le_bytes 4 a ++ le_bytes 4 f ++ le_bytes 4 r ++ le_bytes 2 v ++ ?l)))
      with (le_bytes 2 v).
    rewrite le_value_le_bytes by lia. apply Z.mod_small. change (8 * Z.of_nat 2) with 16. lia.
Qed.

(** X16: a descriptor copied byte by byte, as [sendWork] and [run] do,
    is the descriptor: its representation has [sizeof(WorkItem)] bytes, the
    last two of them padding, and reads back field by field. *)
Theorem WorkItem_round_trip (item : WorkQueue.WorkItem) :
  WorkItem_in_range item →
  Z.of_nat (length (WorkQueue.WorkItem_bytes item)) = WorkQueue.sizeof_WorkItem
  ∧ drop 14 (WorkQueue.WorkItem_bytes item) = [0; 0]
  ∧ WorkQueue.WorkItem_of_bytes (WorkQueue.WorkItem_bytes item) = item.
Proof.
  intros Hrange. split; [apply length_WorkItem_bytes|]. split; [reflexivity|].
  by apply WorkItem_of_bytes_bytes.
Qed.

Lemma WorkItem_round_trip_witness :
  WorkItem_in_range (double_job 1)
  ∧ Z.of_nat (length (WorkQueue.WorkItem_bytes (double_job 1))) = WorkQueue.sizeof_WorkItem
  ∧ drop 14 (WorkQueue.WorkItem_bytes (double_job 1)) = [0; 0]
  ∧ WorkQueue.WorkItem_of_bytes (WorkQueue.WorkItem_bytes (double_job 1)) = double_job 1.
Proof.
  assert (WorkItem_in_range (double_job 1)) as H by (unfold WorkItem_in_range; cbn; lia).
  split; [exact H|]. exact (WorkItem_round_trip (double_job 1) H).
Defined.



(** X17: a turn of the loop that receives a notification whose value is
    not [NOTIFICATION_WORK_IN_QUEUE] takes it out of the mailbox, logs an
    error and ends: the ring buffer is not read, no job function is called,
    nothing is sent. *)
Theorem run_skips_other_notifications (code : Z → option WorkQueue.WorkFunction)
    (w : World) (this : Z) (o : TaskObject) (notif : Notification_t)
    (rest : list Notification_t) :
  heap w !! this = Some o →
  q_items (notification_queue o) = notif :: rest →
  value notif ≠ NOTIFICATION_WORK_IN_QUEUE →
  WorkQueue.run_body code this w
  = Ret tt
      {| heap := <[this := set_notification_queue
                             {| q_length := q_length (notification_queue o);
                                q_items := rest |} o]> (heap w);
         ntask_list := ntask_list w;
         next_addr := next_addr w;
         trace := trace w ++
           [Ev_xQueueReceive this portMAX_DELAY;
            ESP_LOGE WORKQ_LOG_TAG "%X : Invalide notif received from %X:%X"
              [ArgZ (ID (identifier o)); ArgZ (type (Identifier notif));
               ArgZ (ID (Identifier notif))]] |}.
Proof.
  intros Hlive Hitems Hvalue.
  unfold WorkQueue.run_body, NTask.receiveNotification, NTask.getID, on_queue, xQueueReceive.
  step. rewrite Hitems. step. rewrite (Zeqb_ne _ _ Hvalue). step.
  by rewrite <- app_assoc.
Qed.

Lemma run_skips_other_notifications_witness :
  let w := world_of (WorkQueue.sendWork 2 (double_job 1)
                       (world_of (sender_and_receiver init_world))) in
  ∃ o2 n,
    heap w !! 2 = Some o2
    ∧ q_items (notification_queue o2) = [n]
    ∧ value n ≠ NOTIFICATION_WORK_IN_QUEUE
    ∧ WorkQueue.run_body double_code 2 w
      = Ret tt
          {| heap := <[2 := set_notification_queue
                              {| q_length := q_length (notification_queue o2);
                                 q_items := [] |} o2]> (heap w);
             ntask_list := ntask_list w;
             next_addr := next_addr w;
             trace := trace w ++
               [Ev_xQueueReceive 2 portMAX_DELAY;
                ESP_LOGE WORKQ_LOG_TAG "%X : Invalide notif received from %X:%X"
                  [ArgZ (ID (identifier o2)); ArgZ (type (Identifier n));
                   ArgZ (ID (Identifier n))]] |}.
Proof.
  intros w.
  destruct (heap w !! 2) as [o2|] eqn:Ho2; [|vm_compute in Ho2; discriminate Ho2].
  assert (q_items (notification_queue o2) = [Notification_of_d0 NOTIFICATION_WORK_IN_QUEUE])
    as Hitems.
  { assert (mailbox_of w 2 = [Notification_of_d0 NOTIFICATION_WORK_IN_QUEUE]) as Hm
      by reflexivity.
    unfold mailbox_of in Hm. by rewrite Ho2 in Hm. }
  exists o2, (Notification_of_d0 NOTIFICATION_WORK_IN_QUEUE).
  split; [done|]. split; [done|]. split; [discriminate|].
  apply (run_skips_other_notifications double_code w 2 o2 _ [] Ho2 Hitems). discriminate.
Defined.

(** X18: a turn of the loop that receives the value
    [NOTIFICATION_WORK_IN_QUEUE] and finds a descriptor at the head of its
    ring buffer copies it out, returns the item, and calls the job function
    once with the argument pointer; when the function returns a null
    pointer or sets the size to 0, the reply target gets one notification,
    with the identifier of the queue and the value of the descriptor, and
    no payload. *)
Theorem run_replies_with_notification (code : Z → option WorkQueue.WorkFunction)
    (w : World) (this : Z) (o : TaskObject) (r : RTaskPart)
    (notif : Notification_t) (rest : list Notification_t)
    (it : Item) (its : list Item) (item : WorkQueue.WorkItem)
    (f : WorkQueue.WorkFunction) (target : TaskObject) :
  let reply := WorkQueue.returning_task item in
  let result := f (WorkQueue.work_args item) WorkQueue.sizeof_WorkItem in
  let answer := {| Identifier := identifier o; value := WorkQueue.notif_value item |} in
  heap w !! this = Some o →
  q_items (notification_queue o) = notif :: rest →
  value notif = NOTIFICATION_WORK_IN_QUEUE →
  rtask o = Some r →
  rb_items (receiving_buff r) = it :: its →
  rb_borrowed (receiving_buff r) = [] →
  item_data it = WorkQueue.WorkItem_bytes item →
  WorkItem_in_range item →
  code (WorkQueue.work_function item) = Some f →
  result.1 = None ∨ result.2 = 0 →
  reply ≠ 0 → reply ≠ this →
  heap w !! reply = Some target →
  q_full (notification_queue target) = false →
  ∃ w',
    WorkQueue.run_body code this w = Ret tt w'
    ∧ mailbox_of w' reply = q_items (notification_queue target) ++ [answer]
    ∧ ringbuf_of w' reply = ringbuf_of w reply
    ∧ mailbox_of w' this = rest
    ∧ (rb_items <$> ringbuf_of w' this) = Some its
    ∧ (rb_borrowed <$> ringbuf_of w' this) = Some []
    ∧ trace w' = trace w ++
        [Ev_xQueueReceive this portMAX_DELAY;
         Ev_xRingbufferReceive this portMAX_DELAY;
         Ev_vRingbufferReturnItem this (item_ptr it);
         Ev_work_function (WorkQueue.work_function item) (WorkQueue.work_args item);
         Ev_xQueueGenericSend reply answer portMAX_DELAY queueSEND_TO_BACK].
Proof.
  intros reply result answer Hlive Hitems Hvalue Hr Hrb Hborrowed Hdata Hrange Hcode Hres
    Hreply Hne Htarget Hroom.
  pose proof (length_WorkItem_bytes item) as Hlen.
  pose proof (WorkItem_of_bytes_bytes item Hrange) as Hdecode.
  assert ((Z.of_nat (length (item_data it)) =? WorkQueue.sizeof_WorkItem) = true) as Hsize
    by (rewrite Hdata, Hlen; apply Z.eqb_refl).
  unfold WorkQueue.run_body, WorkQueue.call_work_function, NTask.receiveNotification,
    NTask.getID, NTask.sendNotificationTo_value, NTask.TO_NOTIFICATION, NTask.getIdentifier,
    NTask.sendNotificationTo, RTask.receiveData, RTask.borrowed_bytes, RTask.returnData,
    RTask.on_receiving_buff, on_rtask, on_queue, xQueueReceive, xRingbufferReceive,
    vRingbufferReturnItem, xQueueGenericSend, q_insert.
  step. rewrite Hitems. step. rewrite Hvalue, Z.eqb_refl. step. rewrite Hrb. step_rb.
  rewrite Hdata, Hdecode, Hlen, Hcode. step.
  cbn [filter list_filter]. rewrite decide_False by (intros H; by apply H).
  subst result reply answer. rewrite (Zeqb_ne _ _ Hreply).
  assert (∀ x, <[this:=x]> (heap w) !! returning_task item = Some target) as Hget
    by (intros x; rewrite lookup_insert_ne by done; exact Htarget).
  assert (∃ w',
    (do _ <- (fun w0 => NTask.sendNotificationTo_value this (returning_task item)
                          (notif_value item) portMAX_DELAY w0); ret tt)
      {| heap := <[this:=set_rtask
                    (Some {| receiving_buff :=
                               {| rb_size := rb_size (receiving_buff r); rb_items := its;
                                  rb_borrowed := []; rb_next := rb_next (receiving_buff r) |};
                             mutex_receiving_buff := mutex_receiving_buff r |})
                    (set_rtask
                       (Some {| receiving_buff :=
                                  {| rb_size := rb_size (receiving_buff r); rb_items := its;
                                     rb_borrowed := [it];
                                     rb_next := rb_next (receiving_buff r) |};
                                mutex_receiving_buff := mutex_receiving_buff r |})
                       (set_notification_queue
                          {| q_length := q_length (notification_queue o); q_items := rest |}
                          o))]> (heap w);
         ntask_list := ntask_list w; next_addr := next_addr w;
         trace := (((trace w ++ [Ev_xQueueReceive this portMAX_DELAY]) ++
                    [Ev_xRingbufferReceive this portMAX_DELAY]) ++
                   [Ev_vRingbufferReturnItem this (item_ptr it)]) ++
                  [Ev_work_function (work_function item) (work_args item)] |}
    = Ret tt w'
    ∧ mailbox_of w' (returning_task item)
      = q_items (notification_queue target)
          ++ [{| Identifier := identifier o; value := notif_value item |}]
    ∧ ringbuf_of w' (returning_task item) = ringbuf_of w (returning_task item)
    ∧ mailbox_of w' this = rest
    ∧ (rb_items <$> ringbuf_of w' this) = Some its
    ∧ (rb_borrowed <$> ringbuf_of w' this) = Some []
    ∧ trace w' = trace w ++
        [Ev_xQueueReceive this portMAX_DELAY;
         Ev_xRingbufferReceive this portMAX_DELAY;
         Ev_vRingbufferReturnItem this (item_ptr it);
         Ev_work_function (work_function item) (work_args item);
         Ev_xQueueGenericSend (returning_task item)
           {| Identifier := identifier o; value := notif_value item |}
           portMAX_DELAY queueSEND_TO_BACK]) as (w' & Hrun & Hpost).
  { unfold NTask.sendNotificationTo_value, NTask.TO_NOTIFICATION, NTask.getIdentifier,
      NTask.sendNotificationTo, on_queue, xQueueGenericSend, q_insert.
    rewrite (Zeqb_ne _ _ Hreply).
    change (queueSEND_TO_BACK =? queueSEND_TO_BACK) with true.
    repeat (step; rewrite ?Hget).
    eexists. split; [reflexivity|].
    unfold mailbox_of, ringbuf_of. cbn [heap trace].
    rewrite lookup_insert_eq. rewrite (lookup_insert_ne _ (returning_task item) this) by done.
    rewrite lookup_insert_eq. rewrite Htarget.
    cbn [fmap option_fmap option_map mbind option_bind rtask set_rtask set_notification_queue
         receiving_buff rb_items rb_borrowed notification_queue q_items].
    rewrite <- !app_assoc. done. }
  exists w'. split; [|exact Hpost].
  rewrite <- Hrun. unfold bind, ret, NTask.sendNotificationTo_value, NTask.TO_NOTIFICATION,
    NTask.getIdentifier, NTask.sendNotificationTo, on_queue, xQueueGenericSend, q_insert,
    deref, modify, emit.
  rewrite (Zeqb_ne _ _ Hreply).
  destruct (f (work_args item) sizeof_WorkItem) as [res sz]. cbn [fst snd] in Hres.
  destruct Hres as [->| ->]; [done|]. by destruct res.
Qed.

Lemma run_replies_with_notification_witness :
  let w := world_of (queued_work silent_job init_world) in
  ∃ o r notif it target w',
    heap w !! 2 = Some o
    ∧ q_items (notification_queue o) = [notif]
    ∧ value notif = NOTIFICATION_WORK_IN_QUEUE
    ∧ rtask o = Some r
    ∧ rb_items (receiving_buff r) = [it]
    ∧ item_data it = WorkQueue.WorkItem_bytes (silent_job 1)
    ∧ heap w !! 1 = Some target
    ∧ WorkQueue.run_body silent_code 2 w = Ret tt w'
    ∧ mailbox_of w' 1
      = q_items (notification_queue target)
          ++ [{| Identifier := identifier o; value := 9 |}]
    ∧ trace w' = trace w ++
        [Ev_xQueueReceive 2 portMAX_DELAY;
         Ev_xRingbufferReceive 2 portMAX_DELAY;
         Ev_vRingbufferReturnItem 2 (item_ptr it);
         Ev_work_function 0x400d2000 0;
         Ev_xQueueGenericSend 1 {| Identifier := identifier o; value := 9 |}
           portMAX_DELAY queueSEND_TO_BACK].
Proof.
  intros w.
  assert (WorkItem_in_range (silent_job 1)) as Hrange by (vm_compute; intuition discriminate).
  destruct (run_replies_with_notification silent_code w 2
              (set_rtask
                 (Some {| receiving_buff :=
                            {| rb_size := 72;
                               rb_items := [{| item_ptr := 1;
                                               item_data := WorkItem_bytes (silent_job 1) |}];
                               rb_borrowed := []; rb_next := 2 |};
                          mutex_receiving_buff := false |})
                 (set_notification_queue
                    {| q_length := 3;
                       q_items := [{| Identifier := {| type := 3; ID := 1 |};
                                      value := NOTIFICATION_WORK_IN_QUEUE |}] |}
                    (NTask_object NTASK_TYPE_NOTIF_WORK_QUEU "workQueue" 5000 3 0 3 1)))
              {| receiving_buff :=
                   {| rb_size := 72;
                      rb_items := [{| item_ptr := 1;
                                      item_data := WorkItem_bytes (silent_job 1) |}];
                      rb_borrowed := []; rb_next := 2 |};
                 mutex_receiving_buff := false |}
              {| Identifier := {| type := 3; ID := 1 |}; value := NOTIFICATION_WORK_IN_QUEUE |}
              []
              {| item_ptr := 1; item_data := WorkItem_bytes (silent_job 1) |}
              [] (silent_job 1) (fun _ size => (None, size))
              (set_rtask (Some {| receiving_buff := xRingbufferCreate 128;
                                  mutex_receiving_buff := false |})
                 (NTask_object 3 "reply" 10000 2 0 NTASK_QUEUE_LENGTH 1)))
    as (w' & Hrun & Hmail & _ & _ & _ & _ & Htrace);
    [reflexivity|reflexivity|reflexivity|reflexivity|reflexivity|reflexivity|reflexivity
    |exact Hrange|reflexivity|left; reflexivity|discriminate|discriminate|reflexivity
    |reflexivity|].
  eexists _, _, _, _, _, w'.
  split; [reflexivity|]. split; [reflexivity|]. split; [reflexivity|].
  split; [reflexivity|]. split; [reflexivity|]. split; [reflexivity|].
  split; [reflexivity|]. split; [exact Hrun|]. split; [exact Hmail|]. exact Htrace.
Defined.

(** X20: when the job function returns a pointer and a size above 0, the
    turn takes the lock of the reply target, pushes that many bytes of the
    result on its ring buffer, sends one notification with the identifier
    of the queue and the value of the descriptor, gives the lock back and
    frees the result.  When the ring buffer accepts the push the result is
    its last item.  The payload is pushed before the notification is sent,
    and the descriptor is returned before the job is called. *)
Theorem run_forwards_result (code : Z → option WorkQueue.WorkFunction)
    (w : World) (this : Z) (o : TaskObject) (r : RTaskPart)
    (notif : Notification_t) (rest : list Notification_t)
    (it : Item) (its : list Item) (item : WorkQueue.WorkItem)
    (f : WorkQueue.WorkFunction) (target : TaskObject) (tr : RTaskPart)
    (res : list Z) (sz : Z) (rb' : Ringbuf) :
  let reply := WorkQueue.returning_task item in
  let answer := {| Identifier := identifier o; value := WorkQueue.notif_value item |} in
  let payload := take (Z.to_nat sz) res in
  heap w !! this = Some o →
  q_items (notification_queue o) = notif :: rest →
  value notif = NOTIFICATION_WORK_IN_QUEUE →
  rtask o = Some r →
  rb_items (receiving_buff r) = it :: its →
  rb_borrowed (receiving_buff r) = [] →
  item_data it = WorkQueue.WorkItem_bytes item →
  WorkItem_in_range item →
  code (WorkQueue.work_function item) = Some f →
  f (WorkQueue.work_args item) WorkQueue.sizeof_WorkItem = (Some res, sz) →
  0 < sz ≤ Z.of_nat (length res) →
  reply ≠ 0 → reply ≠ this →
  heap w !! reply = Some target →
  rtask target = Some tr →
  mutex_receiving_buff tr = false →
  xRingbufferSend (receiving_buff tr) payload portMAX_DELAY = Done (pdTRUE, rb') →
  q_full (notification_queue target) = false →
  ∃ w',
    WorkQueue.run_body code this w = Ret tt w'
    ∧ ringbuf_of w' reply = Some rb'
    ∧ rb_items rb'
      = rb_items (receiving_buff tr)
          ++ [{| item_ptr := rb_next (receiving_buff tr); item_data := payload |}]
    ∧ mailbox_of w' reply = q_items (notification_queue target) ++ [answer]
    ∧ lock_of w' reply = Some false
    ∧ trace w' = trace w ++
        [Ev_xQueueReceive this portMAX_DELAY;
         Ev_xRingbufferReceive this portMAX_DELAY;
         Ev_vRingbufferReturnItem this (item_ptr it);
         Ev_work_function (WorkQueue.work_function item) (WorkQueue.work_args item);
         Ev_xSemaphoreTake reply portMAX_DELAY;
         Ev_xRingbufferSend reply payload portMAX_DELAY;
         Ev_xQueueGenericSend reply answer portMAX_DELAY queueSEND_TO_BACK;
         Ev_xSemaphoreGive reply;
         Ev_free res].
Proof.
  intros reply answer payload Hlive Hitems Hvalue Hr Hrb Hborrowed Hdata Hrange Hcode Hf Hsz
    Hreply Hne Htarget Htr Hfree Hpush Hroom.
  destruct (xRingbufferSend_accepted _ _ _ _ Hpush) as (Hpushed & _).
  pose proof (length_WorkItem_bytes item) as Hlen.
  pose proof (WorkItem_of_bytes_bytes item Hrange) as Hdecode.
  assert ((Z.of_nat (length (item_data it)) =? WorkQueue.sizeof_WorkItem) = true) as Hsize
    by (rewrite Hdata, Hlen; apply Z.eqb_refl).
  unfold WorkQueue.run_body, WorkQueue.call_work_function, NTask.receiveNotification,
    NTask.TO_NOTIFICATION, NTask.getIdentifier,
    RTask.receiveData, RTask.borrowed_bytes, RTask.returnData,
    RTask.on_receiving_buff, on_rtask, on_queue, xQueueReceive, xRingbufferReceive,
    vRingbufferReturnItem.
  step. rewrite Hitems. step. rewrite Hvalue, Z.eqb_refl. step. rewrite Hrb. step_rb.
  rewrite Hdata, Hdecode, Hlen, Hcode. step.
  cbn [filter list_filter]. rewrite decide_False by (intros H; by apply H).
  rewrite Hf. assert ((0 <? sz) = true) as -> by lia. step.
  subst reply answer payload.
  match goal with
  | |- context [RTask.sendDataTo ?d ?data ?size ?t ?u ?n ?wm] =>
      destruct (sendDataTo_success wm d target tr res size t n rb')
        as (w1 & Hsend & Hobj & _ & _ & Htrace);
        [exact Hreply
        |cbn [heap]; rewrite lookup_insert_ne by done; exact Htarget
        |exact Htr|exact Hfree|lia|exact Hpush|exact Hroom|]
  end.
  rewrite Hsend. step. eexists. split; [reflexivity|].
  unfold mailbox_of, ringbuf_of, lock_of. cbn [heap trace]. rewrite Hobj.
  unfold delivered.
  cbn [fmap option_fmap option_map mbind option_bind rtask set_rtask set_notification_queue
       receiving_buff mutex_receiving_buff rb_items rb_borrowed notification_queue q_items].
  split; [reflexivity|]. split; [exact Hpushed|]. do 2 (split; [reflexivity|]).
  rewrite Htrace. cbn [trace]. by rewrite <- !app_assoc.
Qed.

Lemma run_forwards_result_witness :
  let w := world_of (queued_work double_job init_world) in
  ∃ o r notif it target tr rb' w',
    heap w !! 2 = Some o
    ∧ q_items (notification_queue o) = [notif]
    ∧ value notif = NOTIFICATION_WORK_IN_QUEUE
    ∧ rtask o = Some r
    ∧ rb_items (receiving_buff r) = [it]
    ∧ item_data it = WorkQueue.WorkItem_bytes (double_job 1)
    ∧ heap w !! 1 = Some target
    ∧ rtask target = Some tr
    ∧ xRingbufferSend (receiving_buff tr) [42; 0; 0; 0] portMAX_DELAY = Done (pdTRUE, rb')
    ∧ WorkQueue.run_body double_code 2 w = Ret tt w'
    ∧ ringbuf_of w' 1 = Some rb'
    ∧ rb_items rb'
      = rb_items (receiving_buff tr)
          ++ [{| item_ptr := rb_next (receiving_buff tr); item_data := [42; 0; 0; 0] |}]
    ∧ mailbox_of w' 1
      = q_items (notification_queue target)
          ++ [{| Identifier := identifier o; value := 7 |}]
    ∧ lock_of w' 1 = Some false
    ∧ trace w' = trace w ++
        [Ev_xQueueReceive 2 portMAX_DELAY;
         Ev_xRingbufferReceive 2 portMAX_DELAY;
         Ev_vRingbufferReturnItem 2 (item_ptr it);
         Ev_work_function 0x400d1000 21;
         Ev_xSemaphoreTake 1 portMAX_DELAY;
         Ev_xRingbufferSend 1 [42; 0; 0; 0] portMAX_DELAY;
         Ev_xQueueGenericSend 1 {| Identifier := identifier o; value := 7 |}
           portMAX_DELAY queueSEND_TO_BACK;
         Ev_xSemaphoreGive 1;
         Ev_free [42; 0; 0; 0]].
Proof.
  intros w.
  assert (WorkItem_in_range (double_job 1)) as Hrange by (vm_compute; intuition discriminate).
  destruct (run_forwards_result double_code w 2
              (set_rtask
                 (Some {| receiving_buff :=
                            {| rb_size := 72;
                               rb_items := [{| item_ptr := 1;
                                               item_data := WorkItem_bytes (double_job 1) |}];
                               rb_borrowed := []; rb_next := 2 |};
                          mutex_receiving_buff := false |})
                 (set_notification_queue
                    {| q_length := 3;
                       q_items := [{| Identifier := {| type := 3; ID := 1 |};
                                      value := NOTIFICATION_WORK_IN_QUEUE |}] |}
                    (NTask_object NTASK_TYPE_NOTIF_WORK_QUEU "workQueue" 5000 3 0 3 1)))
              {| receiving_buff :=
                   {| rb_size := 72;
                      rb_items := [{| item_ptr := 1;
                                      item_data := WorkItem_bytes (double_job 1) |}];
                      rb_borrowed := []; rb_next := 2 |};
                 mutex_receiving_buff := false |}
              {| Identifier := {| type := 3; ID := 1 |}; value := NOTIFICATION_WORK_IN_QUEUE |}
              []
              {| item_ptr := 1; item_data := WorkItem_bytes (double_job 1) |}
              [] (double_job 1)
              (fun args _ => (Some (WorkQueue.le_bytes 4 (args * 2)), 4))
              (set_rtask (Some {| receiving_buff := xRingbufferCreate 128;
                                  mutex_receiving_buff := false |})
                 (NTask_object 3 "reply" 10000 2 0 NTASK_QUEUE_LENGTH 1))
              {| receiving_buff := xRingbufferCreate 128; mutex_receiving_buff := false |}
              [42; 0; 0; 0] 4
              {| rb_size := 128;
                 rb_items := [{| item_ptr := 1; item_data := [42; 0; 0; 0] |}];
                 rb_borrowed := []; rb_next := 2 |})
    as (w' & Hrun & Hbuf & Hpushed & Hmail & Hlock & Htrace);
    [reflexivity|reflexivity|reflexivity|reflexivity|reflexivity|reflexivity|reflexivity
    |exact Hrange|reflexivity|reflexivity|cbn; lia|discriminate|discriminate|reflexivity
    |reflexivity|reflexivity|reflexivity|reflexivity|].
  eexists _, _, _, _, _, _, _, w'.
  split; [reflexivity|]. split; [reflexivity|]. split; [reflexivity|].
  split; [reflexivity|]. split; [reflexivity|]. split; [reflexivity|].
  split; [reflexivity|]. split; [reflexivity|]. split; [reflexivity|].
  split; [exact Hrun|]. split; [exact Hbuf|]. split; [exact Hpushed|].
  split; [exact Hmail|]. split; [exact Hlock|]. exact Htrace.
Defined.

(** ** miscellaneous *)

Lemma misc_log2_bounds (n : Z) :
  1 ≤ n → 0 ≤ misc.log2 n ∧ 2 ^ misc.log2 n ≤ n < 2 ^ (misc.log2 n + 1).
Proof.
  functional induction (misc.log2 n) as [n Hn|n Hn IH]; intros H1.
  - apply Z.ltb_lt in Hn. assert (n = 1) as -> by lia. cbn. lia.
  - apply Z.ltb_ge in Hn. rewrite Z.quot_div_nonneg in * by lia.
    assert (1 ≤ n / 2) as Hhalf by (apply Z.div_le_lower_bound; lia).
    destruct (IH Hhalf) as (Hk & Hlo & Hhi).
    split; [lia|].
    pose proof (Z.div_mod n 2 ltac:(lia)). pose proof (Z.mod_pos_bound n 2 ltac:(lia)).
    rewrite (Z.add_comm 1), !Z.pow_add_r, !Z.pow_1_r by lia.
    rewrite Z.pow_add_r, Z.pow_1_r in Hhi by lia. lia.
Qed.

Lemma pow2_land_pred (v : Z) :
  0 < v → (Z.land v (v - 1) = 0 ↔ v = 2 ^ Z.log2 v).
Proof.
  intros Hv. pose proof (Z.log2_nonneg v) as Hk.
  destruct (Z.log2_spec v Hv) as [Hlo Hhi].
  split.
  - intros Hland. destruct (decide (v = 2 ^ Z.log2 v)) as [|Hne]; [done|exfalso].
    assert (Z.testbit (Z.land v (v - 1)) (Z.log2 v) = true) as Hbit.
    { rewrite Z.land_spec, Z.bit_log2 by done.
      assert (Z.log2 (v - 1) = Z.log2 v) as <-.
      { apply Z.log2_unique; [done|]. replace (Z.succ (Z.log2 v)) with (Z.log2 v + 1) in * by lia.
        lia. }
      rewrite Z.bit_log2 by lia. done. }
    rewrite Hland, Z.bits_0 in Hbit. discriminate.
  - intros Heq. rewrite Heq at 1 2.
    replace (2 ^ Z.log2 v - 1) with (Z.ones (Z.log2 v)) by (rewrite Z.ones_equiv; lia).
    rewrite Z.land_ones by done. apply Z_mod_same_full.
Qed.

Lemma isPowerOf2_spec (v : Z) :
  0 ≤ v < 2 ^ 32 → (misc.isPowerOf2 v = true ↔ 0 < v ∧ v = 2 ^ Z.log2 v).
Proof.
  intros Hv. unfold misc.isPowerOf2.
  destruct (Z.eqb_spec v 0) as [->|Hne]; cbn [negb andb].
  - split; [discriminate|]. intros [? _]. lia.
  - rewrite (Z.mod_small (v - 1)) by lia.
    rewrite Z.eqb_eq, pow2_land_pred by lia. split; [intros ?; split; [lia|done]|by intros [_ ?]].
Qed.

Lemma misc_log2_eq (n : Z) : 1 ≤ n → misc.log2 n = Z.log2 n.
Proof.
  intros Hn. destruct (misc_log2_bounds n Hn) as (Hk & Hlo & Hhi).
  symmetry. apply Z.log2_unique; [done|].
  replace (Z.succ (misc.log2 n)) with (misc.log2 n + 1) by lia. lia.
Qed.

(** X21: for [min <= max], [range] returns a value within the bounds that
    is as close to [val] as a value within the bounds can be, and
    [isInRange] holds exactly when [range] leaves [val] as it is. *)
Theorem range_clamps (val min max : Z) :
  min ≤ max →
  min ≤ misc.range val min max ≤ max
  ∧ (∀ x, min ≤ x ≤ max → Z.abs (misc.range val min max - val) ≤ Z.abs (x - val))
  ∧ (misc.isInRange val min max = true ↔ misc.range val min max = val).
Proof.
  intros Hle. unfold misc.range, misc.isInRange.
  destruct (Z.ltb_spec min val), (Z.ltb_spec val max), (Z.ltb_spec val min),
    (Z.ltb_spec max val); repeat split; try lia; try done; intros; lia.
Qed.

Lemma range_clamps_witness :
  0 ≤ 10
  ∧ 0 ≤ misc.range 17 0 10 ≤ 10
  ∧ (∀ x, 0 ≤ x ≤ 10 → Z.abs (misc.range 17 0 10 - 17) ≤ Z.abs (x - 17))
  ∧ (misc.isInRange 17 0 10 = true ↔ misc.range 17 0 10 = 17).
Proof.
  split; [lia|]. apply (range_clamps 17 0 10). lia.
Defined.

(** X22: on a 32-bit unsigned value [isPowerOf2] holds exactly for the
    powers of two [2^0 .. 2^31]; it does not hold for 0. *)
Theorem isPowerOf2_iff (v : Z) :
  0 ≤ v < 2 ^ 32 →
  (misc.isPowerOf2 v = true ↔ ∃ k, 0 ≤ k < 32 ∧ v = 2 ^ k).
Proof.
  intros Hv. rewrite isPowerOf2_spec by done. split.
  - intros [Hpos Heq]. exists (Z.log2 v). split; [|done].
    split; [apply Z.log2_nonneg|]. apply Z.log2_lt_pow2; lia.
  - intros (k & Hk & ->). split; [apply Z.pow_pos_nonneg; lia|].
    by rewrite Z.log2_pow2 by lia.
Qed.

Lemma isPowerOf2_iff_witness :
  0 ≤ 4096 < 2 ^ 32
  ∧ (misc.isPowerOf2 4096 = true ↔ ∃ k, 0 ≤ k < 32 ∧ 4096 = 2 ^ k).
Proof.
  split; [lia|]. apply (isPowerOf2_iff 4096). lia.
Defined.

(** X23: [log2] is the floor of the binary logarithm: for [n >= 1] it is
    the [k >= 0] with [2^k <= n < 2^(k+1)]; below 1 it is 0. *)
Theorem log2_floor (n : Z) :
  (1 ≤ n → 0 ≤ misc.log2 n ∧ 2 ^ misc.log2 n ≤ n < 2 ^ (misc.log2 n + 1))
  ∧ (n < 1 → misc.log2 n = 0).
Proof.
  split; [apply misc_log2_bounds|].
  intros Hn. rewrite misc.log2_equation.
  destruct (Z.ltb_spec n 2); [done|lia].
Qed.

Lemma log2_floor_witness :
  (1 ≤ 17 → 0 ≤ misc.log2 17 ∧ 2 ^ misc.log2 17 ≤ 17 < 2 ^ (misc.log2 17 + 1))
  ∧ (17 < 1 → misc.log2 17 = 0).
Proof. exact (log2_floor 17). Defined.

(** X24: on a 32-bit unsigned [v] with [1 <= v <= 2^31], [nextPowerOf2]
    is the least power of two that is at least [v]; for 0 it is 2, and
    above [2^31] the shift count is 32 and there is no result. *)
Theorem nextPowerOf2_least (v : Z) :
  0 ≤ v < 2 ^ 32 →
  (v = 0 → misc.nextPowerOf2 v = Some 2)
  ∧ (1 ≤ v ≤ 2 ^ 31 →
     ∃ k, 0 ≤ k < 32 ∧ misc.nextPowerOf2 v = Some (2 ^ k) ∧ v ≤ 2 ^ k ∧ 2 ^ k < 2 * v)
  ∧ (2 ^ 31 < v → misc.nextPowerOf2 v = None).
Proof.
  intros Hv. split; [by intros ->|]. split.
  - intros Hr. unfold misc.nextPowerOf2.
    destruct (misc_log2_bounds v ltac:(lia)) as (Hk & Hlo & Hhi).
    rewrite Z.pow_add_r, Z.pow_1_r in Hhi by lia.
    pose proof (isPowerOf2_spec v Hv) as Hp. rewrite <- misc_log2_eq in Hp by lia.
    assert (misc.log2 v < 32) as Hk32.
    { apply (Z.pow_lt_mono_r_iff 2); lia. }
    destruct (misc.isPowerOf2 v); cbn [negb Z.b2z].
    + destruct Hp as [Hp _]. destruct (Hp eq_refl) as [_ Heq].
      exists (misc.log2 v). rewrite Z.add_0_r.
      assert ((misc.log2 v <? 32) = true) as -> by lia.
      rewrite Z.shiftl_1_l, Z.mod_small by lia. repeat split; lia.
    + assert (v ≠ 2 ^ misc.log2 v) as Hne.
      { intros Heq. destruct Hp as [_ Hp].
        assert (false = true) as Hf by (apply Hp; split; [lia|done]). discriminate Hf. }
      assert (misc.log2 v + 1 < 32) as Hk31.
      { apply (Z.pow_lt_mono_r_iff 2); [lia|lia|].
        rewrite Z.pow_add_r, Z.pow_1_r by lia.
        change (2 ^ 32) with (2 ^ 31 * 2). lia. }
      exists (misc.log2 v + 1).
      assert ((misc.log2 v + 1 <? 32) = true) as -> by lia.
      rewrite Z.shiftl_1_l, Z.pow_add_r, Z.pow_1_r by lia.
      assert (2 ^ misc.log2 v * 2 < 2 ^ 32).
      { rewrite <- (Z.pow_1_r 2) at 2. rewrite <- Z.pow_add_r by lia.
        apply Z.pow_lt_mono_r; lia. }
      rewrite Z.mod_small by lia. repeat split; lia.
  - intros Hbig. unfold misc.nextPowerOf2.
    destruct (misc_log2_bounds v ltac:(lia)) as (Hk & Hlo & Hhi).
    assert (misc.log2 v = 31) as Hk31.
    { assert (31 < misc.log2 v + 1) by (apply (Z.pow_lt_mono_r_iff 2); lia).
      assert (misc.log2 v < 32) by (apply (Z.pow_lt_mono_r_iff 2); lia). lia. }
    pose proof (isPowerOf2_spec v Hv) as Hp. rewrite <- misc_log2_eq in Hp by lia.
    destruct (misc.isPowerOf2 v).
    + destruct Hp as [Hp _]. destruct (Hp eq_refl) as [_ Heq]. rewrite Hk31 in Heq. lia.
    + rewrite Hk31. reflexivity.
Qed.

Lemma nextPowerOf2_least_witness :
  0 ≤ 17 < 2 ^ 32
  ∧ (17 = 0 → misc.nextPowerOf2 17 = Some 2)
  ∧ (1 ≤ 17 ≤ 2 ^ 31 →
     ∃ k, 0 ≤ k < 32 ∧ misc.nextPowerOf2 17 = Some (2 ^ k) ∧ 17 ≤ 2 ^ k ∧ 2 ^ k < 2 * 17)
  ∧ (2 ^ 31 < 17 → misc.nextPowerOf2 17 = None).
Proof.
  split; [lia|]. apply (nextPowerOf2_least 17). lia.
Defined.

Lemma generalized_cmp_element_in (cmp : Z → Z → bool) (f : Z → Z) (A : list Z) (a0 : Z) :
  fold_left (fun largest a => let temp := f a in if cmp largest temp then temp else largest)
    A a0 ∈ a0 :: (f <$> A).
Proof.
  set (F := fun largest a => let temp := f a in if cmp largest temp then temp else largest).
  revert a0. induction A as [|a A IH]; intros a0; cbn [fold_left fmap list_fmap].
  - by left.
  - assert (F a0 a = f a ∨ F a0 a = a0) as [-> | ->]
      by (unfold F; cbv zeta; destruct (cmp a0 (f a)); auto).
    + right. apply IH.
    + specialize (IH a0). apply elem_of_cons in IH as [->|IH]; [by left|by do 2 right].
Qed.

Lemma max_fold_bound (f : Z → Z) (A : list Z) (a0 : Z) :
  let m := fold_left (fun largest a => let temp := f a in
                        if misc._default_cmp_less largest temp then temp else largest)
             A a0 in
  a0 ≤ m ∧ ∀ x, x ∈ A → f x ≤ m.
Proof.
  set (F := fun largest a => let temp := f a in
              if misc._default_cmp_less largest temp then temp else largest).
  revert a0. induction A as [|a A IH]; intros a0; cbn [fold_left].
  - split; [lia|]. intros x Hx. by apply elem_of_nil in Hx.
  - assert (a0 ≤ F a0 a ∧ f a ≤ F a0 a) as [Ha Hf]
      by (unfold F, misc._default_cmp_less; cbv zeta; destruct (Z.ltb_spec a0 (f a)); lia).
    destruct (IH (F a0 a)) as [H1 H2]. split; [lia|].
    intros x Hx. apply elem_of_cons in Hx as [->|Hx]; [lia|by apply H2].
Qed.

Lemma min_fold_bound (f : Z → Z) (A : list Z) (a0 : Z) :
  let m := fold_left (fun largest a => let temp := f a in
                        if misc._default_cmp_grtr largest temp then temp else largest)
             A a0 in
  m ≤ a0 ∧ ∀ x, x ∈ A → m ≤ f x.
Proof.
  set (F := fun largest a => let temp := f a in
              if misc._default_cmp_grtr largest temp then temp else largest).
  revert a0. induction A as [|a A IH]; intros a0; cbn [fold_left].
  - split; [lia|]. intros x Hx. by apply elem_of_nil in Hx.
  - assert (F a0 a ≤ a0 ∧ F a0 a ≤ f a) as [Ha Hf]
      by (unfold F, misc._default_cmp_grtr; cbv zeta; destruct (Z.ltb_spec (f a) a0); lia).
    destruct (IH (F a0 a)) as [H1 H2]. split; [lia|].
    intros x Hx. apply elem_of_cons in Hx as [->|Hx]; [lia|by apply H2].
Qed.

(** X25: over an array of one element or more, [max_element] returns the
    image under [f] of an element, and no element has a larger image;
    [min_element] likewise returns the smallest image. *)
Theorem max_min_element_extremal (A0 : Z) (A : list Z) (f : Z → Z) :
  (misc.max_element A0 A f ∈ f <$> A0 :: A
   ∧ ∀ x, x ∈ A0 :: A → f x ≤ misc.max_element A0 A f)
  ∧ (misc.min_element A0 A f ∈ f <$> A0 :: A
     ∧ ∀ x, x ∈ A0 :: A → misc.min_element A0 A f ≤ f x).
Proof.
  unfold misc.max_element, misc.min_element, misc.generalized_cmp_element.
  split; (split; [apply generalized_cmp_element_in|]).
  - destruct (max_fold_bound f A (f A0)) as [H1 H2].
    intros x Hx. apply elem_of_cons in Hx as [->|Hx]; [done|by apply H2].
  - destruct (min_fold_bound f A (f A0)) as [H1 H2].
    intros x Hx. apply elem_of_cons in Hx as [->|Hx]; [done|by apply H2].
Qed.

Lemma max_min_element_extremal_witness :
  (misc.max_element 3 [-7; 5] misc.abs ∈ misc.abs <$> [3; -7; 5]
   ∧ ∀ x, x ∈ [3; -7; 5] → misc.abs x ≤ misc.max_element 3 [-7; 5] misc.abs)
  ∧ (misc.min_element 3 [-7; 5] misc.abs ∈ misc.abs <$> [3; -7; 5]
     ∧ ∀ x, x ∈ [3; -7; 5] → misc.min_element 3 [-7; 5] misc.abs ≤ misc.abs x).
Proof. exact (max_min_element_extremal 3 [-7; 5] misc.abs). Defined.

(** X26: [tick_measure] returns the cycles the function took when the
    32-bit cycle counter did not wrap in between.  When it wrapped, the
    wrapping difference is already the count, and the correction applied
    then returns [UINT32_MAX] minus the count instead. *)
Theorem tick_measure_wrap (ccount cycles : Z) :
  0 ≤ cycles < 2 ^ 32 →
  (ccount mod 2 ^ 32 + cycles < 2 ^ 32 → misc.tick_measure ccount cycles = cycles)
  ∧ (2 ^ 32 ≤ ccount mod 2 ^ 32 + cycles →
     misc.tick_measure ccount cycles = UINT32_MAX - cycles).
Proof.
  intros Hcy. unfold misc.tick_measure, misc.xthal_get_ccount, UINT32_MAX.
  pose proof (Z.mod_pos_bound ccount (2 ^ 32) ltac:(lia)) as Hb.
  rewrite <- (Zplus_mod_idemp_l ccount cycles).
  set (b := ccount mod 2 ^ 32) in *.
  split; intros Hw.
  - rewrite (Z.mod_small (b + cycles)) by lia.
    destruct (Z.ltb_spec (b + cycles) b); [lia|].
    replace (b + cycles - b) with cycles by lia. apply Z.mod_small. lia.
  - assert ((b + cycles) mod 2 ^ 32 = b + cycles - 2 ^ 32) as ->.
    { symmetry. apply (Z.mod_unique _ _ 1); lia. }
    destruct (Z.ltb_spec (b + cycles - 2 ^ 32) b) as [_|Hge].
    + assert ((b + cycles - 2 ^ 32 - b) mod 2 ^ 32 = cycles) as ->; [|done].
      symmetry. apply (Z.mod_unique _ _ (-1)); lia.
    + lia.
Qed.

Lemma tick_measure_wrap_witness :
  0 ≤ 0x20 < 2 ^ 32
  ∧ (0xfffffff0 mod 2 ^ 32 + 0x20 < 2 ^ 32 → misc.tick_measure 0xfffffff0 0x20 = 0x20)
  ∧ (2 ^ 32 ≤ 0xfffffff0 mod 2 ^ 32 + 0x20 →
     misc.tick_measure 0xfffffff0 0x20 = UINT32_MAX - 0x20).
Proof.
  split; [lia|]. apply (tick_measure_wrap 0xfffffff0 0x20); lia.
Defined.

(** ** FixedPoint *)

Lemma wrap32_small (z : Z) : - 2 ^ 31 ≤ z < 2 ^ 31 → FixedPoint.wrap32 z = z.
Proof. intros Hz. unfold FixedPoint.wrap32. rewrite Z.mod_small; lia. Qed.

Lemma wrap64_small (z : Z) : - 2 ^ 63 ≤ z < 2 ^ 63 → FixedPoint.wrap64 z = z.
Proof. intros Hz. unfold FixedPoint.wrap64. rewrite Z.mod_small; lia. Qed.

Lemma factor_pow (E : Z) : 0 ≤ E → FixedPoint.factor E = 2 ^ E.
Proof. intros HE. unfold FixedPoint.factor. by rewrite Z.shiftl_1_l. Qed.

(** X27: [floor] and [ceil] are the integer floor and ceiling of the
    value [m / 2^E], for every mantissa, negative ones included: the
    truncating cast to [int] is corrected by one when the mantissa has a
    fractional part on the side the truncation loses. *)
Theorem floor_ceil_exact (E m : Z) :
  0 ≤ E < 31 → - 2 ^ 31 ≤ m < 2 ^ 31 →
  (FixedPoint.floor E m * 2 ^ E ≤ m < (FixedPoint.floor E m + 1) * 2 ^ E)
  ∧ ((FixedPoint.ceil E m - 1) * 2 ^ E < m ≤ FixedPoint.ceil E m * 2 ^ E).
Proof.
  intros HE Hm. unfold FixedPoint.floor, FixedPoint.ceil, FixedPoint.to_int.
  rewrite factor_pow by lia.
  assert (0 < 2 ^ E) as Hpos by (apply Z.pow_pos_nonneg; lia).
  assert (2 ^ E ≤ 2 ^ 30) as Hmax by (apply Z.pow_le_mono_r; lia).
  pose proof (Z.quot_rem' m (2 ^ E)) as Hqr.
  assert (Z.abs (Z.rem m (2 ^ E)) < 2 ^ E) as Hrem.
  { pose proof (Z.rem_bound_abs m (2 ^ E) ltac:(lia)). lia. }
  assert (0 ≤ m → 0 ≤ Z.rem m (2 ^ E)) as Hsp.
  { intros ?. apply Z.rem_nonneg; lia. }
  assert (m ≤ 0 → Z.rem m (2 ^ E) ≤ 0) as Hsn.
  { intros ?. apply Z.rem_nonpos; lia. }
  set (r := m ÷ 2 ^ E) in *. set (t := Z.rem m (2 ^ E)) in *.
  assert (FixedPoint.wrap32 (r * 2 ^ E) = r * 2 ^ E) as ->.
  { apply wrap32_small. destruct (Z.le_gt_cases 0 m); [specialize (Hsp ltac:(lia))|
      specialize (Hsn ltac:(lia))]; lia. }
  destruct (Z.ltb_spec m 0), (Z.ltb_spec 0 m), (Z.eqb_spec (r * 2 ^ E) m);
    cbn [Z.b2z]; try specialize (Hsp ltac:(lia)); try specialize (Hsn ltac:(lia)); lia.
Qed.

Lemma floor_ceil_exact_witness :
  0 ≤ 4 < 31 ∧ - 2 ^ 31 ≤ -17 < 2 ^ 31
  ∧ (FixedPoint.floor 4 (-17) * 2 ^ 4 ≤ -17 < (FixedPoint.floor 4 (-17) + 1) * 2 ^ 4)
  ∧ ((FixedPoint.ceil 4 (-17) - 1) * 2 ^ 4 < -17 ≤ FixedPoint.ceil 4 (-17) * 2 ^ 4).
Proof.
  split; [lia|]. split; [lia|]. apply (floor_ceil_exact 4 (-17)); lia.
Defined.

(** X28: [operator*=] returns the exact product, scaled back by the
    factor of the right operand and truncated toward zero, on both of its
    paths: on the general path for all mantissas whose scaled product fits
    32 bits, and on the path without the 64-bit intermediate when the two
    mantissas are within their formats, [|m| < 2^(I+E)] and
    [|x| < 2^(J+F)]. *)
Theorem mul_assign_exact (I E J F m x : Z) :
  0 ≤ I → 0 ≤ E → 0 ≤ J → 0 ≤ F → I + E < 31 → J + F < 31 →
  - 2 ^ 31 ≤ m < 2 ^ 31 → - 2 ^ 31 ≤ x < 2 ^ 31 →
  ((I + E) + (J + F) < 31 → Z.abs m < 2 ^ (I + E) ∧ Z.abs x < 2 ^ (J + F)) →
  - 2 ^ 31 ≤ (m * x) ÷ 2 ^ F < 2 ^ 31 →
  FixedPoint.mul_assign I E J F m x = (m * x) ÷ 2 ^ F.
Proof.
  intros HI HE HJ HF HIE HJF Hm Hx Hfmt Hfit. unfold FixedPoint.mul_assign.
  rewrite factor_pow by lia.
  destruct (Z.ltb_spec (I + E + (J + F)) 31) as [Hfast|Hslow].
  - destruct (Hfmt Hfast) as [Hma Hxa].
    assert (Z.abs (m * x) < 2 ^ 31) as Hprod.
    { rewrite Z.abs_mul.
      apply Z.le_lt_trans with (2 ^ (I + E) * 2 ^ (J + F)).
      - destruct (Z.eq_dec (Z.abs x) 0) as [->|]; [nia|].
        apply Z.mul_le_mono_nonneg; lia.
      - rewrite <- Z.pow_add_r by lia. apply Z.pow_lt_mono_r; lia. }
    rewrite wrap32_small by lia. done.
  - assert (Z.abs (m * x) ≤ 2 ^ 62) as Hprod.
    { rewrite Z.abs_mul. change (2 ^ 62) with (2 ^ 31 * 2 ^ 31).
      apply Z.mul_le_mono_nonneg; lia. }
    rewrite wrap64_small by lia. by apply wrap32_small.
Qed.

Lemma mul_assign_exact_witness :
  0 ≤ 5 ∧ 0 ≤ 5 ∧ 0 ≤ 5 ∧ 0 ≤ 10 ∧ 5 + 5 < 31 ∧ 5 + 10 < 31
  ∧ - 2 ^ 31 ≤ -48 < 2 ^ 31 ∧ - 2 ^ 31 ≤ 1536 < 2 ^ 31
  ∧ ((5 + 5) + (5 + 10) < 31 → Z.abs (-48) < 2 ^ (5 + 5) ∧ Z.abs 1536 < 2 ^ (5 + 10))
  ∧ - 2 ^ 31 ≤ (-48 * 1536) ÷ 2 ^ 10 < 2 ^ 31
  ∧ FixedPoint.mul_assign 5 5 5 10 (-48) 1536 = (-48 * 1536) ÷ 2 ^ 10.
Proof.
  assert (- 2 ^ 31 ≤ (-48 * 1536) ÷ 2 ^ 10 < 2 ^ 31) as Hfit
    by (change ((-48 * 1536) ÷ 2 ^ 10) with (-72); lia).
  do 8 (split; [lia|]). split; [cbn; lia|]. split; [exact Hfit|].
  apply (mul_assign_exact 5 5 5 10 (-48) 1536); [lia..| |exact Hfit]. cbn; lia.
Defined.

(** ** ultrasound *)

Import Ultrasound.

(** X29: a measurement that gets its echo.  From the idle state, two
    timer callbacks raise and lower the trigger pin and an interrupt on
    each edge of the echo follows: the distance stored is the length of the
    echo times 343 over 2000, stamped with the time the trigger was raised,
    the error count is unchanged and the machine is idle again.  The two
    timer delays add up to the measurement period, the echo interrupt is
    enabled only after the trigger pulse, and the user callback is called
    once, after the measurement is stored. *)
Theorem measurement_cycle (h : Ultrasound_struct_t) (t0 t1 t2 t3 : Z) :
  state h = ULTRASOUND_STATE_WAIT_TRIG_START →
  0 ≤ trig_signal_duration_us h ≤ measurement_period_us h →
  measurement_period_us h < 2 ^ 64 →
  0 ≤ t2 ≤ t3 → t3 < 2 ^ 63 →
  (t3 - t2) * 343 / 2000 < 2 ^ 31 →
  callback h ≠ 0 →
  let r1 := ultrasound_periodic_job t0 h in
  let r2 := ultrasound_periodic_job t1 r1.1 in
  let r3 := ultrasound_gpio_isr_echo t2 r2.1 in
  let r4 := ultrasound_gpio_isr_echo t3 r3.1 in
  let measure := {| timestamp_us := t0; distance_mm := (t3 - t2) * 343 / 2000 |} in
  Ultrasound_GetDistance r4.1 = measure
  ∧ state r4.1 = ULTRASOUND_STATE_WAIT_TRIG_START
  ∧ error_count r4.1 = error_count h
  ∧ r1.2 ++ r2.2 ++ r3.2 ++ r4.2
    = [gpio_intr_disable (gpio_echo_pin h);
       gpio_set_level (gpio_trig_pin h) 1;
       esp_timer_start_once (timer h) (trig_signal_duration_us h);
       gpio_set_level (gpio_trig_pin h) 0;
       esp_timer_start_once (timer h) (measurement_period_us h - trig_signal_duration_us h);
       gpio_set_intr_type (gpio_echo_pin h) GPIO_INTR_POSEDGE;
       gpio_intr_enable (gpio_echo_pin h);
       gpio_set_intr_type (gpio_echo_pin h) GPIO_INTR_NEGEDGE;
       gpio_intr_disable (gpio_echo_pin h);
       user_callback (callback h) (user_data h) measure].
Proof.
  intros Hs Htrig Hperiod Ht Ht3 Hfit Hcb r1 r2 r3 r4 measure.
  assert (0 ≤ (t3 - t2) * 343 / 2000) as Hpos by (apply Z.div_pos; lia).
  assert ((t3 - t2) * 343 < 2 ^ 63) as Hprod.
  { apply Z.lt_le_trans with ((2 ^ 31 + 1) * 2000); [|lia].
    pose proof (Z.div_mod ((t3 - t2) * 343) 2000 ltac:(lia)).
    pose proof (Z.mod_pos_bound ((t3 - t2) * 343) 2000 ltac:(lia)). lia. }
  assert (distance_mm (last_measure r4.1) = (t3 - t2) * 343 / 2000
          ∧ r4.1 = set_state ULTRASOUND_STATE_WAIT_TRIG_START
                     (set_last_measure measure
                        (set_time_echo_end t3
                           (set_state ULTRASOUND_STATE_WAIT_ECHO_END
                              (set_time_echo_start t2
                                 (set_state ULTRASOUND_STATE_WAIT_ECHO_START
                                    (set_state ULTRASOUND_STATE_WAIT_TRIG_END
                                       (set_time_trig_start t0 h)))))))
          ∧ r1.2 ++ r2.2 ++ r3.2 ++ r4.2
            = [gpio_intr_disable (gpio_echo_pin h);
               gpio_set_level (gpio_trig_pin h) 1;
               esp_timer_start_once (timer h) (trig_signal_duration_us h);
               gpio_set_level (gpio_trig_pin h) 0;
               esp_timer_start_once (timer h)
                 (measurement_period_us h - trig_signal_duration_us h);
               gpio_set_intr_type (gpio_echo_pin h) GPIO_INTR_POSEDGE;
               gpio_intr_enable (gpio_echo_pin h);
               gpio_set_intr_type (gpio_echo_pin h) GPIO_INTR_NEGEDGE;
               gpio_intr_disable (gpio_echo_pin h);
               user_callback (callback h) (user_data h) measure]) as (Hd & Hr4 & Hcalls).
  { subst r1 r2 r3 r4 measure. unfold ultrasound_periodic_job.
    rewrite Hs, ultrasound_periodic_job_switch_equation. cbn [fst snd state set_state].
    rewrite ultrasound_periodic_job_switch_equation.
    unfold ultrasound_gpio_isr_echo. cbn -[Z.mul Z.quot Z.sub Z.pow Z.modulo].
    rewrite (Z.mod_small (measurement_period_us h - trig_signal_duration_us h)) by lia.
    rewrite (wrap64_small (t3 - t2)) by lia.
    unfold VELOCITY_SOUND_MM_PER_MS. rewrite wrap64_small by lia.
    rewrite Z.quot_div_nonneg by lia. change (1000 * 2) with 2000.
    rewrite wrap32_small by lia.
    destruct (Z.eqb_spec (callback h) 0) as [|_]; [done|]. done. }
  unfold Ultrasound_GetDistance. rewrite Hr4 in *. cbn in Hd |- *.
  split; [by subst measure|]. split; [done|]. split; [done|]. exact Hcalls.
Qed.

Lemma measurement_cycle_witness :
  let h := (Ultrasound_Start sample_sensor).1.2 in
  let r1 := ultrasound_periodic_job 2000 h in
  let r2 := ultrasound_periodic_job 2050 r1.1 in
  let r3 := ultrasound_gpio_isr_echo 2500 r2.1 in
  let r4 := ultrasound_gpio_isr_echo 8331 r3.1 in
  let measure := {| timestamp_us := 2000; distance_mm := (8331 - 2500) * 343 / 2000 |} in
  state h = ULTRASOUND_STATE_WAIT_TRIG_START
  ∧ Ultrasound_GetDistance r4.1 = measure
  ∧ state r4.1 = ULTRASOUND_STATE_WAIT_TRIG_START
  ∧ error_count r4.1 = error_count h
  ∧ r1.2 ++ r2.2 ++ r3.2 ++ r4.2
    = [gpio_intr_disable (gpio_echo_pin h);
       gpio_set_level (gpio_trig_pin h) 1;
       esp_timer_start_once (timer h) (trig_signal_duration_us h);
       gpio_set_level (gpio_trig_pin h) 0;
       esp_timer_start_once (timer h) (measurement_period_us h - trig_signal_duration_us h);
       gpio_set_intr_type (gpio_echo_pin h) GPIO_INTR_POSEDGE;
       gpio_intr_enable (gpio_echo_pin h);
       gpio_set_intr_type (gpio_echo_pin h) GPIO_INTR_NEGEDGE;
       gpio_intr_disable (gpio_echo_pin h);
       user_callback (callback h) (user_data h) measure].
Proof.
  intros h. split; [reflexivity|].
  apply (measurement_cycle h 2000 2050 2500 8331);
    [reflexivity|cbn; lia|cbn; lia|lia|lia|reflexivity|discriminate].
Defined.

(** X30: a timer callback that finds the machine still waiting for an
    edge of the echo counts one error, on 8 bits, and starts the next
    measurement in the same call: the echo interrupt is disabled, the
    trigger pin raised, the timer armed for the trigger pulse.  The last
    measurement is kept. *)
Theorem echo_timeout_restarts (h : Ultrasound_struct_t) (now : Z) :
  state h = ULTRASOUND_STATE_WAIT_ECHO_START ∨ state h = ULTRASOUND_STATE_WAIT_ECHO_END →
  let r := ultrasound_periodic_job now h in
  error_count r.1 = (error_count h + 1) mod 2 ^ 8
  ∧ state r.1 = ULTRASOUND_STATE_WAIT_TRIG_END
  ∧ time_trig_start r.1 = now
  ∧ Ultrasound_GetDistance r.1 = Ultrasound_GetDistance h
  ∧ r.2 = [gpio_intr_disable (gpio_echo_pin h);
           gpio_set_level (gpio_trig_pin h) 1;
           esp_timer_start_once (timer h) (trig_signal_duration_us h)].
Proof.
  intros Hs r. subst r. unfold ultrasound_periodic_job.
  destruct Hs as [-> | ->]; rewrite ultrasound_periodic_job_switch_equation;
    cbn [state set_state set_error_count];
    rewrite ultrasound_periodic_job_switch_equation; by cbn.
Qed.

Lemma echo_timeout_restarts_witness :
  let h := set_state ULTRASOUND_STATE_WAIT_ECHO_END
             (set_error_count 255 sample_sensor) in
  let r := ultrasound_periodic_job 70000 h in
  (state h = ULTRASOUND_STATE_WAIT_ECHO_START ∨ state h = ULTRASOUND_STATE_WAIT_ECHO_END)
  ∧ error_count r.1 = (error_count h + 1) mod 2 ^ 8
  ∧ state r.1 = ULTRASOUND_STATE_WAIT_TRIG_END
  ∧ time_trig_start r.1 = 70000
  ∧ Ultrasound_GetDistance r.1 = Ultrasound_GetDistance h
  ∧ r.2 = [gpio_intr_disable (gpio_echo_pin h);
           gpio_set_level (gpio_trig_pin h) 1;
           esp_timer_start_once (timer h) (trig_signal_duration_us h)].
Proof.
  intros h. split; [right; reflexivity|].
  apply (echo_timeout_restarts h 70000). right. reflexivity.
Defined.
